(** * LoRAW: low-rank adapters injected into a host module graph

    A shallow embedding of [loraw/modules.py] and [loraw/network.py]:
    the graph scanner [scan_model], the adapter modules
    ([LoRAWModule], [LoRAWLinear], [LoRAWConv1d]), the adapter network
    and the wrapper that owns the adapter parameters.

    Numbers are exact rationals ([Qc]); a Python exception is a value of
    [exn] carried by [result]. *)

From Stdlib Require Import QArith Qcanon Qcabs.
From Stdlib Require Import String Ascii List ZArith Lia.
From stdpp Require Import gmap strings list.
Import ListNotations.

Open Scope string_scope.
Open Scope nat_scope.
Open Scope list_scope.

(** ** Exceptions *)

Inductive exn : Set :=
| KeyError
| AssertionError
| RuntimeError
| ValueError
| ZeroDivisionError
| AttributeError
| FileNotFoundError.

Inductive result (A : Type) : Type :=
| Ok (a : A)
| Raise (e : exn).
Arguments Ok {A} a.
Arguments Raise {A} e.

#[global] Instance result_ret : MRet result := fun A a => Ok a.
#[global] Instance result_bind : MBind result := fun A B f r =>
  match r with
  | Ok a => f a
  | Raise e => Raise e
  end.
#[global] Instance result_fmap : FMap result := fun A B f r =>
  match r with
  | Ok a => Ok (f a)
  | Raise e => Raise e
  end.

(** A [for] loop whose body may raise: the state reached so far is lost
    with the exception, as the caller of [scan_model] never sees it. *)
Fixpoint for_each {S A} (body : S -> A -> result S) (items : list A) (s : S)
  : result S :=
  match items with
  | [] => Ok s
  | a :: rest => s' ← body s a; for_each body rest s'
  end.

(** ** Python strings and dicts *)

Module Py.

(** [s.split(sep)] for a one-character separator: never the empty list. *)
Fixpoint split (sep : ascii) (s : string) : list string :=
  match s with
  | EmptyString => [EmptyString]
  | String c rest =>
      if Ascii.eqb c sep then EmptyString :: split sep rest
      else match split sep rest with
           | [] => [String c EmptyString]
           | w :: ws => String c w :: ws
           end
  end.

(** [s.replace(old, new)] for one-character [old] and [new]. *)
Fixpoint replace (old new : ascii) (s : string) : string :=
  match s with
  | EmptyString => EmptyString
  | String c rest =>
      String (if Ascii.eqb c old then new else c) (replace old new rest)
  end.

(** [l[:-1]] *)
Definition but_last {A} (l : list A) : list A := removelast l.

(** [l[-1]] on the result of [split], which is never empty. *)
Definition last_segment (l : list string) : string := List.last l EmptyString.

(** An insertion-ordered dict as an association list with unique keys. *)
Definition dict (V : Type) : Type := list (string * V).

Fixpoint get {V} (d : dict V) (k : string) : option V :=
  match d with
  | [] => None
  | (k', v) :: rest => if String.eqb k' k then Some v else get rest k
  end.

(** [d[k] = v]: an existing key keeps its position, a new one goes last. *)
Fixpoint set {V} (d : dict V) (k : string) (v : V) : dict V :=
  match d with
  | [] => [(k, v)]
  | (k', v') :: rest =>
      if String.eqb k' k then (k', v) :: rest else (k', v') :: set rest k v
  end.

Definition keys {V} (d : dict V) : list string := map fst d.

(** The value under [k], if any, replaced by its image under [f]. *)
Fixpoint alter {V} (d : dict V) (k : string) (f : V -> V) : dict V :=
  match d with
  | [] => []
  | (k', v) :: rest =>
      if String.eqb k' k then (k', f v) :: rest else (k', v) :: alter rest k f
  end.

(** [d[k]] as an expression: [KeyError] when absent. *)
Definition item {V} (d : dict V) (k : string) : result V :=
  match get d k with
  | Some v => Ok v
  | None => Raise KeyError
  end.

End Py.

(** ** The host graph, as far as the scanner sees it

    A [torch.nn.Module] is an object with an identity, a class and an
    ordered table [_modules] of named children.  Children registered as
    [None] are skipped by [named_modules] and never reached through a
    path, so the table holds modules only. *)

#[warnings="-register-all"]
Inductive Module : Type :=
  mkModule { module_id : nat;
             class_name : string;
             _modules : Py.dict Module }.

(** [Module.named_modules(memo, prefix)]: the module itself under [prefix],
    then its children's, depth first in table order; a module object
    already met ([memo]) is left out. *)
Fixpoint named_modules_memo (memo : gset nat) (prefix : string) (m : Module)
  {struct m} : list (string * Module) * gset nat :=
  match m with
  | mkModule id _ children =>
      if decide (id ∈ memo) then ([], memo)
      else
        let fix each (memo : gset nat) (l : Py.dict Module) {struct l} :=
          match l with
          | [] => ([], memo)
          | (name, sub) :: rest =>
              let submodule_prefix :=
                prefix +:+ (if String.eqb prefix "" then "" else ".") +:+ name in
              let '(here, memo) := named_modules_memo memo submodule_prefix sub in
              let '(there, memo) := each memo rest in
              (here ++ there, memo)
          end in
        let '(below, memo) := each ({[ id ]} ∪ memo) children in
        ((prefix, m) :: below, memo)
  end.

Definition named_modules (m : Module) : list (string * Module) :=
  fst (named_modules_memo ∅ "" m).

(** ** network.py: [TargetableModules] and [scan_model] *)

Inductive TargetableModules : Set := Linear | Conv1d.

(** [TargetableModules.__members__]: the enum's member names. *)
Definition TargetableModules_members : list string := ["Linear"; "Conv1d"].

Definition TargetableModules_lookup (name : string) : option TargetableModules :=
  if String.eqb name "Linear" then Some Linear
  else if String.eqb name "Conv1d" then Some Conv1d
  else None.

(** One value of the returned dict: [{"module": ..., "parent": ...}]. *)
Record target_info : Type :=
  mkInfo { info_module : Module; info_parent : Module }.

Definition ancestor_set (ancestor_name : string) : gset string :=
  list_to_set (Py.split "." ancestor_name).

(** The [if] of the outer loop. *)
Definition block_selected (target_blocks : gset string)
    (whitelist blacklist : option (gset string))
    (ancestor_name : string) (ancestor_module : Module) : bool :=
  bool_decide (class_name ancestor_module ∈ target_blocks)
  && match whitelist with
     | None => true
     | Some wl => negb (bool_decide (ancestor_set ancestor_name ## wl))
     end
  && match blacklist with
     | None => true
     | Some bl => bool_decide (ancestor_set ancestor_name ## bl)
     end.

Definition qualified_id (ancestor_name decendant_name : string) : string :=
  Py.replace "." "/" (ancestor_name +:+ "." +:+ decendant_name).

(** The body of the inner loop.  The loop state is the variable
    [ancestor_module], which the walk to the parent assigns to, and the
    dict under construction. *)
Definition scan_decendant (ancestor_name : string)
    (st : Module * Py.dict target_info) (d : string * Module)
  : result (Module * Py.dict target_info) :=
  let '(ancestor_module, module_map) := st in
  let '(decendant_name, decendant_module) := d in
  if bool_decide (class_name decendant_module ∈ TargetableModules_members) then
    ancestor_module ←
      for_each (fun am name => Py.item (_modules am) name)
               (Py.but_last (Py.split "." decendant_name)) ancestor_module;
    let id := qualified_id ancestor_name decendant_name in
    Ok (ancestor_module,
        Py.set module_map id (mkInfo decendant_module ancestor_module))
  else Ok st.

(** The body of the outer loop. *)
Definition scan_ancestor (target_blocks : gset string)
    (whitelist blacklist : option (gset string))
    (module_map : Py.dict target_info) (a : string * Module)
  : result (Py.dict target_info) :=
  let '(ancestor_name, ancestor_module) := a in
  if block_selected target_blocks whitelist blacklist ancestor_name ancestor_module
  then
    snd <$> for_each (scan_decendant ancestor_name)
                     (named_modules ancestor_module)
                     (ancestor_module, module_map)
  else Ok module_map.

Definition scan_model (model : Module) (target_blocks : list string)
    (whitelist blacklist : option (list string))
  : result (Py.dict target_info) :=
  let target_blocks : gset string := list_to_set target_blocks in
  let whitelist : option (gset string) := list_to_set <$> whitelist in
  let blacklist : option (gset string) := list_to_set <$> blacklist in
  for_each (scan_ancestor target_blocks whitelist blacklist)
           (named_modules model) [].

(** ** Tensors

    A tensor is its shape and its elements in row-major order.  Elements
    are exact rationals: rounding, overflow, devices and mixed precision
    are outside the model. *)

Definition Z2Qc (z : Z) : Qc := Q2Qc (inject_Z z).

Definition Qc_ltb (a b : Qc) : bool :=
  if Qclt_le_dec a b then true else false.

Record Tensor : Type := mkTensor { shape : list nat; data : list Qc }.

Definition numel (s : list nat) : nat := fold_right Nat.mul 1 s.

(** The [count] consecutive rows of width [width] of a flat list. *)
Definition rows {A} (count width : nat) (l : list A) : list (list A) :=
  map (fun i => firstn width (skipn (i * width) l)) (seq 0 count).

Definition dot (u v : list Qc) : Qc :=
  fold_right Qcplus 0%Qc (zip_with Qcmult u v).

(** [t * q] for a Python number [q]. *)
Definition tensor_scale (t : Tensor) (q : Qc) : Tensor :=
  mkTensor (shape t) (map (fun v => (v * q)%Qc) (data t)).

(** Broadcasting: shapes are aligned at the last axis; two extents are
    compatible when equal or when one of them is 1. *)
Fixpoint broadcast_rev (s1 s2 : list nat) : option (list nat) :=
  match s1, s2 with
  | [], s | s, [] => Some s
  | d1 :: r1, d2 :: r2 =>
      match broadcast_rev r1 r2 with
      | None => None
      | Some r =>
          if d1 =? d2 then Some (d1 :: r)
          else if d1 =? 1 then Some (d2 :: r)
          else if d2 =? 1 then Some (d1 :: r)
          else None
      end
  end.

Definition broadcast_shapes (s1 s2 : list nat) : option (list nat) :=
  match broadcast_rev (rev s1) (rev s2) with
  | Some r => Some (rev r)
  | None => None
  end.

(** Elements of a tensor of shape [src] laid out for the shape [tgt] of the
    same rank, an axis of extent 1 being repeated. *)
Fixpoint expand_data (src tgt : list nat) (l : list Qc) : list Qc :=
  match src, tgt with
  | d :: src', e :: tgt' =>
      let parts := map (expand_data src' tgt') (rows d (numel src') l) in
      if d =? e then concat parts else concat (repeat (concat parts) e)
  | _, _ => l
  end.

Definition tensor_expand (t : Tensor) (tgt : list nat) : Tensor :=
  mkTensor tgt
    (expand_data (repeat 1 (length tgt - length (shape t)) ++ shape t) tgt (data t)).

(** [a + b] *)
Definition tensor_add (a b : Tensor) : result Tensor :=
  if decide (shape a = shape b) then
    Ok (mkTensor (shape a) (zip_with Qcplus (data a) (data b)))
  else
    match broadcast_shapes (shape a) (shape b) with
    | Some s =>
        Ok (mkTensor s (zip_with Qcplus (data (tensor_expand a s))
                                        (data (tensor_expand b s))))
    | None => Raise RuntimeError
    end.

(** [a - b], used to compare outputs. *)
Definition tensor_sub (a b : Tensor) : result Tensor :=
  tensor_add a (tensor_scale b (- 1)%Qc).

(** The elements [dst.copy_(src)] leaves in [dst]: [src] broadcast to the
    shape of [dst]. *)
Definition tensor_copy_ (dst src : Tensor) : result Tensor :=
  if decide (shape src = shape dst) then Ok src
  else if decide (broadcast_shapes (shape src) (shape dst) = Some (shape dst))
  then Ok (tensor_expand src (shape dst))
  else Raise RuntimeError.

(** ** Parameters and the two layer kinds *)

Inductive DType : Set := float16 | bfloat16 | float32 | float64.

Record nn_Parameter : Type :=
  mkParameter { dtype : DType; requires_grad : bool; value : Tensor }.

(** What a random number generator hands out: the [i]-th draw. *)
Definition Draws : Type := nat -> Qc.

Definition fresh_parameter (s : list nat) (init : Draws) : nn_Parameter :=
  mkParameter float32 true (mkTensor s (map init (seq 0 (numel s)))).

(** [torch.nn.init.kaiming_uniform_]: every element is redrawn. *)
Definition kaiming_uniform_ (p : nn_Parameter) (rng : Draws) : nn_Parameter :=
  mkParameter (dtype p) (requires_grad p)
    (mkTensor (shape (value p)) (map rng (seq 0 (numel (shape (value p)))))).

(** [torch.nn.init.zeros_] *)
Definition zeros_ (p : nn_Parameter) : nn_Parameter :=
  mkParameter (dtype p) (requires_grad p)
    (mkTensor (shape (value p)) (repeat 0%Qc (numel (shape (value p))))).

Record nn_Linear : Type :=
  mkLinear { in_features : nat;
             out_features : nat;
             weight : nn_Parameter;
             bias : option nn_Parameter }.

(** [torch.nn.Linear(in, out, bias=False)] *)
Definition nn_Linear_new (inf outf : Z) (init : Draws) : result nn_Linear :=
  if ((inf <? 0) || (outf <? 0))%Z then Raise RuntimeError
  else Ok (mkLinear (Z.to_nat inf) (Z.to_nat outf)
             (fresh_parameter [Z.to_nat outf; Z.to_nat inf] init) None).

(** [Linear.forward]: [x @ weight.T + bias] along the last axis. *)
Definition Linear_forward (l : nn_Linear) (x : Tensor) : result Tensor :=
  match shape (value (weight l)), rev (shape x) with
  | [outf; inf], width :: lead =>
      if width =? inf then
        let W := rows outf inf (data (value (weight l))) in
        let out_row (r : list Qc) : list Qc :=
          match bias l with
          | Some b => zip_with Qcplus (map (dot r) W) (data (value b))
          | None => map (dot r) W
          end in
        Ok (mkTensor (rev lead ++ [outf])
              (concat (map out_row (rows (numel (rev lead)) width (data x)))))
      else Raise RuntimeError
  | _, _ => Raise RuntimeError
  end.

(** [torch.nn.Conv1d] with [groups=1] and zero padding. *)
Record nn_Conv1d : Type :=
  mkConv1d { in_channels : nat;
             out_channels : nat;
             kernel_size : nat;
             stride : nat;
             padding : nat;
             dilation : nat;
             conv_weight : nn_Parameter;
             conv_bias : option nn_Parameter }.

(** [torch.nn.Conv1d(in, out, kernel_size, stride, padding, bias=False)]:
    the dilation is the default, 1. *)
Definition nn_Conv1d_new (inc outc : Z) (k s p : nat) (init : Draws)
  : result nn_Conv1d :=
  if ((inc <? 0) || (outc <? 0))%Z then Raise RuntimeError
  else Ok (mkConv1d (Z.to_nat inc) (Z.to_nat outc) k s p 1
             (fresh_parameter [Z.to_nat outc; Z.to_nat inc; k] init) None).

(** The length of the output for an input of length [len] and a kernel of
    [k] taps.  A stride or a dilation of zero, an empty kernel and a
    kernel that spans more than the padded input are rejected. *)
Definition conv1d_length (c : nn_Conv1d) (k len : nat) : result nat :=
  let span := dilation c * (k - 1) + 1 in
  if (stride c =? 0) || (dilation c =? 0) || (k =? 0) then Raise RuntimeError
  else if len + 2 * padding c <? span then Raise RuntimeError
  else Ok ((len + 2 * padding c - span) / stride c + 1).

(** One sample [ci x len] through the convolution: the [co x l_out]
    output elements,
    [out[o][t] = bias[o] + sum_c sum_j w[o][c][j] * x[c][t*stride + j*dilation]]
    on the zero-padded input. *)
Definition conv1d_sample (c : nn_Conv1d) (co ci k len l_out : nat) (xd : list Qc)
  : list Qc :=
  let xs := map (fun r => repeat 0%Qc (padding c) ++ r ++ repeat 0%Qc (padding c))
                (rows ci len xd) in
  let filters := map (rows ci k) (rows co (ci * k) (data (value (conv_weight c)))) in
  let window (t : nat) (xrow : list Qc) : list Qc :=
    map (fun j => nth (t * stride c + j * dilation c) xrow 0%Qc) (seq 0 k) in
  let at_ (f : list (list Qc)) (t : nat) : Qc :=
    fold_right Qcplus 0%Qc (zip_with (fun ker xrow => dot ker (window t xrow)) f xs) in
  let channel (o : nat) (f : list (list Qc)) : list Qc :=
    map (fun t =>
           match conv_bias c with
           | Some b => (at_ f t + nth o (data (value b)) 0)%Qc
           | None => at_ f t
           end) (seq 0 l_out) in
  concat (imap channel filters).

(** [Conv1d.forward] on one sample [(C, L)] or on a batch [(N, C, L)]. *)
Definition Conv1d_forward (c : nn_Conv1d) (x : Tensor) : result Tensor :=
  match shape (value (conv_weight c)) with
  | [co; ci; k] =>
      match shape x with
      | [xc; len] =>
          if xc =? ci then
            l_out ← conv1d_length c k len;
            Ok (mkTensor [co; l_out] (conv1d_sample c co ci k len l_out (data x)))
          else Raise RuntimeError
      | [n; xc; len] =>
          if xc =? ci then
            l_out ← conv1d_length c k len;
            Ok (mkTensor [n; co; l_out]
                  (concat (map (conv1d_sample c co ci k len l_out)
                               (rows n (xc * len) (data x)))))
          else Raise RuntimeError
      | _ => Raise RuntimeError
      end
  | _ => Raise RuntimeError
  end.

Inductive Layer : Type :=
| LinearLayer (l : nn_Linear)
| Conv1dLayer (c : nn_Conv1d).

(** The [forward] of the layer's class. *)
Definition Layer_forward (m : Layer) (x : Tensor) : result Tensor :=
  match m with
  | LinearLayer l => Linear_forward l x
  | Conv1dLayer c => Conv1d_forward c x
  end.

Definition Layer_weight (m : Layer) : nn_Parameter :=
  match m with
  | LinearLayer l => weight l
  | Conv1dLayer c => conv_weight c
  end.

Definition Layer_set_weight (m : Layer) (p : nn_Parameter) : Layer :=
  match m with
  | LinearLayer l => LinearLayer (mkLinear (in_features l) (out_features l) p (bias l))
  | Conv1dLayer c =>
      Conv1dLayer (mkConv1d (in_channels c) (out_channels c) (kernel_size c)
                     (stride c) (padding c) (dilation c) p (conv_bias c))
  end.

(** [torch.nn.functional.dropout(lx, p)]: [keep i] says whether the [i]-th
    element survives this call; survivors are scaled by [1/(1-p)]. *)
Definition F_dropout (lx : Tensor) (p : Qc) (keep : nat -> bool) : result Tensor :=
  if Qc_ltb p 0 || Qc_ltb 1 p then Raise ValueError
  else Ok (mkTensor (shape lx)
             (imap (fun i v => if keep i then (v / (1 - p))%Qc else 0%Qc) (data lx))).

(** ** modules.py: [LoRAWModule], [LoRAWLinear], [LoRAWConv1d] *)

(** A Linear or Conv1d object of the host graph: its identity and what
    its class computes. *)
Record HostLayer : Type := mkHostLayer { obj_id : nat; obj_layer : Layer }.

(** An attribute that may not (or no longer) be set on the object. *)
Definition attr {A} (o : option A) : result A :=
  match o with
  | Some a => Ok a
  | None => Raise AttributeError
  end.

Record LoRAWModule : Type :=
  mkLoRAWModule { lora_name : string;
                  lora_dim : Z;
                  multiplier : Qc;
                  original_module : option HostLayer;
                  original_forward : Tensor -> result Tensor;
                  dropout : option Qc;
                  module_dropout : option Qc;
                  scale : Qc;
                  training : bool;
                  lora_down : option Layer;
                  lora_up : option Layer }.

(** The random choices of one call of [forward]: the sample compared with
    [module_dropout], and which bottleneck elements dropout keeps. *)
Record Randomness : Type :=
  mkRandomness { module_draw : Qc; dropout_keep : nat -> bool }.

(** [LoRAWModule.__init__]; [alpha] is [None] or a number (one given as a
    tensor is turned into a number first). *)
Definition LoRAWModule_init (lora_name : string) (original_module : HostLayer)
    (multiplier : Qc) (lora_dim : Z) (alpha : option Qc)
    (dropout module_dropout : option Qc) : result LoRAWModule :=
  let alpha :=
    match alpha with
    | None => Z2Qc lora_dim
    | Some a => if Qc_eq_bool a 0 then Z2Qc lora_dim else a
    end in
  if (lora_dim =? 0)%Z then Raise ZeroDivisionError
  else
    Ok {| lora_name := lora_name;
          lora_dim := lora_dim;
          multiplier := multiplier;
          original_module := Some original_module;
          original_forward := Layer_forward (obj_layer original_module);
          dropout := dropout;
          module_dropout := module_dropout;
          scale := (alpha / Z2Qc lora_dim)%Qc;
          training := true;
          lora_down := None;
          lora_up := None |}.

Definition with_projections (self : LoRAWModule) (down up : Layer) : LoRAWModule :=
  {| lora_name := lora_name self;
     lora_dim := lora_dim self;
     multiplier := multiplier self;
     original_module := original_module self;
     original_forward := original_forward self;
     dropout := dropout self;
     module_dropout := module_dropout self;
     scale := scale self;
     training := training self;
     lora_down := Some down;
     lora_up := Some up |}.

(** [LoRAWModule.forward] *)
Definition forward (self : LoRAWModule) (rnd : Randomness) (x : Tensor)
  : result Tensor :=
  let skip :=
    match module_dropout self with
    | Some p => training self && Qc_ltb (module_draw rnd) p
    | None => false
    end in
  if skip then original_forward self x
  else
    down ← attr (lora_down self);
    lx ← Layer_forward down x;
    lx ← match dropout self with
         | Some p => if training self then F_dropout lx p (dropout_keep rnd)
                     else Ok lx
         | None => Ok lx
         end;
    up ← attr (lora_up self);
    lx ← Layer_forward up lx;
    y ← original_forward self x;
    tensor_add y (tensor_scale (tensor_scale lx (scale self)) (multiplier self)).

(** [LoRAWLinear.__init__] *)
Definition LoRAWLinear_init (lora_name : string) (original_module : HostLayer)
    (multiplier : Qc) (lora_dim : Z) (alpha : option Qc)
    (dropout module_dropout : option Qc) (rng : Draws) : result LoRAWModule :=
  self ← LoRAWModule_init lora_name original_module multiplier lora_dim alpha
           dropout module_dropout;
  '(in_dim, out_dim) ←
    match obj_layer original_module with
    | LinearLayer l => Ok (in_features l, out_features l)
    | Conv1dLayer _ => Raise AttributeError
    end;
  down ← nn_Linear_new (Z.of_nat in_dim) (lora_dim) rng;
  up ← nn_Linear_new (lora_dim) (Z.of_nat out_dim) rng;
  Ok (with_projections self
        (Layer_set_weight (LinearLayer down) (kaiming_uniform_ (weight down) rng))
        (Layer_set_weight (LinearLayer up) (zeros_ (weight up)))).

(** [LoRAWConv1d.__init__] *)
Definition LoRAWConv1d_init (lora_name : string) (original_module : HostLayer)
    (multiplier : Qc) (lora_dim : Z) (alpha : option Qc)
    (dropout module_dropout : option Qc) (rng : Draws) : result LoRAWModule :=
  self ← LoRAWModule_init lora_name original_module multiplier lora_dim alpha
           dropout module_dropout;
  '(in_dim, out_dim, kernel_size, stride, padding) ←
    match obj_layer original_module with
    | Conv1dLayer c =>
        Ok (in_channels c, out_channels c, kernel_size c, stride c, padding c)
    | LinearLayer _ => Raise AttributeError
    end;
  down ← nn_Conv1d_new (Z.of_nat in_dim) lora_dim kernel_size stride padding rng;
  up ← nn_Conv1d_new lora_dim (Z.of_nat out_dim) 1 1 0 rng;
  Ok (with_projections self
        (Layer_set_weight (Conv1dLayer down) (kaiming_uniform_ (conv_weight down) rng))
        (Layer_set_weight (Conv1dLayer up) (zeros_ (conv_weight up)))).

(** Keyword arguments of the constructors: a field left [None] was not
    supplied, and the signature's default applies. *)
Record kwargs : Type :=
  mkKwargs { kw_multiplier : option Qc;
             kw_lora_dim : option Z;
             kw_alpha : option (option Qc);
             kw_dropout : option (option Qc);
             kw_module_dropout : option (option Qc) }.

Definition no_kwargs : kwargs := mkKwargs None None None None None.

(** The signature shared by the three constructors:
    [multiplier=1.0, lora_dim=16, alpha=1.0, dropout=None, module_dropout=None]. *)
Definition with_defaults {R}
    (init : Qc -> Z -> option Qc -> option Qc -> option Qc -> R) (kw : kwargs) : R :=
  init (default 1%Qc (kw_multiplier kw))
       (default 16%Z (kw_lora_dim kw))
       (default (Some 1%Qc) (kw_alpha kw))
       (default None (kw_dropout kw))
       (default None (kw_module_dropout kw)).

Definition LoRAWModule_new (lora_name : string) (original_module : HostLayer)
    (kw : kwargs) : result LoRAWModule :=
  with_defaults (LoRAWModule_init lora_name original_module) kw.

Definition LoRAWLinear_new (lora_name : string) (original_module : HostLayer)
    (kw : kwargs) (rng : Draws) : result LoRAWModule :=
  with_defaults (LoRAWLinear_init lora_name original_module) kw rng.

Definition LoRAWConv1d_new (lora_name : string) (original_module : HostLayer)
    (kw : kwargs) (rng : Draws) : result LoRAWModule :=
  with_defaults (LoRAWConv1d_init lora_name original_module) kw rng.

(** ** The host graph as injection changes it

    Injection writes into objects of the host graph, which the scan's
    result and the adapters refer to.  The objects are kept by identity:
    the child table of every module, the layer behind every Linear or
    Conv1d object, and the instance attribute [forward] where one was
    assigned.  An adapter placed in the graph is referred to by its name
    in the network's [lora_modules]. *)

Inductive Slot : Type :=
| SlotModule (m : Module)
| SlotLoRAW (name : string).

Record Host : Type :=
  mkHost { tables : gmap nat (Py.dict Slot);
           layers : gmap nat Layer;
           forward_attr : gmap nat string }.

Definition table_of (host : Host) (id : nat) : Py.dict Slot :=
  default [] (tables host !! id).

(** The graph as built, before any injection. *)
Definition host_of (model : Module) (layers : gmap nat Layer) : Host :=
  mkHost
    (list_to_map
       (map (fun nm => (module_id (snd nm),
                        map (fun kc => (fst kc, SlotModule (snd kc)))
                            (_modules (snd nm))))
            (named_modules model)))
    layers ∅.

(** [LoRAWModule.inject] *)
Definition inject (self : LoRAWModule) (parent_module : Module) (host : Host) : Host :=
  let key := Py.last_segment (Py.split "/" (lora_name self)) in
  mkHost
    (<[ module_id parent_module :=
        Py.set (table_of host (module_id parent_module)) key
               (SlotLoRAW (lora_name self)) ]> (tables host))
    (layers host) (forward_attr host).

(** [LoRAWModule.inject_forward] *)
Definition inject_forward (self : LoRAWModule) (host : Host)
  : result (LoRAWModule * Host) :=
  orig ← attr (original_module self);
  Ok ({| lora_name := lora_name self;
         lora_dim := lora_dim self;
         multiplier := multiplier self;
         original_module := None;
         original_forward := original_forward self;
         dropout := dropout self;
         module_dropout := module_dropout self;
         scale := scale self;
         training := training self;
         lora_down := lora_down self;
         lora_up := lora_up self |},
      mkHost (tables host) (layers host)
             (<[ obj_id orig := lora_name self ]> (forward_attr host))).

(** Calling into the graph.  [module(x)] runs the instance's [forward] if
    one was assigned, the class's otherwise; a parent reaches a child
    through its table. *)
Definition call_lora (lora_modules : Py.dict LoRAWModule) (rnd : Randomness)
    (name : string) (x : Tensor) : result Tensor :=
  self ← Py.item lora_modules name;
  forward self rnd x.

Definition call_module (host : Host) (lora_modules : Py.dict LoRAWModule)
    (rnd : Randomness) (id : nat) (x : Tensor) : result Tensor :=
  match forward_attr host !! id with
  | Some name => call_lora lora_modules rnd name x
  | None => l ← attr (layers host !! id); Layer_forward l x
  end.

Definition call_child (host : Host) (lora_modules : Py.dict LoRAWModule)
    (rnd : Randomness) (parent : nat) (key : string) (x : Tensor) : result Tensor :=
  slot ← attr (Py.get (table_of host parent) key);
  match slot with
  | SlotModule m => call_module host lora_modules rnd (module_id m) x
  | SlotLoRAW name => call_lora lora_modules rnd name x
  end.

(** ** network.py: [LoRAWNetwork] *)

Record LoRAWNetwork : Type :=
  mkNetwork { active : bool;
              net_multiplier : Qc;
              net_lora_dim : Z;
              net_alpha : option Qc;
              net_dropout : option Qc;
              net_module_dropout : option Qc;
              lora_modules : Py.dict LoRAWModule;
              device : string }.

Definition with_lora_modules (self : LoRAWNetwork) (mods : Py.dict LoRAWModule)
  : LoRAWNetwork :=
  mkNetwork (active self) (net_multiplier self) (net_lora_dim self) (net_alpha self)
    (net_dropout self) (net_module_dropout self) mods (device self).

Definition with_active (self : LoRAWNetwork) (b : bool) : LoRAWNetwork :=
  mkNetwork b (net_multiplier self) (net_lora_dim self) (net_alpha self)
    (net_dropout self) (net_module_dropout self) (lora_modules self) (device self).

(** [TargetableModules[name].value(...)]: the constructor the enum member
    stands for.  [layers] gives the Linear and Conv1d objects of the host
    graph; an object of either name that carries no such layer lacks the
    attributes the constructors read. *)
Definition construct (layers : gmap nat Layer) (name : string) (module : Module)
    (multiplier : Qc) (lora_dim : Z) (alpha dropout module_dropout : option Qc)
    (rng : Draws) : result LoRAWModule :=
  match TargetableModules_lookup (class_name module) with
  | None => Raise KeyError
  | Some member =>
      layer ← attr (layers !! module_id module);
      let original := mkHostLayer (module_id module) layer in
      match member with
      | Linear =>
          LoRAWLinear_init name original multiplier lora_dim alpha dropout
            module_dropout rng
      | Conv1d =>
          LoRAWConv1d_init name original multiplier lora_dim alpha dropout
            module_dropout rng
      end
  end.

(** [LoRAWNetwork.__init__]; [rng name] is what the initialisation of the
    adapter [name] draws. *)
Definition LoRAWNetwork_init (target_map : Py.dict target_info)
    (layers : gmap nat Layer) (multiplier : Qc) (lora_dim : Z)
    (alpha dropout module_dropout : option Qc) (rng : string -> Draws)
  : result LoRAWNetwork :=
  mods ← for_each
           (fun (mods : Py.dict LoRAWModule) (item : string * target_info) =>
              let '(name, info) := item in
              m ← construct layers name (info_module info) multiplier lora_dim
                    alpha dropout module_dropout (rng name);
              Ok (Py.set mods name m))
           target_map [];
  Ok (mkNetwork false multiplier lora_dim alpha dropout module_dropout mods "cpu").

(** A loop over a list whose body changes a state and may raise; the
    state at the exception is the one the caller is left with. *)
Fixpoint for_each_st {S A} (body : A -> S -> result unit * S) (items : list A)
    (s : S) : result unit * S :=
  match items with
  | [] => (Ok tt, s)
  | a :: rest =>
      match body a s with
      | (Ok _, s') => for_each_st body rest s'
      | (Raise e, s') => (Raise e, s')
      end
  end.

(** [LoRAWNetwork.activate] *)
Definition LoRAWNetwork_activate (target_map : Py.dict target_info)
    (s : LoRAWNetwork * Host) : result unit * (LoRAWNetwork * Host) :=
  let '(self, host) := s in
  match for_each_st
          (fun (item : string * LoRAWModule) (host : Host) =>
             let '(name, module) := item in
             match Py.item target_map name with
             | Ok info => (Ok tt, inject module (info_parent info) host)
             | Raise e => (Raise e, host)
             end)
          (lora_modules self) host with
  | (Ok _, host) => (Ok tt, (with_active self true, host))
  | (Raise e, host) => (Raise e, (self, host))
  end.

(** [LoRAWNetwork.activate_forward] *)
Definition LoRAWNetwork_activate_forward (s : LoRAWNetwork * Host)
  : result unit * (LoRAWNetwork * Host) :=
  match for_each_st
          (fun (item : string * LoRAWModule) (s : LoRAWNetwork * Host) =>
             let '(name, module) := item in
             let '(self, host) := s in
             match inject_forward module host with
             | Ok (module, host) =>
                 (Ok tt, (with_lora_modules self (Py.set (lora_modules self) name module),
                          host))
             | Raise e => (Raise e, s)
             end)
          (lora_modules (fst s)) s with
  | (Ok _, (self, host)) => (Ok tt, (with_active self true, host))
  | (Raise e, s) => (Raise e, s)
  end.

Definition set_module_multiplier (m : Qc) (self : LoRAWModule) : LoRAWModule :=
  {| lora_name := lora_name self;
     lora_dim := lora_dim self;
     multiplier := m;
     original_module := original_module self;
     original_forward := original_forward self;
     dropout := dropout self;
     module_dropout := module_dropout self;
     scale := scale self;
     training := training self;
     lora_down := lora_down self;
     lora_up := lora_up self |}.

(** [LoRAWNetwork.set_multiplier] *)
Definition set_multiplier (self : LoRAWNetwork) (multiplier : Qc) : LoRAWNetwork :=
  mkNetwork (active self) multiplier (net_lora_dim self) (net_alpha self)
    (net_dropout self) (net_module_dropout self)
    (map (fun item => (fst item, set_module_multiplier multiplier (snd item)))
         (lora_modules self))
    (device self).

(** [Module.eval()] / [Module.train(mode)] on one adapter. *)
Definition set_training (mode : bool) (self : LoRAWModule) : LoRAWModule :=
  {| lora_name := lora_name self;
     lora_dim := lora_dim self;
     multiplier := multiplier self;
     original_module := original_module self;
     original_forward := original_forward self;
     dropout := dropout self;
     module_dropout := module_dropout self;
     scale := scale self;
     training := mode;
     lora_down := lora_down self;
     lora_up := lora_up self |}.

(** ** network.py: [LoRAWWrapper] *)

Record LoRAWWrapper : Type :=
  mkWrapper { target_model : Host;
              model_type : option string;
              target_blocks : list string;
              component_whitelist : option (list string);
              is_active : bool;
              is_trainable : bool;
              target_map : Py.dict target_info;
              net : LoRAWNetwork;
              lr : option Qc }.

Definition with_net (self : LoRAWWrapper) (n : LoRAWNetwork) : LoRAWWrapper :=
  mkWrapper (target_model self) (model_type self) (target_blocks self)
    (component_whitelist self) (is_active self) (is_trainable self)
    (target_map self) n (lr self).

(** [LoRAWWrapper.__init__].  The scan and the network are built from the
    graph as it stands; [residual_modules] is the view defined next. *)
Definition LoRAWWrapper_init (model : Module) (layers : gmap nat Layer)
    (model_type : option string) (target_blocks : list string)
    (component_whitelist : option (list string)) (multiplier : Qc) (lora_dim : Z)
    (alpha dropout module_dropout : option Qc) (rng : string -> Draws)
  : result LoRAWWrapper :=
  target_map ← scan_model model target_blocks component_whitelist None;
  net ← LoRAWNetwork_init target_map layers multiplier lora_dim alpha dropout
          module_dropout rng;
  _ ← for_each (fun (_ : unit) (item : string * LoRAWModule) =>
                  _ ← attr (lora_down (snd item));
                  _ ← attr (lora_up (snd item));
                  Ok tt)
               (lora_modules net) tt;
  Ok (mkWrapper (host_of model layers) model_type target_blocks component_whitelist
        false false target_map net None).

(** [self.residual_modules]: the [ModuleDict] filled by the constructor
    with the two projections of every adapter, under [name/lora_down] and
    [name/lora_up].  Its values are the adapters' own layer objects, so it
    is a view of [lora_modules], not a copy. *)
Definition projections (item : string * LoRAWModule) : Py.dict Layer :=
  let '(name, module) := item in
  match lora_down module with
  | Some l => [(name +:+ "/lora_down", l)]
  | None => []
  end ++
  match lora_up module with
  | Some l => [(name +:+ "/lora_up", l)]
  | None => []
  end.

Definition residual_modules (self : LoRAWWrapper) : Py.dict Layer :=
  flat_map projections (lora_modules (net self)).

Definition Layer_bias (m : Layer) : option nn_Parameter :=
  match m with
  | LinearLayer l => bias l
  | Conv1dLayer c => conv_bias c
  end.

Definition Layer_set_bias (m : Layer) (p : nn_Parameter) : Layer :=
  match m with
  | LinearLayer l =>
      LinearLayer (mkLinear (in_features l) (out_features l) (weight l) (Some p))
  | Conv1dLayer c =>
      Conv1dLayer (mkConv1d (in_channels c) (out_channels c) (kernel_size c)
                     (stride c) (padding c) (dilation c) (conv_weight c) (Some p))
  end.

(** The parameters of a layer stored under [key] in a [ModuleDict], with
    the names [state_dict()] and [named_parameters()] give them. *)
Definition Layer_parameters (item : string * Layer) : Py.dict nn_Parameter :=
  let '(key, m) := item in
  (key +:+ ".weight", Layer_weight m) ::
  match Layer_bias m with
  | Some b => [(key +:+ ".bias", b)]
  | None => []
  end.

(** The parameters one adapter contributes. *)
Definition module_parameters (item : string * LoRAWModule) : Py.dict nn_Parameter :=
  flat_map Layer_parameters (projections item).

Definition named_parameters (self : LoRAWWrapper) : Py.dict nn_Parameter :=
  flat_map Layer_parameters (residual_modules self).

(** A tensor outside the graph: in a [state_dict()] or in a saved file. *)
Record Stored : Type := mkStored { stored_dtype : DType; stored_value : Tensor }.

Definition detach (p : nn_Parameter) : Stored := mkStored (dtype p) (value p).

(** [self.residual_modules.state_dict()]: the tensors share their
    elements with the parameters. *)
Definition state_dict (self : LoRAWWrapper) : Py.dict Stored :=
  map (fun kp => (fst kp, detach (snd kp))) (named_parameters self).

(** Writing through a tensor of [state_dict()] reaches the parameter of
    the adapter that owns it: the first layer, in dict order, with a
    parameter of that name. *)
Definition Layer_update (prefix key : string) (f : nn_Parameter -> nn_Parameter)
    (m : Layer) : option Layer :=
  if String.eqb (prefix +:+ ".weight") key
  then Some (Layer_set_weight m (f (Layer_weight m)))
  else match Layer_bias m with
       | Some b => if String.eqb (prefix +:+ ".bias") key
                   then Some (Layer_set_bias m (f b)) else None
       | None => None
       end.

Definition with_lora_down (self : LoRAWModule) (l : Layer) : LoRAWModule :=
  {| lora_name := lora_name self;
     lora_dim := lora_dim self;
     multiplier := multiplier self;
     original_module := original_module self;
     original_forward := original_forward self;
     dropout := dropout self;
     module_dropout := module_dropout self;
     scale := scale self;
     training := training self;
     lora_down := Some l;
     lora_up := lora_up self |}.

Definition with_lora_up (self : LoRAWModule) (l : Layer) : LoRAWModule :=
  {| lora_name := lora_name self;
     lora_dim := lora_dim self;
     multiplier := multiplier self;
     original_module := original_module self;
     original_forward := original_forward self;
     dropout := dropout self;
     module_dropout := module_dropout self;
     scale := scale self;
     training := training self;
     lora_down := lora_down self;
     lora_up := Some l |}.

Definition LoRAW_update (name key : string) (f : nn_Parameter -> nn_Parameter)
    (module : LoRAWModule) : option LoRAWModule :=
  match lora_down module ≫= Layer_update (name +:+ "/lora_down") key f with
  | Some l => Some (with_lora_down module l)
  | None =>
      match lora_up module ≫= Layer_update (name +:+ "/lora_up") key f with
      | Some l => Some (with_lora_up module l)
      | None => None
      end
  end.

Fixpoint update_first (key : string) (f : nn_Parameter -> nn_Parameter)
    (mods : Py.dict LoRAWModule) : Py.dict LoRAWModule :=
  match mods with
  | [] => []
  | (name, module) :: rest =>
      match LoRAW_update name key f module with
      | Some module' => (name, module') :: rest
      | None => (name, module) :: update_first key f rest
      end
  end.

Definition update_parameter (key : string) (f : nn_Parameter -> nn_Parameter)
    (self : LoRAWWrapper) : LoRAWWrapper :=
  with_net self
    (with_lora_modules (net self) (update_first key f (lora_modules (net self)))).

(** What [copy_] leaves in a parameter: new elements, same dtype and flags. *)
Definition set_value (v : Tensor) (p : nn_Parameter) : nn_Parameter :=
  mkParameter (dtype p) (requires_grad p) v.

Definition set_requires_grad (b : bool) (p : nn_Parameter) : nn_Parameter :=
  mkParameter (dtype p) b (value p).

(** Files written by [torch.save] and read by [torch.load]. *)
Abbreviation Files := (gmap string (Py.dict Stored)).

Definition torch_load (fs : Files) (path : string) : result (Py.dict Stored) :=
  match fs !! path with
  | Some weights => Ok weights
  | None => Raise FileNotFoundError
  end.

(** [LoRAWWrapper.activate] *)
Definition activate (self : LoRAWWrapper) : result unit * LoRAWWrapper :=
  if is_active self then (Raise AssertionError, self)
  else
    let '(r, (n, host)) :=
      LoRAWNetwork_activate (target_map self) (net self, target_model self) in
    let self :=
      mkWrapper host (model_type self) (target_blocks self)
        (component_whitelist self) (is_active self) (is_trainable self)
        (target_map self) n (lr self) in
    match r with
    | Ok _ =>
        (Ok tt,
         mkWrapper (target_model self) (model_type self) (target_blocks self)
           (component_whitelist self) true (is_trainable self)
           (target_map self) (net self) (lr self))
    | Raise e => (Raise e, self)
    end.


(** [LoRAWWrapper.save_weights]: [dtype] defaults to [torch.float16]. *)
Definition save_weights (self : LoRAWWrapper) (path : string) (dtype : DType)
    (fs : Files) : Files :=
  <[ path := state_dict self ]> fs.

Definition save_weights_default (self : LoRAWWrapper) (path : string) (fs : Files)
  : Files :=
  save_weights self path float16 fs.

(** [Module.load_state_dict(weights, strict)] on [residual_modules]: every
    own key found in [weights] with the same shape is copied; a different
    shape is an error raised once all keys were visited, whatever
    [strict]; missing and unexpected keys are an error only if [strict].
    The parameters here have two or three axes, so torch's special case
    for parameters without axes is left out. *)
Record IncompatibleKeys : Type :=
  mkIncompatibleKeys { missing_keys : list string; unexpected_keys : list string }.

Definition load_key (weights : Py.dict Stored) (own : string * nn_Parameter)
    (acc : LoRAWWrapper * list string * bool) : LoRAWWrapper * list string * bool :=
  let '(self, missing, mismatch) := acc in
  let '(key, param) := own in
  match Py.get weights key with
  | Some input =>
      if decide (shape (stored_value input) = shape (value param))
      then (update_parameter key (set_value (stored_value input)) self,
            missing, mismatch)
      else (self, missing, true)
  | None => (self, missing ++ [key], mismatch)
  end.

Definition load_state_dict (self : LoRAWWrapper) (weights : Py.dict Stored)
    (strict : bool) : result IncompatibleKeys * LoRAWWrapper :=
  let own := named_parameters self in
  let '(self, missing, mismatch) :=
    fold_left (fun acc o => load_key weights o acc) own (self, [], false) in
  let unexpected :=
    filter (fun k => Py.get own k = None) (Py.keys weights) in
  if mismatch then (Raise RuntimeError, self)
  else if strict && negb (bool_decide (missing = []) && bool_decide (unexpected = []))
  then (Raise RuntimeError, self)
  else (Ok (mkIncompatibleKeys missing unexpected), self).

(** [LoRAWWrapper.load_weights] *)
Definition load_weights (self : LoRAWWrapper) (path : string) (fs : Files)
  : result IncompatibleKeys * LoRAWWrapper :=
  match torch_load fs path with
  | Raise e => (Raise e, self)
  | Ok weights => load_state_dict self weights false
  end.

(** The body of the loop of [merge_weights]. *)
Definition merge_key (multiplier : Qc) (item : string * Stored)
    (self : LoRAWWrapper) : result unit * LoRAWWrapper :=
  let '(name, weight) := item in
  match Py.item (state_dict self) name with
  | Raise e => (Raise e, self)
  | Ok param =>
      match (sum ← tensor_add (stored_value param)
                              (tensor_scale (stored_value weight) multiplier);
             tensor_copy_ (stored_value param) sum) with
      | Ok v => (Ok tt, update_parameter name (set_value v) self)
      | Raise e => (Raise e, self)
      end
  end.

(** [LoRAWWrapper.merge_weights] *)
Definition merge_weights (self : LoRAWWrapper) (path : string) (multiplier : Qc)
    (fs : Files) : result unit * LoRAWWrapper :=
  match torch_load fs path with
  | Raise e => (Raise e, self)
  | Ok weights => for_each_st (merge_key multiplier) weights self
  end.

(** *** Preparing for training

    The trainer is the caller's object; [EMA_MODEL] and [trim_ema] come
    from [attributes.py] and [util.py] and are taken as given. *)

Inductive optimizers_hook : Set :=
| trainer_configure_optimizers
| loraw_configure_optimizers.

Definition Layer_map_parameters (f : nn_Parameter -> nn_Parameter) (m : Layer) : Layer :=
  match m with
  | LinearLayer l =>
      LinearLayer (mkLinear (in_features l) (out_features l) (f (weight l))
                     (f <$> bias l))
  | Conv1dLayer c =>
      Conv1dLayer (mkConv1d (in_channels c) (out_channels c) (kernel_size c)
                     (stride c) (padding c) (dilation c) (f (conv_weight c))
                     (f <$> conv_bias c))
  end.

Definition map_projections (f : Layer -> Layer) (self : LoRAWModule) : LoRAWModule :=
  {| lora_name := lora_name self;
     lora_dim := lora_dim self;
     multiplier := multiplier self;
     original_module := original_module self;
     original_forward := original_forward self;
     dropout := dropout self;
     module_dropout := module_dropout self;
     scale := scale self;
     training := training self;
     lora_down := f <$> lora_down self;
     lora_up := f <$> lora_up self |}.

Section Training.

Variable Ema : Type.
Variable EMA_MODEL : Py.dict string.
Variable trim_ema : Ema -> Ema.

Record Trainer : Type :=
  mkTrainer { trainer_device : string;
              trainer_lr : Qc;
              trainer_optimizers : optimizers_hook;
              trainer_attrs : Py.dict Ema }.

(** [LoRAWWrapper.prepare_for_training].  The loop over the target
    model's parameters also meets the adapters that [activate] placed
    in the graph; the loop after it turns their gradients on again. *)
Definition prepare_for_training (self : LoRAWWrapper) (training_wrapper : Trainer)
    (lr : option Qc) : result unit * (LoRAWWrapper * Trainer) :=
  if negb (is_active self) then (Raise AssertionError, (self, training_wrapper))
  else
    let host := target_model self in
    let host :=
      mkHost (tables host)
             (Layer_map_parameters (set_requires_grad false) <$> layers host)
             (forward_attr host) in
    let mods :=
      map (fun item =>
             (fst item,
              map_projections (Layer_map_parameters (set_requires_grad true))
                              (snd item)))
          (lora_modules (net self)) in
    let n :=
      mkNetwork (active (net self)) (net_multiplier (net self))
        (net_lora_dim (net self)) (net_alpha (net self)) (net_dropout (net self))
        (net_module_dropout (net self)) mods (trainer_device training_wrapper) in
    let lr :=
      match lr with
      | None => trainer_lr training_wrapper
      | Some v => v
      end in
    let training_wrapper :=
      mkTrainer (trainer_device training_wrapper) (trainer_lr training_wrapper)
        loraw_configure_optimizers (trainer_attrs training_wrapper) in
    let prepared (trainable : bool) : LoRAWWrapper :=
      mkWrapper host (model_type self) (target_blocks self)
        (component_whitelist self) (is_active self) trainable
        (target_map self) n (Some lr) in
    match model_type self ≫= Py.get EMA_MODEL with
    | Some attribute =>
        match Py.get (trainer_attrs training_wrapper) attribute with
        | Some ema =>
            (Ok tt,
             (prepared true,
              mkTrainer (trainer_device training_wrapper)
                (trainer_lr training_wrapper)
                (trainer_optimizers training_wrapper)
                (Py.set (trainer_attrs training_wrapper) attribute (trim_ema ema))))
        | None => (Raise AttributeError, (prepared (is_trainable self), training_wrapper))
        end
    | None => (Ok tt, (prepared true, training_wrapper))
    end.

End Training.

Arguments mkTrainer {Ema}.
Arguments trainer_device {Ema}.
Arguments trainer_lr {Ema}.
Arguments trainer_optimizers {Ema}.
Arguments trainer_attrs {Ema}.
Arguments prepare_for_training {Ema}.

(** ** Notions for the properties of the scanner *)

Definition targetable (m : Module) : bool :=
  bool_decide (class_name m ∈ TargetableModules_members).

(** The target descendants the scan selects, in the order it visits them,
    each with the id it is stored under. *)
Definition selected_decendants (target_blocks : gset string)
    (whitelist blacklist : option (gset string)) (model : Module)
  : list (string * Module) :=
  flat_map
    (fun a =>
       if block_selected target_blocks whitelist blacklist (fst a) (snd a)
       then map (fun d => (qualified_id (fst a) (fst d), snd d))
                (filter (fun d => targetable (snd d) = true) (named_modules (snd a)))
       else [])
    (named_modules model).

(** The selection of an ancestor block in the words of the specification:
    its type name is among the target blocks; with a whitelist, some token
    of its dotted path is whitelisted; with a blacklist, no token is
    blacklisted. *)
Definition spec_selected (target_blocks : list string)
    (whitelist blacklist : option (list string))
    (ancestor_name : string) (ancestor_module : Module) : Prop :=
  class_name ancestor_module ∈ target_blocks
  ∧ (∀ wl, whitelist = Some wl →
       ∃ token, token ∈ Py.split "." ancestor_name ∧ token ∈ wl)
  ∧ (∀ bl, blacklist = Some bl →
       ∀ token, token ∈ Py.split "." ancestor_name → token ∉ bl).

(** The module whose child table directly holds [child]. *)
Definition holds_directly (parent child : Module) : Prop :=
  ∃ key, Py.get (_modules parent) key = Some child.

(** One assignment [module_map[id] = info] of the scan, and what it says
    about the module alone. *)
Definition assign (m : Py.dict target_info) (w : string * target_info)
  : Py.dict target_info :=
  Py.set m (fst w) (snd w).

Definition strip (w : string * target_info) : string * Module :=
  (fst w, info_module (snd w)).

(** *** Graphs used as test inputs *)

Definition linear_module (id : nat) : Module := mkModule id "Linear" [].

(** An attention block with a nested Linear ([a.x]) before a direct one ([z]). *)
Definition nested_then_direct_a : Module :=
  mkModule 2 "Sequential" [("x", linear_module 3)].

Definition nested_then_direct_block : Module :=
  mkModule 1 "Attention" [("a", nested_then_direct_a); ("z", linear_module 4)].

Definition nested_then_direct : Module :=
  mkModule 0 "Model" [("blk", nested_then_direct_block)].

(** An attention block with two containers, each holding a Linear. *)
Definition two_containers : Module :=
  mkModule 0 "Model"
    [("blk", mkModule 1 "Attention"
               [("a", mkModule 2 "Sequential" [("x", linear_module 3)]);
                ("b", mkModule 4 "Sequential" [("y", linear_module 5)])])].

(** A child named [a/b] next to a container [a] with a child [b]: both
    Linear layers get the id [blk/a/b]. *)
Definition colliding_a : Module :=
  mkModule 3 "Sequential" [("b", linear_module 4)].

Definition colliding : Module :=
  mkModule 0 "Model"
    [("blk", mkModule 1 "Attention"
               [("a/b", linear_module 2); ("a", colliding_a)])].

(** The usual case: an attention block with two projections and a norm. *)
Definition attention_block : Module :=
  mkModule 1 "Attention"
    [("to_q", linear_module 2); ("to_out", linear_module 3);
     ("norm", mkModule 4 "LayerNorm" [])].

Definition attention_model : Module :=
  mkModule 0 "Model" [("blk", attention_block)].

(** ** Notions for the properties of the adapters *)

(** The scale an adapter built from the keyword arguments [kw] has: 1 when
    [alpha] is given as [None] or as zero, [1/rank] when it is not given. *)
Definition scale_follows_alpha (kw : kwargs) (a : LoRAWModule) : Prop :=
  (kw_alpha kw = Some None ∨ kw_alpha kw = Some (Some 0%Qc) → scale a = 1%Qc)
  ∧ (kw_alpha kw = None →
     scale a = (1 / Z2Qc (default 16%Z (kw_lora_dim kw)))%Qc).

(** [output - base_output]: how far the adapter [name] moves the output
    of the module it wraps, on the input [x]. *)
Definition deviation (self : LoRAWNetwork) (rnd : Randomness) (name : string)
    (x : Tensor) : result Tensor :=
  y ← call_lora (lora_modules self) rnd name x;
  module ← Py.item (lora_modules self) name;
  base ← original_forward module x;
  tensor_sub y base.

(** A result with its elements as plain fractions, for reading. *)
Definition readable (r : result Tensor) : result (list nat * list Q) :=
  (fun t => (shape t, map this (data t))) <$> r.

(** *** Layers and adapters used as test inputs *)

Definition tensor_of (s : list nat) (l : list Z) : Tensor := mkTensor s (map Z2Qc l).

Definition parameter_of (s : list nat) (l : list Z) : nn_Parameter :=
  mkParameter float32 true (tensor_of s l).

Definition counting : Draws := fun i => Z2Qc (Z.of_nat i + 1).

Definition some_randomness : Randomness :=
  mkRandomness (Q2Qc (1 # 2)) Nat.even.

(** [nn.Linear(3, 2)] *)
Definition linear_3_2 : HostLayer :=
  mkHostLayer 2
    (LinearLayer (mkLinear 3 2 (parameter_of [2; 3] [1; 2; 3; 4; 5; 6]%Z)
                    (Some (parameter_of [2] [10; 20]%Z)))).

(** [nn.Conv1d(1, 1, kernel_size=2, dilation=2, bias=False)] *)
Definition dilated_conv : HostLayer :=
  mkHostLayer 2
    (Conv1dLayer (mkConv1d 1 1 2 1 0 2 (parameter_of [1; 1; 2] [1; 1]%Z) None)).

(** One channel of four samples. *)
Definition four_samples : Tensor := tensor_of [1; 4] [1; 2; 3; 4]%Z.

(** An adapter of rank 1 on [linear_3_2], in evaluation mode, with the
    weights some training left in it. *)
Definition tuned_adapter : LoRAWModule :=
  {| lora_name := "blk/to_q";
     lora_dim := 1;
     multiplier := 1;
     original_module := Some linear_3_2;
     original_forward := Layer_forward (obj_layer linear_3_2);
     dropout := Some (Q2Qc (1 # 2));
     module_dropout := Some (Q2Qc (1 # 4));
     scale := 1;
     training := false;
     lora_down := Some (LinearLayer (mkLinear 3 1 (parameter_of [1; 3] [1; 0; 2]%Z) None));
     lora_up := Some (LinearLayer (mkLinear 1 2 (parameter_of [2; 1] [3; 5]%Z) None)) |}.

Definition tuned_network : LoRAWNetwork :=
  mkNetwork true 1 1 (Some 1%Qc) (Some (Q2Qc (1 # 2))) (Some (Q2Qc (1 # 4)))
    [("blk/to_q", tuned_adapter)] "cpu".

Definition three_ones : Tensor := tensor_of [3] [1; 1; 1]%Z.

(** *** A wrapper and files used as test inputs *)

(** A wrapper around [attention_model] whose network is [tuned_network],
    not yet activated. *)
Definition tuned_wrapper : LoRAWWrapper :=
  mkWrapper (host_of attention_model {[ 2 := obj_layer linear_3_2 ]})
    None ["Attention"] None false false
    [("blk/to_q", mkInfo (linear_module 2) attention_block)]
    tuned_network None.

Definition stored_of (s : list nat) (l : list Z) : Stored :=
  mkStored float32 (tensor_of s l).

(** A saved adapter whose second tensor has three rows where the
    up-projection has two. *)
Definition mismatched_second : Py.dict Stored :=
  [("blk/to_q/lora_down.weight", stored_of [1; 3] [1; 1; 1]%Z);
   ("blk/to_q/lora_up.weight", stored_of [3; 1] [1; 1; 1]%Z)].

(** A saved adapter with the down-projection only, in half precision, and
    a key the wrapper does not have. *)
Definition down_only : Py.dict Stored :=
  [("blk/to_q/lora_down.weight", mkStored float16 (tensor_of [1; 3] [7; 8; 9]%Z));
   ("blk/to_kv/lora_down.weight", stored_of [1; 3] [1; 1; 1]%Z)].

(** What a test reads from a parameter. *)
Definition elements (p : option nn_Parameter) : option (DType * list nat * list Q) :=
  (fun p => (dtype p, shape (value p), map this (data (value p)))) <$> p.

Definition no_ema : Py.dict string := [].

Definition some_trainer : @Trainer unit :=
  mkTrainer "cuda" (Q2Qc (1 # 1000)) trainer_configure_optimizers [].

(** What torch guarantees of a [Linear]: the weight has a row per output
    feature and a column per input feature, the bias an element per
    output feature. *)
Definition wf_Linear (l : nn_Linear) : Prop :=
  shape (value (weight l)) = [out_features l; in_features l]
  ∧ match bias l with
    | Some b => length (data (value b)) = out_features l
    | None => True
    end.

(** How many elements expanding a tensor to its own shape keeps. *)
Definition kept (s : list nat) (l : list Qc) : nat :=
  match s with
  | [] => length l
  | _ :: _ => numel s
  end.

(** The view of the parameters once the own key [fst o] was visited by
    [load_state_dict]. *)
Definition loaded (weights : Py.dict Stored) (np : Py.dict nn_Parameter)
    (o : string * nn_Parameter) : Py.dict nn_Parameter :=
  match Py.get weights (fst o) with
  | Some input => Py.alter np (fst o) (set_value (stored_value input))
  | None => np
  end.

(** A probability, as [torch.nn.functional.dropout] requires. *)
Definition probability (p : Qc) : Prop := (0 <= p)%Qc ∧ (p <= 1)%Qc.
(** ** network.py: [create_loraw_from_config] *)

(** [config["loraw"]], read with [.get(key, None)]: a key that is absent
    and a key whose value is [None] are both [None] here. *)
Record loraw_config : Type :=
  mkLorawConfig { cfg_target_blocks : option (list string);
                  cfg_component_whitelist : option (list string);
                  cfg_multiplier : option Qc;
                  cfg_rank : option Z;
                  cfg_alpha : option Qc;
                  cfg_dropout : option Qc;
                  cfg_module_dropout : option Qc }.

(** [config], as far as it is read: the keys ["loraw"] and
    ["model_type"], [None] for a key that is absent. *)
Record config : Type :=
  mkConfig { cfg_loraw : option loraw_config;
             cfg_model_type : option (option string) }.

(** [d[key]] on the config. *)
Definition subscript {A} (o : option A) : result A :=
  match o with
  | Some a => Ok a
  | None => Raise KeyError
  end.

(** [v = d.get(key, None); assert v is not None] *)
Definition required {A} (o : option A) : result A :=
  match o with
  | Some a => Ok a
  | None => Raise AssertionError
  end.

(** [v = d.get(key, None); if v == 0: v = None] *)
Definition unless_zero (o : option Qc) : option Qc :=
  match o with
  | Some v => if Qc_eq_bool v 0 then None else Some v
  | None => None
  end.

Definition create_loraw_from_config (config : config) (model : Module)
    (layers : gmap nat Layer) (rng : string -> Draws) : result LoRAWWrapper :=
  loraw_config ← subscript (cfg_loraw config);
  model_type ← subscript (cfg_model_type config);
  target_blocks ← required (cfg_target_blocks loraw_config);
  component_whitelist ← required (cfg_component_whitelist loraw_config);
  multiplier ← required (cfg_multiplier loraw_config);
  rank ← required (cfg_rank loraw_config);
  alpha ← required (cfg_alpha loraw_config);
  let dropout := unless_zero (cfg_dropout loraw_config) in
  let module_dropout := unless_zero (cfg_module_dropout loraw_config) in
  LoRAWWrapper_init model layers model_type target_blocks (Some component_whitelist)
    multiplier rank (Some alpha) dropout module_dropout rng.


(** ** Further notions for the properties of the scanner *)

(** [c in s] for a character [c]. *)
Fixpoint str_contains (c : ascii) (s : string) : bool :=
  match s with
  | EmptyString => false
  | String c' rest => Ascii.eqb c' c || str_contains c rest
  end.

(** ** Further notions for the properties of the adapters *)




(** ** Further notions for the properties of the network *)

(** What a constructor leaves in the adapter [a] it builds for the host
    layer [original]: the arguments as attributes, training mode, and two
    projections without bias whose weights take gradients, the up weight
    being all zeros. *)
Definition built (name : string) (original : HostLayer) (mult : Qc) (rank : Z)
    (drop mdrop : option Qc) (a : LoRAWModule) : Prop :=
  lora_name a = name
  ∧ lora_dim a = rank
  ∧ multiplier a = mult
  ∧ original_module a = Some original
  ∧ original_forward a = Layer_forward (obj_layer original)
  ∧ dropout a = drop
  ∧ module_dropout a = mdrop
  ∧ training a = true
  ∧ ∃ d u, lora_down a = Some d ∧ lora_up a = Some u
      ∧ Layer_bias d = None ∧ Layer_bias u = None
      ∧ requires_grad (Layer_weight d) = true
      ∧ requires_grad (Layer_weight u) = true
      ∧ Forall (eq 0%Qc) (data (value (Layer_weight u))).

(** Where [inject] writes for the adapter stored under [name]: the table
    of the recorded parent, at the last segment of the name. *)
Definition slot_of (target_map : Py.dict target_info) (name : string)
  : option (nat * string) :=
  (fun info => (module_id (info_parent info),
                Py.last_segment (Py.split "/" name))) <$> Py.get target_map name.

(** The adapters of a network built from [target_map]: one per key, in
    the order of the keys, each built for the layer of the mapped module. *)
Definition built_from (target_map : Py.dict target_info) (layers : gmap nat Layer)
    (mult : Qc) (rank : Z) (drop mdrop : option Qc) (mods : Py.dict LoRAWModule)
  : Prop :=
  NoDup (Py.keys mods)
  ∧ (∀ name, name ∈ Py.keys mods ↔ name ∈ Py.keys target_map)
  ∧ (NoDup (Py.keys target_map) → Py.keys mods = Py.keys target_map)
  ∧ ∀ name a,
      Py.get mods name = Some a →
      ∃ info layer,
        (name, info) ∈ target_map
        ∧ layers !! module_id (info_module info) = Some layer
        ∧ built name (mkHostLayer (module_id (info_module info)) layer)
            mult rank drop mdrop a.

(** ** Further notions for the properties of the wrapper *)

(** The two entries that the adapter [fst e], with the down weight
    [fst (snd e)] and the up weight [snd (snd e)], has in
    [named_parameters()] and [state_dict()]. *)
Definition adapter_entries (e : string * (nn_Parameter * nn_Parameter))
  : Py.dict nn_Parameter :=
  [(fst e +:+ "/lora_down.weight", fst (snd e));
   (fst e +:+ "/lora_up.weight", snd (snd e))].

(** Both weights take gradients and the up weight is all zeros. *)
Definition initial_weights (p : nn_Parameter * nn_Parameter) : Prop :=
  requires_grad (fst p) = true
  ∧ requires_grad (snd p) = true
  ∧ Forall (eq 0%Qc) (data (value (snd p))).

(** [tuned_wrapper] after more training of its down projection. *)
Definition retuned_wrapper : LoRAWWrapper :=
  update_parameter "blk/to_q/lora_down.weight"
    (set_value (tensor_of [1; 3] [7; 8; 9]%Z)) tuned_wrapper.

(** [param + weight * multiplier] written into [param], for a [weight] of
    the parameter's shape. *)
Definition merged (multiplier : Qc) (weight : Stored) (param : nn_Parameter)
  : nn_Parameter :=
  set_value
    (mkTensor (shape (value param))
       (zip_with Qcplus (data (value param))
          (map (fun v => (v * multiplier)%Qc) (data (stored_value weight)))))
    param.

(** A config for [attention_model]: rank 2, [alpha] and [dropout] given as
    zero, [module_dropout] left out. *)
Definition attention_config : config :=
  mkConfig
    (Some (mkLorawConfig (Some ["Attention"]) (Some ["blk"]) (Some 1%Qc) (Some 2%Z)
             (Some 0%Qc) (Some 0%Qc) None))
    (Some None).

(** The same with an empty whitelist and rank 0. *)
Definition closed_config : config :=
  mkConfig
    (Some (mkLorawConfig (Some ["Attention"]) (Some []) (Some 1%Qc) (Some 0%Z)
             (Some 1%Qc) None None))
    (Some None).

(** The Linear layers of [attention_model]. *)
Definition attention_layers : gmap nat Layer :=
  {[ 2 := obj_layer linear_3_2; 3 := obj_layer linear_3_2 ]}.

(** ** Further notions for the whole pipeline *)

(** The pairs of a selected block and a targetable decendant of it that
    the scan visits, in visiting order, each with its name. *)
Definition targets (target_blocks : gset string)
    (whitelist blacklist : option (gset string)) (model : Module)
  : list ((string * Module) * (string * Module)) :=
  flat_map
    (fun a =>
       if block_selected target_blocks whitelist blacklist (fst a) (snd a)
       then map (fun d => (a, d))
                (filter (fun d => targetable (snd d) = true) (named_modules (snd a)))
       else [])
    (named_modules model).

(** The id the scan gives a target. *)
Definition target_id (t : (string * Module) * (string * Module)) : string :=
  qualified_id (fst (fst t)) (fst (snd t)).

(** The targets are children of their blocks with plain names (no ['.'],
    no ['/']), no two of them get the same id, and no block object is
    met under two names. *)
Definition plain_targets (ts : list ((string * Module) * (string * Module))) : Prop :=
  (∀ t, t ∈ ts → str_contains "." (fst (snd t)) = false
                 ∧ str_contains "/" (fst (snd t)) = false)
  ∧ NoDup (map target_id ts)
  ∧ ∀ t t', t ∈ ts → t' ∈ ts →
            module_id (snd (fst t)) = module_id (snd (fst t')) →
            fst (fst t) = fst (fst t').

(** What [load_state_dict] leaves in the parameter [param] of the key
    [key]: the tensor of the file when there is one of the parameter's
    shape, the parameter's own elements otherwise. *)
Definition fitted (weights : Py.dict Stored) (key : string) (param : nn_Parameter)
  : nn_Parameter :=
  match Py.get weights key with
  | Some input =>
      if decide (shape (stored_value input) = shape (value param))
      then set_value (stored_value input) param
      else param
  | None => param
  end.

(** [mismatched_second] with the first tensor changed. *)
Definition mismatched_file : Py.dict Stored :=
  [("blk/to_q/lora_down.weight", stored_of [1; 3] [7; 8; 9]%Z);
   ("blk/to_q/lora_up.weight", stored_of [3; 1] [1; 1; 1]%Z)].


(** * Properties *)

(** ** Python dicts *)

Section Dict.

Context {V : Type}.
Implicit Types (d : Py.dict V) (k : string) (v : V).

Lemma get_set_eq d k v : Py.get (Py.set d k v) k = Some v.
Proof.
  induction d as [|[k' v'] d IH]; simpl.
  - by rewrite String.eqb_refl.
  - destruct (String.eqb k' k) eqn:E; simpl; rewrite E; [done | apply IH].
Qed.

Lemma get_set_ne d k k' v : k ≠ k' → Py.get (Py.set d k v) k' = Py.get d k'.
Proof.
  intros Hne. induction d as [|[k0 v0] d IH]; simpl.
  - destruct (String.eqb k k') eqn:E; [|done].
    apply String.eqb_eq in E. contradiction.
  - destruct (String.eqb k0 k) eqn:E; simpl.
    + apply String.eqb_eq in E. subst k0.
      destruct (String.eqb k k') eqn:E'; [|done].
      apply String.eqb_eq in E'. contradiction.
    + by rewrite IH.
Qed.

Lemma get_set d k k' v :
  Py.get (Py.set d k v) k' = if String.eqb k k' then Some v else Py.get d k'.
Proof.
  destruct (String.eqb k k') eqn:E.
  - apply String.eqb_eq in E. subst. apply get_set_eq.
  - apply String.eqb_neq in E. by apply get_set_ne.
Qed.

Lemma get_app d1 d2 k :
  Py.get (d1 ++ d2) k =
  match Py.get d1 k with Some v => Some v | None => Py.get d2 k end.
Proof.
  induction d1 as [|[k' v'] d1 IH]; simpl; [done|].
  by destruct (String.eqb k' k).
Qed.

Lemma get_Some_elem_of d k v : Py.get d k = Some v → (k, v) ∈ d.
Proof.
  induction d as [|[k' v'] d IH]; simpl; [done|].
  destruct (String.eqb k' k) eqn:E.
  - apply String.eqb_eq in E. intros [= ->]. subst. left.
  - intros H. right. by apply IH.
Qed.

Lemma elem_of_get_is_Some d k v : (k, v) ∈ d → is_Some (Py.get d k).
Proof.
  induction d as [|[k' v'] d IH]; [by intros ?%elem_of_nil|].
  intros [[= <- <-]|Hin]%elem_of_cons; simpl.
  - rewrite String.eqb_refl. eauto.
  - destruct (String.eqb k' k); eauto.
Qed.

(** A dict filled by successive assignments holds, for each key, the
    value assigned last. *)
Lemma get_assignments (ws : list (string * V)) d k :
  Py.get (fold_left (fun m w => Py.set m (fst w) (snd w)) ws d) k =
  match Py.get (rev ws) k with
  | Some v => Some v
  | None => Py.get d k
  end.
Proof.
  revert d. induction ws as [|[k' v'] ws IH]; intros d; simpl; [done|].
  rewrite IH, get_app, get_set. simpl.
  destruct (Py.get (rev ws) k); [done|].
  by destruct (String.eqb k' k).
Qed.

End Dict.

Lemma get_fmap {V W} (f : V → W) (d : Py.dict V) k :
  Py.get (map (fun kv => (fst kv, f (snd kv))) d) k = f <$> Py.get d k.
Proof.
  induction d as [|[k' v'] d IH]; simpl; [done|].
  by destruct (String.eqb k' k).
Qed.

(** ** Loops *)

Lemma for_each_cons {S A} (body : S → A → result S) (a : A) (l : list A) (s : S) :
  for_each body (a :: l) s = (s' ← body s a; for_each body l s').
Proof. reflexivity. Qed.

(** ** The scanner *)

(** The walk to the parent raises nothing but [KeyError]. *)
Lemma walk_raises (names : list string) (start : Module) e :
  for_each (fun am name => Py.item (_modules am) name) names start = Raise e →
  e = KeyError.
Proof.
  revert start. induction names as [|n names IH]; intros start; simpl; [done|].
  destruct (Py.item (_modules start) n) as [m|e'] eqn:E; simpl.
  - apply IH.
  - intros [= <-]. unfold Py.item in E.
    by destruct (Py.get (_modules start) n); inversion E.
Qed.

(** One round of the inner loop either leaves the dict alone or assigns
    the decendant under its id. *)
Lemma scan_decendant_Ok an am mm d am' mm' :
  scan_decendant an (am, mm) d = Ok (am', mm') →
  (targetable (snd d) = false ∧ mm' = mm ∧ am' = am)
  ∨ (targetable (snd d) = true
     ∧ mm' = Py.set mm (qualified_id an (fst d)) (mkInfo (snd d) am')).
Proof.
  destruct d as [dn dm]. unfold scan_decendant, targetable. simpl.
  destruct (bool_decide (class_name dm ∈ TargetableModules_members)).
  - destruct (for_each _ _ am) as [p|e]; simpl; [|done].
    intros [= <- <-]. by right.
  - intros [= <- <-]. by left.
Qed.

Lemma scan_decendant_raises an st d e :
  scan_decendant an st d = Raise e → e = KeyError.
Proof.
  destruct st as [am mm], d as [dn dm]. unfold scan_decendant.
  destruct (bool_decide _); [|done].
  destruct (for_each _ _ am) as [p|e'] eqn:E; simpl; [done|].
  intros [= <-]. by apply walk_raises in E.
Qed.

Lemma for_each_raises {S A} (body : S → A → result S) (P : exn → Prop) :
  (∀ s a e, body s a = Raise e → P e) →
  ∀ l s e, for_each body l s = Raise e → P e.
Proof.
  intros Hbody l. induction l as [|a l IH]; intros s e; [done|].
  rewrite for_each_cons.
  destruct (body s a) eqn:E; simpl; [apply IH | intros [= <-]; eauto].
Qed.

Lemma inner_loop_assignments an ds am mm am' mm' :
  for_each (scan_decendant an) ds (am, mm) = Ok (am', mm') →
  ∃ ws, mm' = fold_left assign ws mm
        ∧ map strip ws =
          map (fun d => (qualified_id an (fst d), snd d))
              (filter (fun d => targetable (snd d) = true) ds).
Proof.
  revert am mm. induction ds as [|d ds IH]; intros am mm.
  - intros [= <- <-]. by exists [].
  - rewrite for_each_cons.
    destruct (scan_decendant an (am, mm) d) as [[am1 mm1]|e] eqn:E; simpl; [|done].
    intros Hrest. destruct (IH _ _ Hrest) as (ws & -> & Hws).
    apply scan_decendant_Ok in E as [(Ht & -> & ->)|(Ht & ->)].
    + exists ws. split; [done|].
      rewrite filter_cons_False; [done | by rewrite Ht].
    + exists ((qualified_id an (fst d), mkInfo (snd d) am1) :: ws). split; [done|].
      rewrite filter_cons_True by done. simpl. by rewrite Hws.
Qed.

Lemma scan_ancestor_assignments tb wl bl mm a mm' :
  scan_ancestor tb wl bl mm a = Ok mm' →
  ∃ ws, mm' = fold_left assign ws mm
        ∧ map strip ws =
          if block_selected tb wl bl (fst a) (snd a)
          then map (fun d => (qualified_id (fst a) (fst d), snd d))
                   (filter (fun d => targetable (snd d) = true)
                           (named_modules (snd a)))
          else [].
Proof.
  destruct a as [an am]. unfold scan_ancestor. simpl.
  destruct (block_selected tb wl bl an am).
  - destruct (for_each _ _ _) as [[am' mm1]|e] eqn:E; simpl; [|done].
    intros [= <-]. by apply inner_loop_assignments in E.
  - intros [= <-]. by exists [].
Qed.

Lemma outer_loop_assignments tb wl bl ancestors mm mm' :
  for_each (scan_ancestor tb wl bl) ancestors mm = Ok mm' →
  ∃ ws, mm' = fold_left assign ws mm
        ∧ map strip ws =
          flat_map
            (fun a =>
               if block_selected tb wl bl (fst a) (snd a)
               then map (fun d => (qualified_id (fst a) (fst d), snd d))
                        (filter (fun d => targetable (snd d) = true)
                                (named_modules (snd a)))
               else [])
            ancestors.
Proof.
  revert mm. induction ancestors as [|a ancestors IH]; intros mm.
  - intros [= <-]. by exists [].
  - rewrite for_each_cons.
    destruct (scan_ancestor tb wl bl mm a) as [mm1|e] eqn:E; simpl; [|done].
    intros Hrest. destruct (IH _ Hrest) as (ws2 & -> & Hws2).
    apply scan_ancestor_assignments in E as (ws1 & -> & Hws1).
    exists (ws1 ++ ws2). split.
    + by rewrite fold_left_app.
    + by rewrite map_app, Hws1, Hws2.
Qed.

(** The dict [scan_model] returns is the result of assigning, in visiting
    order, every selected decendant under its id. *)
Lemma scan_model_assignments model tb wl bl mm :
  scan_model model tb wl bl = Ok mm →
  ∃ ws, mm = fold_left assign ws []
        ∧ map strip ws =
          selected_decendants (list_to_set tb) (list_to_set <$> wl)
            (list_to_set <$> bl) model.
Proof. apply outer_loop_assignments. Qed.

Lemma scan_model_raises model tb wl bl e :
  scan_model model tb wl bl = Raise e → e = KeyError.
Proof.
  unfold scan_model. revert e.
  apply (for_each_raises _ (fun e => e = KeyError)).
  intros mm [an am] e. unfold scan_ancestor.
  destruct (block_selected _ _ _ an am); [|done].
  destruct (for_each _ _ _) as [[am' mm']|e'] eqn:E; simpl; [done|].
  intros [= <-]. revert E.
  apply (for_each_raises _ (fun e => e = KeyError)).
  intros s a e0. apply scan_decendant_raises.
Qed.

Lemma block_selected_spec tb wl bl an am :
  block_selected (list_to_set tb) (list_to_set <$> wl) (list_to_set <$> bl) an am = true
  ↔ spec_selected tb wl bl an am.
Proof.
  unfold block_selected, spec_selected, ancestor_set.
  rewrite !andb_true_iff, bool_decide_eq_true, elem_of_list_to_set.
  assert (Hwl :
    match list_to_set <$> wl with
    | Some s => negb (bool_decide ((list_to_set (Py.split "." an) : gset string) ## s))
    | None => true
    end = true
    ↔ ∀ l, wl = Some l → ∃ token, token ∈ Py.split "." an ∧ token ∈ l).
  { destruct wl as [l|]; simpl.
    - rewrite negb_true_iff, bool_decide_eq_false. split.
      + intros Hnd l' [= <-].
        destruct (decide (Exists (fun t => t ∈ l) (Py.split "." an))) as [Hex|Hnex].
        * apply Exists_exists in Hex as (t & Ht & Ht'). eauto.
        * exfalso. apply Hnd. intros t Ht Ht'.
          apply elem_of_list_to_set in Ht, Ht'.
          apply Hnex, Exists_exists. eauto.
      + intros H Hdisj. destruct (H l eq_refl) as (t & Ht & Ht').
        apply (Hdisj t); by apply elem_of_list_to_set.
    - split; [by intros _ l [=] | done]. }
  assert (Hbl :
    match list_to_set <$> bl with
    | Some s => bool_decide ((list_to_set (Py.split "." an) : gset string) ## s)
    | None => true
    end = true
    ↔ ∀ l, bl = Some l → ∀ token, token ∈ Py.split "." an → token ∉ l).
  { destruct bl as [l|]; simpl.
    - rewrite bool_decide_eq_true. split.
      + intros Hdisj l' [= <-] t Ht Ht'.
        apply (Hdisj t); by apply elem_of_list_to_set.
      + intros H t Ht Ht'. apply elem_of_list_to_set in Ht, Ht'.
        by apply (H l eq_refl t).
    - split; [by intros _ l [=] | done]. }
  rewrite Hwl, Hbl. tauto.
Qed.

Lemma targetable_members m :
  targetable m = true ↔ class_name m ∈ TargetableModules_members.
Proof. apply bool_decide_eq_true. Qed.

Lemma elem_of_selected_decendants tb wl bl model id dm :
  (id, dm) ∈ selected_decendants (list_to_set tb) (list_to_set <$> wl)
               (list_to_set <$> bl) model
  ↔ ∃ an am dn,
      (an, am) ∈ named_modules model
      ∧ spec_selected tb wl bl an am
      ∧ (dn, dm) ∈ named_modules am
      ∧ class_name dm ∈ TargetableModules_members
      ∧ id = qualified_id an dn.
Proof.
  unfold selected_decendants. rewrite list_elem_of_In, in_flat_map. split.
  - intros ([an am] & Ha & Hd). simpl in Hd.
    destruct (block_selected _ _ _ an am) eqn:Hsel; [|done].
    apply in_map_iff in Hd as ([dn dm'] & [= <- <-] & Hd).
    apply list_elem_of_In, list_elem_of_filter in Hd as [Ht Hd]. simpl in Ht.
    exists an, am, dn.
    split; [by apply list_elem_of_In|]. split; [by apply block_selected_spec|].
    split; [done|]. split; [by apply targetable_members | done].
  - intros (an & am & dn & Ha & Hsel & Hd & Ht & ->).
    exists (an, am). split; [by apply list_elem_of_In|]. simpl.
    apply block_selected_spec in Hsel. rewrite Hsel.
    apply in_map_iff. exists (dn, dm). split; [done|].
    apply list_elem_of_In, list_elem_of_filter. split; [|done].
    by apply targetable_members.
Qed.

Lemma elem_of_map {A B} (f : A → B) (l : list A) (y : B) :
  y ∈ map f l ↔ ∃ x, f x = y ∧ x ∈ l.
Proof.
  rewrite list_elem_of_In, in_map_iff.
  by setoid_rewrite list_elem_of_In.
Qed.

Lemma elem_of_rev {A} (l : list A) (x : A) : x ∈ rev l ↔ x ∈ l.
Proof. rewrite !list_elem_of_In. symmetry. apply in_rev. Qed.

Lemma get_rev_is_Some {V} (d : Py.dict V) k :
  is_Some (Py.get (rev d) k) ↔ ∃ v, (k, v) ∈ d.
Proof.
  split.
  - intros [v Hv]. exists v. by apply (proj1 (elem_of_rev _ _)), get_Some_elem_of.
  - intros [v Hv]. apply (elem_of_get_is_Some _ _ v). by apply elem_of_rev.
Qed.

Lemma scan_model_lookup model tb wl bl mm id :
  scan_model model tb wl bl = Ok mm →
  ∃ ws, map strip ws =
        selected_decendants (list_to_set tb) (list_to_set <$> wl)
          (list_to_set <$> bl) model
        ∧ Py.get mm id = Py.get (rev ws) id.
Proof.
  intros (ws & -> & Hws)%scan_model_assignments. exists ws. split; [done|].
  unfold assign. rewrite get_assignments. simpl.
  by destruct (Py.get (rev ws) id).
Qed.

(** C6. [scan_model] selects an ancestor block exactly when its type name
    is a target block, some token of its dotted path is whitelisted (if
    there is a whitelist) and none is blacklisted (if there is a
    blacklist): the condition of the code is that one, and the ids of the
    returned mapping are those of the targetable decendants of such
    blocks; every module in the mapping is a Linear or a Conv1d. *)
Theorem scan_model_selects model tb wl bl :
  (∀ an am,
     block_selected (list_to_set tb) (list_to_set <$> wl) (list_to_set <$> bl) an am
     = true ↔ spec_selected tb wl bl an am)
  ∧ (∀ mm,
       scan_model model tb wl bl = Ok mm →
       (∀ id,
          is_Some (Py.get mm id) ↔
          ∃ an am dn dm,
            (an, am) ∈ named_modules model
            ∧ spec_selected tb wl bl an am
            ∧ (dn, dm) ∈ named_modules am
            ∧ class_name dm ∈ TargetableModules_members
            ∧ id = qualified_id an dn)
       ∧ (∀ id info,
            Py.get mm id = Some info →
            class_name (info_module info) = "Linear"
            ∨ class_name (info_module info) = "Conv1d")).
Proof.
  split; [intros; apply block_selected_spec|]. intros mm Hscan. split.
  - intros id. destruct (scan_model_lookup _ _ _ _ _ id Hscan) as (ws & Hws & ->).
    rewrite get_rev_is_Some. split.
    + intros [info Hin].
      assert ((id, info_module info) ∈ map strip ws) as Hsel.
      { apply elem_of_map. by exists (id, info). }
      rewrite Hws in Hsel. apply elem_of_selected_decendants in Hsel.
      destruct Hsel as (an & am & dn & ?). by exists an, am, dn, (info_module info).
    + intros (an & am & dn & dm & H).
      assert ((id, dm) ∈ map strip ws) as Hsel.
      { rewrite Hws. apply elem_of_selected_decendants. by exists an, am, dn. }
      apply elem_of_map in Hsel as ([id' info] & [= <- <-] & Hin). eauto.
  - intros id info Hget.
    destruct (scan_model_lookup _ _ _ _ _ id Hscan) as (ws & Hws & Heq).
    rewrite Heq in Hget. apply get_Some_elem_of in Hget.
    apply (proj1 (elem_of_rev _ _)) in Hget.
    assert ((id, info_module info) ∈ map strip ws) as Hsel.
    { apply elem_of_map. by exists (id, info). }
    rewrite Hws in Hsel.
    apply elem_of_selected_decendants in Hsel as (_ & _ & _ & _ & _ & _ & Ht & _).
    unfold TargetableModules_members in Ht.
    apply elem_of_cons in Ht as [->|Ht]; [by left|].
    apply elem_of_cons in Ht as [->|Ht]; [by right|].
    by apply elem_of_nil in Ht.
Qed.

Lemma scan_model_selects_witness :
  scan_model attention_model ["Attention"] (Some ["blk"]) (Some ["mid"])
  = Ok [("blk/to_q", mkInfo (linear_module 2) attention_block);
        ("blk/to_out", mkInfo (linear_module 3) attention_block)]
  ∧ (∀ id,
       is_Some (Py.get [("blk/to_q", mkInfo (linear_module 2) attention_block);
                        ("blk/to_out", mkInfo (linear_module 3) attention_block)]
                       id) ↔
       ∃ an am dn dm,
         (an, am) ∈ named_modules attention_model
         ∧ spec_selected ["Attention"] (Some ["blk"]) (Some ["mid"]) an am
         ∧ (dn, dm) ∈ named_modules am
         ∧ class_name dm ∈ TargetableModules_members
         ∧ id = qualified_id an dn).
Proof.
  assert (scan_model attention_model ["Attention"] (Some ["blk"]) (Some ["mid"])
          = Ok [("blk/to_q", mkInfo (linear_module 2) attention_block);
                ("blk/to_out", mkInfo (linear_module 3) attention_block)]) as Hscan
    by (vm_compute; reflexivity).
  split; [exact Hscan|].
  exact (proj1 (proj2 (scan_model_selects _ _ _ _) _ Hscan)).
Defined.

(** The scenario of the specification: a block of a target type with two
    Linear children and a LayerNorm gives two entries; a whitelist without
    a token of the block's path, or a blacklist with one, gives none. *)
Example scan_model_attention_block :
  length <$> scan_model attention_model ["Attention"] (Some ["blk"]) None = Ok 2
  ∧ scan_model attention_model ["Attention"] (Some ["mid"]) None = Ok []
  ∧ scan_model attention_model ["Attention"] None (Some ["blk"]) = Ok []
  ∧ scan_model attention_model ["Transformer"] None None = Ok [].
Proof. vm_compute. repeat split. Qed.

(** C3 (as the code has it). [scan_model] has no check for a repeated id:
    it never fails with an assertion, and when it returns, an id that
    several selected decendants share is bound to the one visited last. *)
Theorem scan_model_collision_overwrites model tb wl bl :
  scan_model model tb wl bl ≠ Raise AssertionError
  ∧ (∀ mm id dm,
       scan_model model tb wl bl = Ok mm →
       Py.get (rev (selected_decendants (list_to_set tb) (list_to_set <$> wl)
                      (list_to_set <$> bl) model)) id = Some dm →
       info_module <$> Py.get mm id = Some dm).
Proof.
  split.
  - intros H. by apply scan_model_raises in H.
  - intros mm id dm Hscan Hlast.
    destruct (scan_model_lookup _ _ _ _ _ id Hscan) as (ws & Hws & ->).
    rewrite <- Hws in Hlast. unfold strip in Hlast.
    by rewrite <- map_rev, (get_fmap info_module) in Hlast.
Qed.

Lemma scan_model_collision_overwrites_witness :
  info_module <$>
    Py.get [("blk/a/b", mkInfo (linear_module 4) colliding_a)] "blk/a/b"
  = Some (linear_module 4).
Proof.
  apply (proj2 (scan_model_collision_overwrites colliding ["Attention"] None None)).
  - vm_compute. reflexivity.
  - vm_compute. reflexivity.
Defined.

(** C3, refuted as stated: two selected decendants share the id
    [blk/a/b]; the scan returns, and the mapping holds the second of them
    in place of the first. *)
Lemma scan_model_collision_counterexample :
  selected_decendants (list_to_set ["Attention"]) None None colliding
  = [("blk/a/b", linear_module 2); ("blk/a/b", linear_module 4)]
  ∧ scan_model colliding ["Attention"] None None
    = Ok [("blk/a/b", mkInfo (linear_module 4) colliding_a)]
  ∧ scan_model colliding ["Attention"] None None ≠ Raise AssertionError.
Proof.
  split; [vm_compute; reflexivity|].
  assert (scan_model colliding ["Attention"] None None
          = Ok [("blk/a/b", mkInfo (linear_module 4) colliding_a)]) as H
    by (vm_compute; reflexivity).
  split; [exact H|]. rewrite H. discriminate.
Qed.

(** C2, on the code: in [nested_then_direct] the Linear [z] sits directly
    in the attention block, after the nested Linear [a.x].  The scan
    records for [z] the container [a], which does not hold it. *)
Theorem scan_model_parent_after_nested :
  ∃ mm info,
    scan_model nested_then_direct ["Attention"] None None = Ok mm
    ∧ Py.get mm "blk/z" = Some info
    ∧ info_module info = linear_module 4
    ∧ holds_directly nested_then_direct_block (linear_module 4)
    ∧ info_parent info = nested_then_direct_a
    ∧ ¬ holds_directly (info_parent info) (info_module info).
Proof.
  exists [("blk/a/x", mkInfo (linear_module 3) nested_then_direct_a);
          ("blk/z", mkInfo (linear_module 4) nested_then_direct_a)].
  exists (mkInfo (linear_module 4) nested_then_direct_a).
  split; [vm_compute; reflexivity|].
  split; [reflexivity|]. split; [reflexivity|].
  split; [by exists "z"|]. split; [reflexivity|].
  intros [key Hkey]. apply get_Some_elem_of in Hkey. simpl in Hkey.
  apply elem_of_cons in Hkey as [Hkey|Hkey]; [discriminate Hkey|].
  by apply elem_of_nil in Hkey.
Qed.

(** With two containers in a block the walk for the second starts in the
    first, and the scan stops with a [KeyError]. *)
Lemma scan_model_two_containers :
  scan_model two_containers ["Attention"] None None = Raise KeyError.
Proof. vm_compute. reflexivity. Qed.

(** ** Adapters: scale *)

Lemma Z2Qc_nonzero (z : Z) : z ≠ 0%Z → Z2Qc z ≠ 0%Qc.
Proof.
  intros Hz H. apply Hz. unfold Z2Qc in H.
  apply (f_equal this) in H. simpl in H.
  assert (Heq : (inject_Z z == 0)%Q) by (rewrite <- (Qred_correct (inject_Z z)), H; reflexivity).
  unfold Qeq in Heq. simpl in Heq. lia.
Qed.

(** The subclasses leave the scale of [LoRAWModule.__init__] as it is. *)
Lemma subclass_init_scale (init : string → HostLayer → Qc → Z → option Qc →
                                  option Qc → option Qc → Draws → result LoRAWModule)
    name original mult rank alpha drop mdrop rng a :
  init = LoRAWLinear_init ∨ init = LoRAWConv1d_init →
  init name original mult rank alpha drop mdrop rng = Ok a →
  ∃ base, LoRAWModule_init name original mult rank alpha drop mdrop = Ok base
          ∧ scale a = scale base.
Proof.
  intros [-> | ->] H; unfold LoRAWLinear_init, LoRAWConv1d_init in H;
    destruct (LoRAWModule_init name original mult rank alpha drop mdrop)
      as [base|]; cbn [mbind result_bind] in H; try done;
    exists base; (split; [done|]).
  - destruct (obj_layer original); cbn [mbind result_bind] in H; [|done].
    destruct (nn_Linear_new (Z.of_nat _) rank rng);
      cbn [mbind result_bind] in H; [|done].
    destruct (nn_Linear_new rank _ rng); cbn [mbind result_bind] in H; [|done].
    by injection H as <-.
  - destruct (obj_layer original); cbn [mbind result_bind] in H; [done|].
    destruct (nn_Conv1d_new (Z.of_nat _) rank _ _ _ rng);
      cbn [mbind result_bind] in H; [|done].
    destruct (nn_Conv1d_new rank _ _ _ _ rng); cbn [mbind result_bind] in H; [|done].
    by injection H as <-.
Qed.

(** C4 (as the code has it). With a rank other than zero: an [alpha] of
    [None] or of zero is replaced by the rank, so the scale is 1; an
    [alpha] that is not supplied is the signature's default 1.0, so the
    scale is [1/rank].  The same holds of the adapters the two subclasses
    construct. *)
Theorem scale_of_alpha name original kw :
  default 16%Z (kw_lora_dim kw) ≠ 0%Z →
  (∃ a, LoRAWModule_new name original kw = Ok a ∧ scale_follows_alpha kw a)
  ∧ (∀ rng a, LoRAWLinear_new name original kw rng = Ok a →
              scale_follows_alpha kw a)
  ∧ (∀ rng a, LoRAWConv1d_new name original kw rng = Ok a →
              scale_follows_alpha kw a).
Proof.
  intros Hrank.
  assert (∃ a, LoRAWModule_new name original kw = Ok a ∧ scale_follows_alpha kw a)
    as (base & Hbase & Hdoc).
  { unfold LoRAWModule_new, with_defaults, LoRAWModule_init.
    destruct (Z.eqb_spec (default 16%Z (kw_lora_dim kw)) 0) as [|_]; [done|].
    pose proof (Z2Qc_nonzero _ Hrank) as Hq.
    eexists. split; [reflexivity|]. unfold scale_follows_alpha. simpl. split.
    - intros [->| ->]; simpl.
      + by field.
      + replace (Qc_eq_bool 0 0) with true by reflexivity. by field.
    - intros ->. simpl. replace (Qc_eq_bool 1 0) with false by reflexivity. done. }
  split; [eauto|].
  split; intros rng a Hnew;
    [ destruct (subclass_init_scale LoRAWLinear_init _ _ _ _ _ _ _ _ _
                  (or_introl eq_refl) Hnew) as (base' & Hbase' & Hscale)
    | destruct (subclass_init_scale LoRAWConv1d_init _ _ _ _ _ _ _ _ _
                  (or_intror eq_refl) Hnew) as (base' & Hbase' & Hscale) ];
    unfold LoRAWModule_new, with_defaults in Hbase;
    rewrite Hbase in Hbase'; injection Hbase' as <-;
    unfold scale_follows_alpha in *; by rewrite Hscale.
Qed.

Lemma scale_of_alpha_witness :
  ∃ a, LoRAWModule_new "blk/to_q" linear_3_2 no_kwargs = Ok a
       ∧ scale_follows_alpha no_kwargs a.
Proof.
  apply (proj1 (scale_of_alpha "blk/to_q" linear_3_2 no_kwargs ltac:(simpl; lia))).
Defined.

(** C4, refuted as stated: an adapter constructed without an [alpha]
    argument (and without a rank, which is then 16) has scale 1/16. *)
Lemma scale_without_alpha_counterexample :
  ∃ a, LoRAWLinear_new "blk/to_q" linear_3_2 no_kwargs counting = Ok a
       ∧ scale a = Q2Qc (1 # 16)
       ∧ scale a ≠ 1%Qc.
Proof.
  eexists. split; [reflexivity|]. simpl. split.
  - apply Qc_is_canon. reflexivity.
  - intros H. apply (f_equal this) in H. vm_compute in H. discriminate H.
Qed.

(** ** Tensors *)

Lemma firstn_add_skipn {A} (a b : nat) (l : list A) :
  firstn (a + b) l = firstn a l ++ firstn b (skipn a l).
Proof.
  revert l. induction a as [|a IH]; intros l; simpl; [done|].
  destruct l as [|x l]; simpl.
  - by rewrite firstn_nil.
  - by rewrite IH.
Qed.

Lemma rows_succ {A} (count width : nat) (l : list A) :
  rows (S count) width l =
  rows count width l ++ [firstn width (skipn (count * width) l)].
Proof. unfold rows. by rewrite seq_S, map_app. Qed.

Lemma concat_rows {A} (count width : nat) (l : list A) :
  concat (rows count width l) = firstn (count * width) l.
Proof.
  induction count as [|count IH].
  - done.
  - rewrite rows_succ, concat_app, IH. simpl. rewrite app_nil_r.
    replace (width + count * width) with (count * width + width) by lia.
    by rewrite firstn_add_skipn.
Qed.

Lemma rows_map {A B} (f : A → B) (count width : nat) (l : list A) :
  rows count width (map f l) = map (map f) (rows count width l).
Proof.
  unfold rows. rewrite map_map. apply map_ext. intros i.
  by rewrite skipn_map, firstn_map.
Qed.

Lemma concat_repeat_map {A B} (f : A → B) (l : list A) (n : nat) :
  concat (repeat (map f l) n) = map f (concat (repeat l n)).
Proof.
  induction n as [|n IH]; simpl; [done|]. by rewrite IH, map_app.
Qed.

Lemma expand_data_map (f : Qc → Qc) src tgt l :
  expand_data src tgt (map f l) = map f (expand_data src tgt l).
Proof.
  revert tgt l. induction src as [|d src IH]; intros tgt l; [done|].
  destruct tgt as [|e tgt]; [done|]. simpl.
  rewrite rows_map, map_map.
  rewrite (map_ext _ (fun r => map f (expand_data src tgt r)))
    by (intros r; apply IH).
  rewrite <- (map_map (expand_data src tgt) (map f)), <- concat_map.
  destruct (d =? e); [done|]. apply concat_repeat_map.
Qed.

Lemma firstn_firstn_same {A} (n : nat) (l : list A) :
  firstn n (firstn n l) = firstn n l.
Proof. rewrite firstn_firstn. by rewrite Nat.min_id. Qed.

Lemma rows_firstn_fixed {A} (count width : nat) (l : list A) :
  map (firstn width) (rows count width l) = rows count width l.
Proof.
  unfold rows. rewrite map_map. apply map_ext. intros i. apply firstn_firstn_same.
Qed.

Lemma rows_length_le {A} (count width : nat) (l : list A) :
  Forall (fun r => length r ≤ width) (rows count width l).
Proof.
  unfold rows. apply Forall_forall. intros r (i & <- & _)%elem_of_map.
  rewrite length_firstn. lia.
Qed.

(** Expanding to the tensor's own shape changes nothing. *)
Lemma expand_data_fits s l : length l ≤ numel s → expand_data s s l = l.
Proof.
  revert l. induction s as [|d s IH]; intros l Hl; [done|]. simpl.
  rewrite Nat.eqb_refl.
  rewrite (map_ext_Forall _ id).
  - rewrite map_id, concat_rows. apply firstn_all2. simpl in Hl. lia.
  - eapply Forall_impl; [apply rows_length_le|]. intros r Hr. by apply IH.
Qed.

Lemma expand_data_same s l : expand_data s s l = firstn (kept s l) l.
Proof.
  destruct s as [|d s].
  - simpl. by rewrite firstn_all.
  - unfold kept. simpl. rewrite Nat.eqb_refl.
    rewrite (map_ext_Forall _ id).
    + by rewrite map_id, concat_rows.
    + eapply Forall_impl; [apply rows_length_le|].
      intros r Hr. by apply expand_data_fits.
Qed.

Lemma broadcast_rev_refl s : broadcast_rev s s = Some s.
Proof.
  induction s as [|d s IH]; simpl; [done|]. by rewrite IH, Nat.eqb_refl.
Qed.

Lemma broadcast_rev_nil_r s : broadcast_rev s [] = Some s.
Proof. by destruct s. Qed.

(** The broadcast of two shapes absorbs either of them. *)
Lemma broadcast_rev_absorb s1 s2 s :
  broadcast_rev s1 s2 = Some s → broadcast_rev s s1 = Some s.
Proof.
  revert s2 s. induction s1 as [|d1 s1 IH]; intros s2 s.
  - simpl. intros [= <-]. apply broadcast_rev_nil_r.
  - destruct s2 as [|d2 s2].
    + simpl. intros [= <-]. apply broadcast_rev_refl.
    + simpl. destruct (broadcast_rev s1 s2) as [r|] eqn:Hr; [|done].
      apply IH in Hr.
      destruct (Nat.eqb_spec d1 d2) as [->|Hne].
      * intros [= <-]. simpl. by rewrite Hr, Nat.eqb_refl.
      * destruct (Nat.eqb_spec d1 1) as [->|Hne1].
        -- intros [= <-]. simpl. rewrite Hr.
           destruct (Nat.eqb_spec d2 1) as [->|?]; [done|]. done.
        -- destruct (Nat.eqb_spec d2 1) as [->|?]; [|done].
           intros [= <-]. simpl. by rewrite Hr, Nat.eqb_refl.
Qed.

Lemma broadcast_shapes_absorb s1 s2 s :
  broadcast_shapes s1 s2 = Some s → broadcast_shapes s s1 = Some s.
Proof.
  unfold broadcast_shapes.
  destruct (broadcast_rev (rev s1) (rev s2)) as [r|] eqn:Hr; [|done].
  intros [= <-]. rewrite rev_involutive.
  by rewrite (broadcast_rev_absorb _ _ _ Hr).
Qed.

(** Taking a base away from a sum leaves the addend, whatever the addend
    is scaled by. *)
Lemma residual_elements (k : Qc) (a : list Qc) :
  ∀ (n1 n0 : nat) (u : list Qc),
    zip_with Qcplus
      (firstn n1 (zip_with Qcplus (firstn n0 a) (map (fun v => (v * k)%Qc) u)))
      (map (fun v => (v * - 1)%Qc) a)
    = map (fun v => (v * k)%Qc)
        (zip_with Qcplus (firstn n1 (zip_with Qcplus (firstn n0 a) u))
                  (map (fun v => (v * - 1)%Qc) a)).
Proof.
  induction a as [|x a IH]; intros n1 n0 u.
  - destruct n0, n1; simpl; try done; by destruct u.
  - destruct n0 as [|n0]; [by destruct n1|].
    destruct u as [|v u]; [by destruct n1|].
    destruct n1 as [|n1]; [done|].
    simpl. rewrite IH. f_equal. ring.
Qed.

Lemma residual_elements_all (k : Qc) (a u : list Qc) :
  zip_with Qcplus (zip_with Qcplus a (map (fun v => (v * k)%Qc) u))
           (map (fun v => (v * - 1)%Qc) a)
  = map (fun v => (v * k)%Qc)
      (zip_with Qcplus (zip_with Qcplus a u) (map (fun v => (v * - 1)%Qc) a)).
Proof.
  pose proof (residual_elements k a (length a) (length a) u) as H.
  rewrite firstn_all in H.
  rewrite !(firstn_all2 (n := length a)) in H;
    [done | rewrite length_zip_with; lia | rewrite length_zip_with; lia].
Qed.

Lemma tensor_expand_scale (t : Tensor) (k : Qc) (s : list nat) :
  tensor_expand (tensor_scale t k) s = tensor_scale (tensor_expand t s) k.
Proof. unfold tensor_expand, tensor_scale. simpl. by rewrite expand_data_map. Qed.

Lemma tensor_expand_same (t : Tensor) :
  data (tensor_expand t (shape t)) = firstn (kept (shape t) (data t)) (data t).
Proof.
  unfold tensor_expand. simpl. rewrite Nat.sub_diag. simpl.
  apply expand_data_same.
Qed.

Lemma tensor_expand_own (s : list nat) (l : list Qc) :
  data (tensor_expand (mkTensor s l) s) = firstn (kept s l) l.
Proof. exact (tensor_expand_same (mkTensor s l)). Qed.

Lemma tensor_add_same (a b : Tensor) :
  shape a = shape b →
  tensor_add a b = Ok (mkTensor (shape a) (zip_with Qcplus (data a) (data b))).
Proof. intros H. unfold tensor_add. by rewrite decide_True. Qed.

Lemma tensor_add_broadcast (a b : Tensor) (s : list nat) :
  shape a ≠ shape b →
  broadcast_shapes (shape a) (shape b) = Some s →
  tensor_add a b =
  Ok (mkTensor s (zip_with Qcplus (data (tensor_expand a s))
                                  (data (tensor_expand b s)))).
Proof. intros H Hs. unfold tensor_add. by rewrite decide_False, Hs. Qed.

Lemma tensor_add_mismatch (a b : Tensor) :
  shape a ≠ shape b →
  broadcast_shapes (shape a) (shape b) = None →
  tensor_add a b = Raise RuntimeError.
Proof. intros H Hs. unfold tensor_add. by rewrite decide_False, Hs. Qed.

Lemma result_bind_Ok {A B} (a : A) (f : A → result B) : (Ok a ≫= f) = f a.
Proof. reflexivity. Qed.

Lemma result_bind_Raise {A B} (e : exn) (f : A → result B) :
  (Raise e ≫= f) = Raise e.
Proof. reflexivity. Qed.

Lemma result_fmap_Ok {A B} (a : A) (f : A → B) : f <$> Ok a = Ok (f a).
Proof. reflexivity. Qed.

Lemma result_fmap_Raise {A B} (e : exn) (f : A → B) :
  f <$> (Raise e : result A) = Raise e.
Proof. reflexivity. Qed.

(** [(base + addend * k) - base = ((base + addend) - base) * k], errors
    included. *)
Lemma residual_linear (base addend : Tensor) (k : Qc) :
  (y ← tensor_add base (tensor_scale addend k); tensor_sub y base)
  = (fun d => tensor_scale d k) <$> (y ← tensor_add base addend; tensor_sub y base).
Proof.
  unfold tensor_sub.
  destruct (decide (shape base = shape addend)) as [Heq|Hne].
  - rewrite !(tensor_add_same base) by done. rewrite !result_bind_Ok.
    rewrite !tensor_add_same by done. rewrite result_fmap_Ok.
    unfold tensor_scale at 5. simpl. by rewrite residual_elements_all.
  - destruct (broadcast_shapes (shape base) (shape addend)) as [s|] eqn:Hs.
    2:{ rewrite !(tensor_add_mismatch base) by done. done. }
    rewrite !(tensor_add_broadcast base _ s) by done. rewrite !result_bind_Ok.
    rewrite tensor_expand_scale.
    destruct (decide (s = shape base)) as [->|Hne'].
    + rewrite !tensor_add_same by done. rewrite result_fmap_Ok.
      rewrite tensor_expand_same. unfold tensor_scale. simpl. f_equal. f_equal.
      set (a := data base).
      set (u := expand_data _ _ _).
      set (n := kept (shape base) a).
      pose proof (residual_elements k a (length a) n u) as H.
      rewrite !(firstn_all2 (n := length a)) in H;
        [done | rewrite length_zip_with, length_firstn; lia
              | rewrite length_zip_with, length_firstn; lia].
    + pose proof (broadcast_shapes_absorb _ _ _ Hs) as Habs.
      rewrite !(tensor_add_broadcast _ _ s) by done.
      rewrite result_fmap_Ok, !tensor_expand_scale.
      rewrite !tensor_expand_own.
      unfold tensor_scale. cbn [data shape]. f_equal. f_equal.
      set (a := data (tensor_expand base s)).
      set (u := data (tensor_expand addend s)).
      assert (kept s (zip_with Qcplus a (map (fun v => (v * k)%Qc) u))
              = kept s (zip_with Qcplus a u)) as ->.
      { unfold kept. destruct s; [|done]. by rewrite !length_zip_with, length_map. }
      pose proof (residual_elements k a (kept s (zip_with Qcplus a u)) (length a) u)
        as H.
      by rewrite firstn_all in H.
Qed.


(** ** Adapters: forward *)

(** In evaluation mode neither dropout applies. *)
Lemma forward_eval (self : LoRAWModule) (rnd : Randomness) (x : Tensor) :
  training self = false →
  forward self rnd x =
  (down ← attr (lora_down self);
   lx ← Layer_forward down x;
   up ← attr (lora_up self);
   lx ← Layer_forward up lx;
   y ← original_forward self x;
   tensor_add y (tensor_scale (tensor_scale lx (scale self)) (multiplier self))).
Proof.
  intros Ht. unfold forward. rewrite Ht.
  destruct (module_dropout self); simpl;
    destruct (attr (lora_down self)) as [down|]; simpl; try done;
    destruct (Layer_forward down x) as [lx|]; simpl; try done;
    by destruct (dropout self).
Qed.

Lemma tensor_scale_ratio (t : Tensor) (m m' : Qc) :
  m' ≠ 0%Qc →
  tensor_scale t m = tensor_scale (tensor_scale t m') (m / m')%Qc.
Proof.
  intros Hm'. unfold tensor_scale. simpl. f_equal.
  rewrite map_map. apply map_ext. intros v. by field.
Qed.

(** C5. In evaluation mode, for every input and every multiplier [m] and
    nonzero multiplier [m']: what the adapter adds to the base output
    after [set_multiplier(m)] is [m/m'] times what it adds after
    [set_multiplier(m')].  The multiplier is read from the adapter at the
    call, and the base output is not scaled. *)
Theorem set_multiplier_scales_deviation (self : LoRAWNetwork) (rnd : Randomness)
    (name : string) (x : Tensor) (m m' : Qc) :
  m' ≠ 0%Qc →
  (∀ module, Py.get (lora_modules self) name = Some module →
             training module = false) →
  deviation (set_multiplier self m) rnd name x
  = (fun d => tensor_scale d (m / m')%Qc)
      <$> deviation (set_multiplier self m') rnd name x.
Proof.
  intros Hm' Heval. unfold deviation, call_lora, set_multiplier, Py.item. simpl.
  rewrite !(get_fmap (fun a => set_module_multiplier _ a)).
  destruct (Py.get (lora_modules self) name) as [module|] eqn:Hget; [|done].
  specialize (Heval module eq_refl). simpl.
  rewrite !forward_eval by done. simpl.
  destruct (attr (lora_down module)) as [down|]; simpl; [|done].
  destruct (Layer_forward down x) as [lx|]; simpl; [|done].
  destruct (attr (lora_up module)) as [up|]; simpl; [|done].
  destruct (Layer_forward up lx) as [hx|]; simpl; [|done].
  destruct (original_forward module x) as [base|]; simpl; [|done].
  rewrite (tensor_scale_ratio (tensor_scale hx (scale module)) m m') by done.
  pose proof (residual_linear base
                (tensor_scale (tensor_scale hx (scale module)) m') (m / m')%Qc) as H.
  destruct (tensor_add base (tensor_scale (tensor_scale (tensor_scale hx _) m') _))
    as [y|] eqn:Hy;
    destruct (tensor_add base (tensor_scale (tensor_scale hx (scale module)) m'))
      as [y'|] eqn:Hy'; simpl in *; done.
Qed.

Lemma set_multiplier_scales_deviation_witness :
  deviation (set_multiplier tuned_network (Z2Qc 2)) some_randomness "blk/to_q"
            three_ones
  = (fun d => tensor_scale d (Z2Qc 2 / Z2Qc 3)%Qc)
      <$> deviation (set_multiplier tuned_network (Z2Qc 3)) some_randomness
            "blk/to_q" three_ones.
Proof.
  apply set_multiplier_scales_deviation.
  - apply Z2Qc_nonzero. lia.
  - intros module H. simpl in H. injection H as <-. reflexivity.
Defined.

(** C1, on the code: an adapter wrapping a dilated convolution.  The
    down-projection takes the kernel size, stride and padding of the
    wrapped module but not its dilation, so its output is longer than the
    wrapped module's (3 against 2 here); the sum of [forward] fails,
    although the up-projection is zero and the wrapped module alone
    returns. *)
Theorem LoRAWConv1d_dilated_initial_forward :
  ∃ a,
    LoRAWConv1d_init "blk/conv" dilated_conv 1 2 (Some 1%Qc) None None counting
    = Ok a
    ∧ readable (original_forward a four_samples) = Ok ([1; 2], [4 # 1; 6 # 1])
    ∧ readable (down ← attr (lora_down a);
                lx ← Layer_forward down four_samples;
                up ← attr (lora_up a);
                Layer_forward up lx)
      = Ok ([1; 3], [0 # 1; 0 # 1; 0 # 1])
    ∧ (∀ rnd, forward a rnd four_samples = Raise RuntimeError).
Proof.
  eexists. split; [reflexivity|].
  split; [vm_compute; reflexivity|].
  split; [vm_compute; reflexivity|].
  intros rnd. vm_compute. reflexivity.
Qed.

(** ** The wrapper's parameters *)

Lemma get_alter {V} (d : Py.dict V) k k' (f : V → V) :
  Py.get (Py.alter d k f) k' =
  if String.eqb k k' then f <$> Py.get d k' else Py.get d k'.
Proof.
  induction d as [|[k0 v0] d IH]; simpl.
  - by destruct (String.eqb k k').
  - destruct (String.eqb k0 k) eqn:E0; simpl.
    + apply String.eqb_eq in E0. subst k0.
      by destruct (String.eqb k k').
    + rewrite IH. destruct (String.eqb k0 k') eqn:E1; [|done].
      apply String.eqb_eq in E1. subst k0. by rewrite String.eqb_sym, E0.
Qed.

Lemma alter_app {V} (d1 d2 : Py.dict V) k (f : V → V) :
  Py.alter (d1 ++ d2) k f =
  match Py.get d1 k with
  | Some _ => Py.alter d1 k f ++ d2
  | None => d1 ++ Py.alter d2 k f
  end.
Proof.
  induction d1 as [|[k0 v0] d1 IH]; simpl; [done|].
  destruct (String.eqb k0 k); [done|]. rewrite IH.
  by destruct (Py.get d1 k).
Qed.

Lemma Layer_weight_set m p : Layer_weight (Layer_set_weight m p) = p.
Proof. by destruct m. Qed.

Lemma Layer_bias_set_weight m p : Layer_bias (Layer_set_weight m p) = Layer_bias m.
Proof. by destruct m. Qed.

Lemma Layer_bias_set m p : Layer_bias (Layer_set_bias m p) = Some p.
Proof. by destruct m. Qed.

Lemma Layer_weight_set_bias m p : Layer_weight (Layer_set_bias m p) = Layer_weight m.
Proof. by destruct m. Qed.

(** Updating a layer through a key is altering its list of parameters. *)
Lemma Layer_update_parameters prefix key f m :
  match Layer_update prefix key f m with
  | Some m' =>
      is_Some (Py.get (Layer_parameters (prefix, m)) key)
      ∧ Layer_parameters (prefix, m') = Py.alter (Layer_parameters (prefix, m)) key f
  | None => Py.get (Layer_parameters (prefix, m)) key = None
  end.
Proof.
  unfold Layer_update, Layer_parameters. simpl.
  destruct (String.eqb (prefix +:+ ".weight") key) eqn:Ew.
  - split; [eauto|]. by rewrite Layer_weight_set, Layer_bias_set_weight.
  - destruct (Layer_bias m) as [b|] eqn:Hb; simpl; [|done].
    destruct (String.eqb (prefix +:+ ".bias") key) eqn:Eb; [|done].
    split; [eauto|]. by rewrite Layer_weight_set_bias, Layer_bias_set.
Qed.

Lemma module_parameters_eq name module :
  module_parameters (name, module)
  = match lora_down module with
    | Some l => Layer_parameters (name +:+ "/lora_down", l)
    | None => []
    end ++
    match lora_up module with
    | Some l => Layer_parameters (name +:+ "/lora_up", l)
    | None => []
    end.
Proof.
  unfold module_parameters, projections.
  destruct (lora_down module), (lora_up module); simpl;
    by rewrite ?app_nil_r.
Qed.

Lemma LoRAW_update_parameters name key f module :
  match LoRAW_update name key f module with
  | Some module' =>
      is_Some (Py.get (module_parameters (name, module)) key)
      ∧ module_parameters (name, module')
        = Py.alter (module_parameters (name, module)) key f
  | None => Py.get (module_parameters (name, module)) key = None
  end.
Proof.
  unfold LoRAW_update. rewrite (module_parameters_eq name module).
  destruct (lora_down module) as [down|] eqn:Hd.
  - cbn [mbind option_bind].
    pose proof (Layer_update_parameters (name +:+ "/lora_down") key f down) as Hdown.
    destruct (Layer_update (name +:+ "/lora_down") key f down) as [down'|].
    + destruct Hdown as [[p Hp] Hdown].
      rewrite module_parameters_eq. cbn [lora_down lora_up with_lora_down].
      rewrite get_app, alter_app, Hp. split; [eauto|]. by rewrite Hdown.
    + destruct (lora_up module) as [up|] eqn:Hu.
      * cbn [mbind option_bind].
        pose proof (Layer_update_parameters (name +:+ "/lora_up") key f up) as Hup.
        destruct (Layer_update (name +:+ "/lora_up") key f up) as [up'|].
        -- destruct Hup as [[p Hp] Hup].
           rewrite module_parameters_eq. cbn [lora_down lora_up with_lora_up].
           rewrite Hd, get_app, alter_app, Hdown, Hp.
           split; [eauto|]. by rewrite Hup.
        -- by rewrite get_app, Hdown, Hup.
      * cbn [mbind option_bind]. by rewrite get_app, Hdown.
  - cbn [mbind option_bind].
    destruct (lora_up module) as [up|] eqn:Hu; [|done].
    cbn [mbind option_bind].
    pose proof (Layer_update_parameters (name +:+ "/lora_up") key f up) as Hup.
    destruct (Layer_update (name +:+ "/lora_up") key f up) as [up'|].
    + destruct Hup as [[p Hp] Hup].
      rewrite module_parameters_eq. cbn [lora_down lora_up with_lora_up].
      rewrite Hd. cbn [app]. rewrite Hp. split; [eauto|]. by rewrite Hup.
    + done.
Qed.

Lemma update_first_parameters key f mods :
  flat_map module_parameters (update_first key f mods)
  = Py.alter (flat_map module_parameters mods) key f.
Proof.
  induction mods as [|[name module] mods IH]; simpl; [done|].
  pose proof (LoRAW_update_parameters name key f module) as H.
  destruct (LoRAW_update name key f module) as [module'|]; simpl.
  - destruct H as [[p Hp] H]. by rewrite alter_app, Hp, H.
  - by rewrite alter_app, H, IH.
Qed.

Lemma named_parameters_modules self :
  named_parameters self = flat_map module_parameters (lora_modules (net self)).
Proof.
  unfold named_parameters, residual_modules, module_parameters.
  induction (lora_modules (net self)) as [|item mods IH]; simpl; [done|].
  by rewrite flat_map_app, IH.
Qed.

(** Writing through a key changes that parameter in the view, and nothing
    else. *)
Lemma named_parameters_update key f self :
  named_parameters (update_parameter key f self)
  = Py.alter (named_parameters self) key f.
Proof.
  rewrite !named_parameters_modules. unfold update_parameter. simpl.
  apply update_first_parameters.
Qed.

Lemma state_dict_get self key :
  Py.get (state_dict self) key = detach <$> Py.get (named_parameters self) key.
Proof. unfold state_dict. apply (get_fmap detach). Qed.

Lemma get_None_keys {V} (d : Py.dict V) k : Py.get d k = None ↔ k ∉ Py.keys d.
Proof.
  unfold Py.keys. induction d as [|[k0 v0] d IH]; simpl.
  - split; [intros _ []%elem_of_nil | done].
  - rewrite not_elem_of_cons, <- IH.
    destruct (String.eqb_spec k0 k) as [->|Hne].
    + split; [done | by intros [? _]].
    + split; [intros H; split; [congruence | done] | by intros [_ ?]].
Qed.

Lemma get_is_Some_keys {V} (d : Py.dict V) k : is_Some (Py.get d k) ↔ k ∈ Py.keys d.
Proof.
  rewrite <- not_eq_None_Some, get_None_keys.
  destruct (decide (k ∈ Py.keys d)); tauto.
Qed.

(** *** Loading *)

Lemma load_keys weights (own : Py.dict nn_Parameter) :
  ∀ self missing,
    (∀ key param input,
       (key, param) ∈ own → Py.get weights key = Some input →
       shape (stored_value input) = shape (value param)) →
    ∃ self',
      fold_left (fun acc o => load_key weights o acc) own (self, missing, false)
      = (self', missing ++ filter (fun k => Py.get weights k = None) (Py.keys own),
         false)
      ∧ named_parameters self'
        = fold_left (loaded weights) own (named_parameters self).
Proof.
  induction own as [|[key param] own IH]; intros self missing Hshape.
  - exists self. simpl. by rewrite app_nil_r.
  - simpl. unfold loaded at 2. simpl.
    destruct (Py.get weights key) as [input|] eqn:Hin.
    + rewrite decide_True by (eapply Hshape; [left | done]).
      destruct (IH (update_parameter key (set_value (stored_value input)) self)
                   missing) as (self' & Hfold & Hnp).
      { intros k p i Hk. apply Hshape. by right. }
      exists self'. rewrite Hfold, Hnp, named_parameters_update. split; [|done].
      by rewrite filter_cons_False by (rewrite Hin; done).
    + destruct (IH self (missing ++ [key])) as (self' & Hfold & Hnp).
      { intros k p i Hk. apply Hshape. by right. }
      exists self'. rewrite Hfold, Hnp. split; [|done].
      rewrite filter_cons_True by done. by rewrite <- app_assoc.
Qed.

Lemma get_loaded weights (own : Py.dict nn_Parameter) :
  ∀ np key,
    Py.get (fold_left (loaded weights) own np) key =
    match Py.get weights key with
    | Some input =>
        if bool_decide (key ∈ Py.keys own)
        then set_value (stored_value input) <$> Py.get np key
        else Py.get np key
    | None => Py.get np key
    end.
Proof.
  induction own as [|[k p] own IH]; intros np key; simpl.
  - by destruct (Py.get weights key).
  - rewrite IH. unfold loaded. simpl.
    destruct (String.eqb_spec k key) as [->|Hne].
    + destruct (Py.get weights key) as [input|] eqn:Hin; [|done].
      rewrite get_alter, String.eqb_refl.
      rewrite (bool_decide_eq_true_2 (key ∈ key :: Py.keys own)) by left.
      destruct (bool_decide (key ∈ Py.keys own)); [|done].
      by destruct (Py.get np key).
    + assert (Py.get match Py.get weights k with
                     | Some input => Py.alter np k (set_value (stored_value input))
                     | None => np
                     end key = Py.get np key) as ->.
      { destruct (Py.get weights k); [|done]. rewrite get_alter.
        destruct (String.eqb_spec k key); done. }
      destruct (Py.get weights key); [|done].
      assert (bool_decide (key ∈ k :: Py.keys own) = bool_decide (key ∈ Py.keys own))
        as Hin; [|by rewrite Hin].
      apply bool_decide_ext. rewrite elem_of_cons.
      split; [intros [Heq|?]; [congruence | done] | by right].
Qed.

(** C8. When every tensor of the file has the shape of the parameter of
    the same key, [load_weights] returns; it reports as missing the
    wrapper's keys that the file lacks and as unexpected the file's keys
    that the wrapper lacks; a parameter whose key is in the file takes
    the file's elements, and any other keeps its own. *)
Theorem load_weights_tolerates_keys self path (fs : Files) weights :
  torch_load fs path = Ok weights →
  (∀ key param input,
     (key, param) ∈ named_parameters self → Py.get weights key = Some input →
     shape (stored_value input) = shape (value param)) →
  ∃ info self',
    load_weights self path fs = (Ok info, self')
    ∧ (∀ key, key ∈ missing_keys info ↔
              key ∈ Py.keys (named_parameters self) ∧ key ∉ Py.keys weights)
    ∧ (∀ key, key ∈ unexpected_keys info ↔
              key ∈ Py.keys weights ∧ key ∉ Py.keys (named_parameters self))
    ∧ (∀ key param,
         Py.get (named_parameters self) key = Some param →
         Py.get (named_parameters self') key =
         Some match Py.get weights key with
              | Some input => set_value (stored_value input) param
              | None => param
              end).
Proof.
  intros Hfile Hshape. unfold load_weights. rewrite Hfile.
  unfold load_state_dict.
  destruct (load_keys weights (named_parameters self) self [] Hshape)
    as (self' & Hfold & Hnp).
  rewrite Hfold. simpl.
  eexists _, self'. split; [reflexivity|]. simpl. split; [|split].
  - intros key. rewrite list_elem_of_filter, get_None_keys. tauto.
  - intros key. rewrite list_elem_of_filter, get_None_keys. tauto.
  - intros key param Hget. rewrite Hnp, get_loaded, Hget.
    destruct (Py.get weights key); [|done].
    rewrite bool_decide_eq_true_2; [done|].
    apply get_is_Some_keys. eauto.
Qed.

Lemma load_weights_tolerates_keys_witness :
  ∃ info self',
    load_weights tuned_wrapper "adapter.pt" {[ "adapter.pt" := down_only ]}
    = (Ok info, self')
    ∧ (∀ key, key ∈ missing_keys info ↔
              key ∈ Py.keys (named_parameters tuned_wrapper)
              ∧ key ∉ Py.keys down_only)
    ∧ (∀ key, key ∈ unexpected_keys info ↔
              key ∈ Py.keys down_only
              ∧ key ∉ Py.keys (named_parameters tuned_wrapper))
    ∧ (∀ key param,
         Py.get (named_parameters tuned_wrapper) key = Some param →
         Py.get (named_parameters self') key =
         Some match Py.get down_only key with
              | Some input => set_value (stored_value input) param
              | None => param
              end).
Proof.
  apply (load_weights_tolerates_keys tuned_wrapper "adapter.pt"
           {[ "adapter.pt" := down_only ]} down_only).
  - reflexivity.
  - intros key param input Hin Hget.
    apply elem_of_cons in Hin as [Hin|Hin].
    + injection Hin as -> ->. injection Hget as <-. reflexivity.
    + apply elem_of_cons in Hin as [Hin|Hin].
      * injection Hin as -> ->. discriminate Hget.
      * by apply elem_of_nil in Hin.
Defined.

(** The scenario of the specification: a file with one of the two keys. *)
Example load_weights_down_only :
  let '(r, self') :=
    load_weights tuned_wrapper "adapter.pt" {[ "adapter.pt" := down_only ]} in
  r = Ok (mkIncompatibleKeys ["blk/to_q/lora_up.weight"]
                             ["blk/to_kv/lora_down.weight"])
  ∧ elements (Py.get (named_parameters self') "blk/to_q/lora_down.weight")
    = Some (float32, [1; 3], [7 # 1; 8 # 1; 9 # 1])
  ∧ elements (Py.get (named_parameters self') "blk/to_q/lora_up.weight")
    = Some (float32, [2; 1], [3 # 1; 5 # 1]).
Proof. vm_compute. repeat split. Qed.

(** *** Merging *)

Lemma for_each_st_app {S A} (body : A → S → result unit * S) (l1 l2 : list A) s :
  for_each_st body (l1 ++ l2) s =
  match for_each_st body l1 s with
  | (Ok _, s') => for_each_st body l2 s'
  | (Raise e, s') => (Raise e, s')
  end.
Proof.
  revert s. induction l1 as [|a l1 IH]; intros s; simpl; [done|].
  destruct (body a s) as [[[]|e] s']; [apply IH | done].
Qed.

(** A key that fails to merge leaves the wrapper as it found it. *)
Lemma merge_key_raises multiplier item self e self' :
  merge_key multiplier item self = (Raise e, self') → self' = self.
Proof.
  destruct item as [name weight]. unfold merge_key.
  destruct (Py.item (state_dict self) name) as [param|e0]; [|by intros [= _ <-]].
  destruct (_ ≫= _) as [v|e0]; [done | by intros [= _ <-]].
Qed.

(** A key that merges replaces the elements of its parameter, and of no
    other, by the sum. *)
Lemma merge_key_returns multiplier name weight self self' :
  merge_key multiplier (name, weight) self = (Ok tt, self') →
  ∃ param v,
    Py.get (named_parameters self) name = Some param
    ∧ (sum ← tensor_add (value param)
                        (tensor_scale (stored_value weight) multiplier);
       tensor_copy_ (value param) sum) = Ok v
    ∧ named_parameters self'
      = Py.alter (named_parameters self) name (set_value v).
Proof.
  unfold merge_key, Py.item. rewrite state_dict_get.
  destruct (Py.get (named_parameters self) name) as [param|]; simpl; [|done].
  destruct (_ ≫= _) as [v|e0] eqn:Hv; [|done].
  intros [= <-]. exists param, v. by rewrite named_parameters_update.
Qed.

(** C7 (as the code has it). [merge_weights] merges key by key, in the
    order of the file, and fails at the first key that cannot be merged;
    the wrapper is then left with the keys before it merged: nothing is
    undone. *)
Theorem merge_weights_stops_at_first_failure self path (fs : Files) multiplier
    merged item rest e self1 :
  torch_load fs path = Ok (merged ++ item :: rest) →
  for_each_st (merge_key multiplier) merged self = (Ok tt, self1) →
  fst (merge_key multiplier item self1) = Raise e →
  merge_weights self path multiplier fs = (Raise e, self1).
Proof.
  intros Hfile Hmerged Hitem. unfold merge_weights. rewrite Hfile.
  rewrite for_each_st_app, Hmerged. simpl.
  destruct (merge_key multiplier item self1) as [r s] eqn:Hm. simpl in Hitem.
  subst r. by rewrite (merge_key_raises _ _ _ _ _ Hm).
Qed.

Lemma merge_weights_stops_at_first_failure_witness :
  merge_weights tuned_wrapper "adapter.pt" 1 {[ "adapter.pt" := mismatched_second ]}
  = (Raise RuntimeError,
     snd (merge_key 1 ("blk/to_q/lora_down.weight", stored_of [1; 3] [1; 1; 1]%Z)
            tuned_wrapper)).
Proof.
  apply (merge_weights_stops_at_first_failure tuned_wrapper "adapter.pt"
           {[ "adapter.pt" := mismatched_second ]} 1
           [("blk/to_q/lora_down.weight", stored_of [1; 3] [1; 1; 1]%Z)]
           ("blk/to_q/lora_up.weight", stored_of [3; 1] [1; 1; 1]%Z) []).
  - reflexivity.
  - reflexivity.
  - reflexivity.
Defined.

(** C7, refuted as stated: the second tensor of the file has the wrong
    shape; the call fails, and the down-projection, merged before the
    failure, has changed. *)
Lemma merge_weights_partial_counterexample :
  let '(r, self') :=
    merge_weights tuned_wrapper "adapter.pt" 1
                  {[ "adapter.pt" := mismatched_second ]} in
  r = Raise RuntimeError
  ∧ elements (Py.get (named_parameters tuned_wrapper) "blk/to_q/lora_down.weight")
    = Some (float32, [1; 3], [1 # 1; 0 # 1; 2 # 1])
  ∧ elements (Py.get (named_parameters self') "blk/to_q/lora_down.weight")
    = Some (float32, [1; 3], [2 # 1; 1 # 1; 3 # 1]).
Proof. vm_compute. repeat split. Qed.

(** A tensor of another shape that broadcasts to the parameter's merges
    without an error. *)
Example merge_weights_broadcasts :
  let '(r, self') :=
    merge_weights tuned_wrapper "adapter.pt" 1
      {[ "adapter.pt" := [("blk/to_q/lora_up.weight", stored_of [1] [10]%Z)] ]} in
  r = Ok tt
  ∧ elements (Py.get (named_parameters self') "blk/to_q/lora_up.weight")
    = Some (float32, [2; 1], [13 # 1; 15 # 1]).
Proof. vm_compute. repeat split. Qed.

(** *** Life cycle *)

(** C9. [activate] on an active wrapper and [prepare_for_training] on one
    that is not active fail with an assertion and leave the wrapper (and
    the trainer) as they were; a wrapper that [activate] returned from is
    active. *)
Theorem lifecycle_order_is_asserted {Ema} (EMA_MODEL : Py.dict string)
    (trim_ema : Ema → Ema) (self : LoRAWWrapper) (training_wrapper : @Trainer Ema)
    (lr : option Qc) :
  (is_active self = true → activate self = (Raise AssertionError, self))
  ∧ (is_active self = false →
     prepare_for_training EMA_MODEL trim_ema self training_wrapper lr
     = (Raise AssertionError, (self, training_wrapper)))
  ∧ (∀ self', activate self = (Ok tt, self') → is_active self' = true).
Proof.
  split; [|split].
  - intros H. unfold activate. by rewrite H.
  - intros H. unfold prepare_for_training. by rewrite H.
  - intros self'. unfold activate. destruct (is_active self); [done|].
    destruct (LoRAWNetwork_activate _ _) as [[[]|e] [n host]]; [|done].
    by intros [= <-].
Qed.

Lemma lifecycle_order_is_asserted_witness :
  activate (snd (activate tuned_wrapper))
  = (Raise AssertionError, snd (activate tuned_wrapper))
  ∧ prepare_for_training no_ema id tuned_wrapper some_trainer None
    = (Raise AssertionError, (tuned_wrapper, some_trainer)).
Proof.
  split.
  - apply (proj1 (lifecycle_order_is_asserted no_ema id (snd (activate tuned_wrapper))
                    some_trainer None)).
    reflexivity.
  - apply (proj1 (proj2 (lifecycle_order_is_asserted no_ema id tuned_wrapper
                           some_trainer None))).
    reflexivity.
Defined.

(** *** Saving *)

(** C10. The [dtype] argument of [save_weights] changes nothing: for any
    two values the file written is the same; it holds the [state_dict()],
    every tensor with the dtype and the elements of its parameter. *)
Theorem save_weights_ignores_dtype self path (d1 d2 : DType) (fs : Files) :
  save_weights self path d1 fs = save_weights self path d2 fs
  ∧ save_weights_default self path fs = save_weights self path d1 fs
  ∧ torch_load (save_weights self path d1 fs) path = Ok (state_dict self)
  ∧ state_dict self
    = map (fun kp => (fst kp, mkStored (dtype (snd kp)) (value (snd kp))))
          (named_parameters self).
Proof.
  repeat split. unfold torch_load, save_weights. by rewrite lookup_insert_eq.
Qed.

(** ** Adapters on a Linear layer: the output right after construction *)

Lemma dot_zeros (r w : list Qc) : Forall (eq 0%Qc) w → dot r w = 0%Qc.
Proof.
  unfold dot. intros Hw. revert r.
  induction Hw as [|v w <- _ IH]; intros [|x r]; simpl; try done.
  rewrite IH. ring.
Qed.

Lemma rows_length {A} (count width : nat) (l : list A) :
  length (rows count width l) = count.
Proof. unfold rows. by rewrite length_map, length_seq. Qed.

Lemma rows_zeros (count width n : nat) :
  Forall (Forall (eq 0%Qc)) (rows count width (repeat 0%Qc n)).
Proof.
  unfold rows. apply Forall_forall. intros r (i & <- & _)%elem_of_map.
  apply Forall_take, Forall_drop, Forall_forall.
  intros v Hv%list_elem_of_In. by apply repeat_spec in Hv.
Qed.

Lemma map_dot_zeros (r : list Qc) (W : list (list Qc)) :
  Forall (Forall (eq 0%Qc)) W → map (dot r) W = repeat 0%Qc (length W).
Proof.
  induction 1 as [|w W Hw _ IH]; simpl; [done|].
  by rewrite dot_zeros, IH.
Qed.

Lemma concat_map_zeros {A} (l : list A) (k : nat) :
  concat (map (fun _ => repeat 0%Qc k) l) = repeat 0%Qc (length l * k).
Proof.
  induction l as [|a l IH]; simpl; [done|]. by rewrite IH, repeat_app.
Qed.

Lemma length_concat_map {A B} (f : A → list B) (l : list A) (k : nat) :
  (∀ a, length (f a) = k) → length (concat (map f l)) = length l * k.
Proof.
  intros Hf. induction l as [|a l IH]; simpl; [done|].
  by rewrite length_app, Hf, IH.
Qed.

Lemma add_scaled_zeros (s m : Qc) (l : list Qc) :
  zip_with Qcplus l
    (map (fun v => (v * m)%Qc) (map (fun v => (v * s)%Qc) (repeat 0%Qc (length l))))
  = l.
Proof.
  induction l as [|x l IH]; simpl; [done|]. rewrite IH. f_equal. ring.
Qed.

(** A bias-free Linear whose weight is zero sends every input of the
    right width to zeros. *)
Lemma Linear_forward_zero (up : nn_Linear) (outf inf : nat) (lead : list nat)
    (lx : Tensor) :
  value (weight up) = mkTensor [outf; inf] (repeat 0%Qc (numel [outf; inf])) →
  bias up = None →
  rev (shape lx) = inf :: lead →
  Linear_forward up lx
  = Ok (mkTensor (rev lead ++ [outf]) (repeat 0%Qc (numel (rev lead) * outf))).
Proof.
  intros Hw Hb Hx. unfold Linear_forward. rewrite Hw, Hb, Hx. simpl.
  rewrite Nat.eqb_refl. f_equal. f_equal.
  rewrite (map_ext _ (fun _ => repeat 0%Qc outf)).
  - by rewrite concat_map_zeros, rows_length.
  - intros r. rewrite map_dot_zeros by apply rows_zeros. by rewrite rows_length.
Qed.

(** A well-formed Linear answers an input of the right width with one
    element per output feature and row. *)
Lemma Linear_forward_wf (l : nn_Linear) (lead : list nat) (x : Tensor) :
  wf_Linear l →
  rev (shape x) = in_features l :: lead →
  ∃ ys, Linear_forward l x = Ok (mkTensor (rev lead ++ [out_features l]) ys)
        ∧ length ys = numel (rev lead) * out_features l.
Proof.
  intros [Hw Hb] Hx. unfold Linear_forward. rewrite Hw, Hx, Nat.eqb_refl.
  eexists. split; [reflexivity|].
  rewrite (length_concat_map _ _ (out_features l)).
  - by rewrite rows_length.
  - intros r. destruct (bias l) as [b|].
    + rewrite length_zip_with, length_map, rows_length. lia.
    + by rewrite length_map, rows_length.
Qed.

Lemma Linear_forward_width (l : nn_Linear) (outf inf : nat) (x : Tensor) :
  shape (value (weight l)) = [outf; inf] →
  (∀ lead, rev (shape x) ≠ inf :: lead) →
  Linear_forward l x = Raise RuntimeError.
Proof.
  intros Hw Hx. unfold Linear_forward. rewrite Hw.
  destruct (rev (shape x)) as [|width lead] eqn:E; [done|].
  destruct (Nat.eqb_spec width inf) as [->|]; [|done]. by destruct (Hx lead).
Qed.

Lemma Qc_ltb_false (a b : Qc) : (b <= a)%Qc → Qc_ltb a b = false.
Proof.
  intros H. unfold Qc_ltb. destruct (Qclt_le_dec a b) as [Hlt|]; [|done].
  by apply Qcle_not_lt in H.
Qed.

Lemma F_dropout_probability (lx : Tensor) (p : Qc) (keep : nat → bool) :
  probability p →
  ∃ d, F_dropout lx p keep = Ok (mkTensor (shape lx) d).
Proof.
  intros [H0 H1]. unfold F_dropout.
  rewrite (Qc_ltb_false p 0 H0), (Qc_ltb_false 1 p H1). simpl. eauto.
Qed.


(** Supplement to C1: for an adapter on a Linear layer the claim holds.
    Right after construction, in either mode and whatever is drawn, the
    adapter returns what the wrapped Linear returns, an error included. *)
Lemma LoRAWLinear_initial_forward name id l mult rank alpha drop mdrop rng a :
  wf_Linear l →
  (∀ p, drop = Some p → probability p) →
  LoRAWLinear_init name (mkHostLayer id (LinearLayer l)) mult rank alpha
    drop mdrop rng = Ok a →
  ∀ mode rnd x, forward (set_training mode a) rnd x = Linear_forward l x.
Proof.
  intros Hwf Hp Hinit mode rnd x.
  unfold LoRAWLinear_init, LoRAWModule_init in Hinit.
  destruct (rank =? 0)%Z; [done|]. cbn [mbind result_bind obj_layer] in Hinit.
  unfold nn_Linear_new in Hinit.
  destruct ((Z.of_nat (in_features l) <? 0)%Z || (rank <? 0)%Z); [done|].
  cbn [mbind result_bind] in Hinit.
  destruct ((rank <? 0)%Z || (Z.of_nat (out_features l) <? 0)%Z); [done|].
  cbn [mbind result_bind] in Hinit. injection Hinit as <-.
  rewrite !Nat2Z.id. set (r := Z.to_nat rank).
  unfold forward.
  cbn [module_dropout training original_forward lora_down lora_up dropout scale
       multiplier set_training with_projections obj_layer Layer_forward].
  destruct (match mdrop with Some p => _ | None => false end); [done|].
  cbn [attr mbind result_bind Layer_forward Layer_set_weight].
  set (scl := (_ / Z2Qc rank)%Qc).
  set (down := mkLinear (in_features l) r _ None).
  set (up := mkLinear r (out_features l) _ None).
  destruct Hwf as [Hw Hb].
  destruct (rev (shape x)) as [|width lead] eqn:Hx.
  { rewrite (Linear_forward_width down r (in_features l)),
            (Linear_forward_width l (out_features l) (in_features l));
      try done; by rewrite Hx. }
  destruct (Nat.eqb_spec width (in_features l)) as [->|Hne].
  2:{ rewrite (Linear_forward_width down r (in_features l)),
              (Linear_forward_width l (out_features l) (in_features l));
        try done; rewrite Hx; congruence. }
  destruct (Linear_forward_wf down lead x) as (ds & -> & _); [by split | done |].
  destruct (Linear_forward_wf l lead x) as (ys & -> & Hys); [by split | done |].
  cbn [mbind result_bind].
  assert (∃ d, match drop with
               | Some p =>
                   if mode
                   then F_dropout (mkTensor (rev lead ++ [out_features down]) ds) p
                          (dropout_keep rnd)
                   else Ok (mkTensor (rev lead ++ [out_features down]) ds)
               | None => Ok (mkTensor (rev lead ++ [out_features down]) ds)
               end = Ok (mkTensor (rev lead ++ [r]) d)) as [d ->].
  { destruct drop as [p|]; [|eauto]. destruct mode; [|eauto].
    apply F_dropout_probability. by apply Hp. }
  cbn [mbind result_bind].
  rewrite (Linear_forward_zero up (out_features l) r lead); try done.
  2:{ cbn [shape]. by rewrite rev_app_distr, rev_involutive. }
  cbn [mbind result_bind].
  rewrite tensor_add_same by done. unfold tensor_scale. cbn [shape data].
  rewrite <- Hys. by rewrite add_scaled_zeros.
Qed.

Lemma set_training_forward (a : LoRAWModule) rnd x :
  forward (set_training (training a) a) rnd x = forward a rnd x.
Proof. reflexivity. Qed.

(** ** Injection *)

(** After [inject], the parent's slot of the adapter's last name segment
    calls the adapter. *)
Lemma inject_call (self : LoRAWModule) (parent : Module) (host : Host)
    (mods : Py.dict LoRAWModule) rnd x :
  Py.get mods (lora_name self) = Some self →
  call_child (inject self parent host) mods rnd (module_id parent)
    (Py.last_segment (Py.split "/" (lora_name self))) x
  = forward self rnd x.
Proof.
  intros Hget. unfold call_child, inject, table_of. simpl.
  rewrite lookup_insert_eq. simpl. rewrite get_set_eq. simpl.
  unfold call_lora, Py.item. by rewrite Hget.
Qed.

(** Every other slot calls what it called before. *)
Lemma inject_call_other (self : LoRAWModule) (parent : Module) (host : Host)
    (mods : Py.dict LoRAWModule) rnd (p : nat) (key : string) x :
  p ≠ module_id parent
  ∨ key ≠ Py.last_segment (Py.split "/" (lora_name self)) →
  call_child (inject self parent host) mods rnd p key x
  = call_child host mods rnd p key x.
Proof.
  intros Hne. unfold call_child, inject, table_of. simpl.
  destruct (decide (p = module_id parent)) as [->|Hp].
  - destruct Hne as [?|Hk]; [done|].
    rewrite lookup_insert_eq. simpl. by rewrite get_set_ne.
  - by rewrite lookup_insert_ne.
Qed.

(** After [inject_forward], calling the wrapped module calls the adapter,
    which still reaches the module's own computation. *)
Lemma inject_forward_call (self self' : LoRAWModule) (host host' : Host)
    (mods : Py.dict LoRAWModule) (original : HostLayer) rnd x :
  original_module self = Some original →
  inject_forward self host = Ok (self', host') →
  Py.get mods (lora_name self) = Some self' →
  call_module host' mods rnd (obj_id original) x = forward self rnd x.
Proof.
  intros Ho Hinj Hget. unfold inject_forward in Hinj. rewrite Ho in Hinj.
  simpl in Hinj. injection Hinj as <- <-.
  unfold call_module. simpl. rewrite lookup_insert_eq.
  unfold call_lora, Py.item. by rewrite Hget.
Qed.

(** Supplement to C1: an adapter on a Linear layer, placed in the graph by
    either injection, leaves what the graph computes at that place
    unchanged. *)
Lemma LoRAWLinear_initial_injected name id l mult rank alpha drop mdrop rng a
    (parent : Module) (host : Host) (mods : Py.dict LoRAWModule) (m : Module) :
  wf_Linear l →
  (∀ p, drop = Some p → probability p) →
  LoRAWLinear_init name (mkHostLayer id (LinearLayer l)) mult rank alpha
    drop mdrop rng = Ok a →
  layers host !! id = Some (LinearLayer l) →
  forward_attr host !! id = None →
  module_id m = id →
  Py.get (table_of host (module_id parent))
         (Py.last_segment (Py.split "/" name)) = Some (SlotModule m) →
  ∀ rnd x,
    (Py.get mods name = Some a →
     call_child (inject a parent host) mods rnd (module_id parent)
       (Py.last_segment (Py.split "/" name)) x
     = call_child host mods rnd (module_id parent)
         (Py.last_segment (Py.split "/" name)) x)
    ∧ (∀ a' host',
         inject_forward a host = Ok (a', host') →
         Py.get mods name = Some a' →
         call_module host' mods rnd id x = call_module host mods rnd id x).
Proof.
  intros Hwf Hp Hinit Hlayer Hattr Hm Hslot rnd x.
  pose proof (LoRAWLinear_initial_forward _ _ _ _ _ _ _ _ _ _ Hwf Hp Hinit true rnd x)
    as Hfwd.
  assert (lora_name a = name ∧ training a = true
          ∧ original_module a = Some (mkHostLayer id (LinearLayer l)))
    as (Hname & Htrain & Horig).
  { unfold LoRAWLinear_init, LoRAWModule_init in Hinit.
    destruct (rank =? 0)%Z; [done|]. cbn [mbind result_bind obj_layer] in Hinit.
    destruct (nn_Linear_new _ rank rng); [|done].
    cbn [mbind result_bind] in Hinit.
    destruct (nn_Linear_new rank _ rng); [|done].
    cbn [mbind result_bind] in Hinit. by injection Hinit as <-. }
  rewrite <- Htrain, set_training_forward in Hfwd.
  assert (call_module host mods rnd id x = Linear_forward l x) as Hbase.
  { unfold call_module. by rewrite Hattr, Hlayer. }
  clear Hinit. subst name. split.
  - intros Hget. rewrite inject_call by done.
    unfold call_child. rewrite Hslot. simpl. by rewrite Hm, Hbase.
  - intros a' host' Hinj Hget. rewrite Hbase, <- Hfwd.
    by apply (inject_forward_call a a' host host' mods
                (mkHostLayer id (LinearLayer l))).
Qed.

(** * Further properties *)

(** ** The scanner *)

Lemma str_contains_app c s1 s2 :
  str_contains c (s1 +:+ s2) = str_contains c s1 || str_contains c s2.
Proof.
  induction s1 as [|c' s1 IH]; simpl; [done|].
  by rewrite IH, orb_assoc.
Qed.

Lemma str_contains_replace_old old new s :
  old ≠ new → str_contains old (Py.replace old new s) = false.
Proof.
  intros Hne. induction s as [|c s IH]; simpl; [done|]. rewrite IH, orb_false_r.
  destruct (Ascii.eqb_spec c old) as [->|Hc].
  - by apply Ascii.eqb_neq.
  - by apply Ascii.eqb_neq.
Qed.

Lemma str_contains_replace_new old new s :
  str_contains old s = true → str_contains new (Py.replace old new s) = true.
Proof.
  induction s as [|c s IH]; simpl; [done|].
  destruct (Ascii.eqb_spec c old) as [->|Hc]; simpl.
  - intros _. by rewrite Ascii.eqb_refl.
  - intros H. by rewrite IH, orb_true_r.
Qed.

(** X1. Every id of the returned mapping is fit to name a module in a
    [ModuleDict]: it holds no ['.'], every one of them having become a
    ['/'], of which there is at least one. *)
Theorem scan_model_ids_are_paths model tb wl bl mm id :
  scan_model model tb wl bl = Ok mm →
  is_Some (Py.get mm id) →
  str_contains "." id = false ∧ str_contains "/" id = true.
Proof.
  intros Hscan Hid.
  destruct (scan_model_lookup _ _ _ _ _ id Hscan) as (ws & Hws & Heq).
  rewrite Heq in Hid. apply get_rev_is_Some in Hid as [info Hin].
  assert ((id, info_module info) ∈ map strip ws) as Hsel.
  { apply elem_of_map. by exists (id, info). }
  rewrite Hws in Hsel.
  apply elem_of_selected_decendants in Hsel as (an & _ & dn & _ & _ & _ & _ & ->).
  unfold qualified_id. split.
  - by apply str_contains_replace_old.
  - apply str_contains_replace_new.
    rewrite !str_contains_app. simpl. by rewrite orb_true_r.
Qed.

Lemma scan_model_ids_are_paths_witness :
  str_contains "." "blk/to_q" = false ∧ str_contains "/" "blk/to_q" = true.
Proof.
  apply (scan_model_ids_are_paths attention_model ["Attention"] (Some ["blk"]) None
           [("blk/to_q", mkInfo (linear_module 2) attention_block);
            ("blk/to_out", mkInfo (linear_module 3) attention_block)] "blk/to_q").
  - vm_compute. reflexivity.
  - vm_compute. eauto.
Defined.

Lemma for_each_unselected tb wl bl (l : list (string * Module)) mm :
  (∀ a, a ∈ l → block_selected tb wl bl (fst a) (snd a) = false) →
  for_each (scan_ancestor tb wl bl) l mm = Ok mm.
Proof.
  induction l as [|[an am] l IH]; intros H; [done|].
  rewrite for_each_cons.
  pose proof (H (an, am) ltac:(left)) as Hsel. simpl in Hsel.
  assert (scan_ancestor tb wl bl mm (an, am) = Ok mm) as ->.
  { unfold scan_ancestor. by rewrite Hsel. }
  simpl. apply IH. intros a Ha. apply H. by right.
Qed.

Lemma for_each_ext {S A} (f g : S → A → result S) (l : list A) (s : S) :
  (∀ s a, f s a = g s a) → for_each f l s = for_each g l s.
Proof.
  intros H. revert s. induction l as [|a l IH]; intros s; [done|].
  rewrite !for_each_cons, H. destruct (g s a); simpl; [apply IH | done].
Qed.

(** X2. Empty lists: without target blocks nothing is selected, and an
    empty whitelist, unlike no whitelist, excludes every block; an empty
    blacklist is the same as none. *)
Theorem scan_model_empty_lists model tb wl bl :
  scan_model model [] wl bl = Ok []
  ∧ scan_model model tb (Some []) bl = Ok []
  ∧ scan_model model tb wl (Some []) = scan_model model tb wl None.
Proof.
  split; [|split].
  - unfold scan_model. apply for_each_unselected. intros [an am] _.
    unfold block_selected. simpl. rewrite bool_decide_eq_false_2; [done|].
    apply not_elem_of_empty.
  - unfold scan_model. apply for_each_unselected. intros [an am] _.
    unfold block_selected. simpl.
    rewrite (bool_decide_eq_true_2 (ancestor_set an ## ∅)) by apply disjoint_empty_r.
    simpl. by rewrite andb_false_r.
  - unfold scan_model. apply for_each_ext. intros mm [an am].
    unfold scan_ancestor, block_selected. simpl.
    by rewrite (bool_decide_eq_true_2 (ancestor_set an ## ∅))
      by apply disjoint_empty_r.
Qed.

Lemma split_without_separator sep s :
  str_contains sep s = false → Py.split sep s = [s].
Proof.
  induction s as [|c s IH]; simpl; [done|].
  intros [Hc Hs]%orb_false_iff. by rewrite Hc, IH.
Qed.

Lemma scan_decendant_dotless an am mm dn dm :
  str_contains "." dn = false →
  scan_decendant an (am, mm) (dn, dm)
  = Ok (am, if targetable dm
            then Py.set mm (qualified_id an dn) (mkInfo dm am)
            else mm).
Proof.
  intros Hdn. unfold scan_decendant, targetable.
  destruct (bool_decide (class_name dm ∈ TargetableModules_members)); [|done].
  by rewrite split_without_separator.
Qed.

Lemma inner_loop_dotless an am ds mm :
  (∀ d, d ∈ ds → targetable (snd d) = true → str_contains "." (fst d) = false) →
  for_each (scan_decendant an) ds (am, mm)
  = Ok (am,
        fold_left assign
          (map (fun d => (qualified_id an (fst d), mkInfo (snd d) am))
               (filter (fun d => targetable (snd d) = true) ds))
          mm).
Proof.
  revert mm. induction ds as [|[dn dm] ds IH]; intros mm H; [done|].
  rewrite for_each_cons.
  destruct (targetable dm) eqn:Ht.
  - rewrite scan_decendant_dotless by (apply (H (dn, dm)); [left | done]).
    rewrite Ht. simpl. rewrite IH by (intros d Hd; apply H; by right).
    by rewrite filter_cons_True by done.
  - assert (scan_decendant an (am, mm) (dn, dm) = Ok (am, mm)) as ->.
    { unfold scan_decendant. unfold targetable in Ht. by rewrite Ht. }
    simpl. rewrite IH by (intros d Hd; apply H; by right).
    by rewrite filter_cons_False by (simpl; rewrite Ht; done).
Qed.

Lemma outer_loop_dotless tb wl bl (ancestors : list (string * Module)) mm :
  (∀ a d, a ∈ ancestors → block_selected tb wl bl (fst a) (snd a) = true →
          d ∈ named_modules (snd a) → targetable (snd d) = true →
          str_contains "." (fst d) = false) →
  for_each (scan_ancestor tb wl bl) ancestors mm
  = Ok (fold_left assign
          (flat_map
             (fun a =>
                if block_selected tb wl bl (fst a) (snd a)
                then map (fun d => (qualified_id (fst a) (fst d),
                                    mkInfo (snd d) (snd a)))
                         (filter (fun d => targetable (snd d) = true)
                                 (named_modules (snd a)))
                else [])
             ancestors)
          mm).
Proof.
  revert mm. induction ancestors as [|[an am] ancestors IH]; intros mm H; [done|].
  rewrite for_each_cons. simpl.
  assert (∀ a d, a ∈ ancestors → block_selected tb wl bl (fst a) (snd a) = true →
                 d ∈ named_modules (snd a) → targetable (snd d) = true →
                 str_contains "." (fst d) = false) as H'.
  { intros a d Ha. apply H. by right. }
  unfold scan_ancestor at 1.
  destruct (block_selected tb wl bl an am) eqn:Hsel.
  - rewrite inner_loop_dotless
      by (intros d Hd; apply (H (an, am) d); [left | done | done]).
    simpl. by rewrite IH, fold_left_app.
  - simpl. by rewrite IH.
Qed.

(** X3. When every targetable decendant of every selected block is named,
    from the block, without a ['.'] (it is a child of the block, or the
    block itself), the scan returns, and the parent recorded with each
    decendant is the selected block it was found in. *)
Theorem scan_model_direct_decendants model tb wl bl :
  (∀ an am dn dm,
     (an, am) ∈ named_modules model →
     spec_selected tb wl bl an am →
     (dn, dm) ∈ named_modules am →
     class_name dm ∈ TargetableModules_members →
     str_contains "." dn = false) →
  ∃ mm,
    scan_model model tb wl bl = Ok mm
    ∧ ∀ id info,
        Py.get mm id = Some info →
        ∃ an dn,
          (an, info_parent info) ∈ named_modules model
          ∧ spec_selected tb wl bl an (info_parent info)
          ∧ (dn, info_module info) ∈ named_modules (info_parent info)
          ∧ id = qualified_id an dn.
Proof.
  intros H. eexists. split.
  - unfold scan_model. apply outer_loop_dotless.
    intros [an am] [dn dm] Ha Hsel Hd Ht. simpl in *.
    apply (H an am dn dm); try done.
    + by apply block_selected_spec.
    + by apply targetable_members.
  - intros id info Hget. unfold assign in Hget.
    rewrite get_assignments in Hget. simpl in Hget.
    destruct (Py.get (rev _) id) as [info'|] eqn:Hrev; [|done].
    injection Hget as ->.
    apply get_Some_elem_of in Hrev. apply (proj1 (elem_of_rev _ _)) in Hrev.
    apply list_elem_of_In, in_flat_map in Hrev as ([an am] & Ha & Hin).
    simpl in Hin.
    destruct (block_selected _ _ _ an am) eqn:Hsel; [|done].
    apply in_map_iff in Hin as ([dn dm] & [= <- <-] & Hd).
    apply list_elem_of_In, list_elem_of_filter in Hd as [_ Hd].
    exists an, dn. simpl. split; [by apply list_elem_of_In|].
    split; [by apply block_selected_spec | done].
Qed.

Lemma scan_model_direct_decendants_witness :
  ∃ mm,
    scan_model attention_model ["Attention"] None None = Ok mm
    ∧ ∀ id info,
        Py.get mm id = Some info →
        ∃ an dn,
          (an, info_parent info) ∈ named_modules attention_model
          ∧ spec_selected ["Attention"] None None an (info_parent info)
          ∧ (dn, info_module info) ∈ named_modules (info_parent info)
          ∧ id = qualified_id an dn.
Proof.
  apply (scan_model_direct_decendants attention_model ["Attention"] None None).
  intros an am dn dm Ha [Hcls _] Hd _.
  apply list_elem_of_In in Ha. vm_compute in Ha.
  destruct Ha as [Ha|[Ha|[Ha|[Ha|[Ha|[]]]]]]; injection Ha as <- <-;
    try (apply elem_of_cons in Hcls as [Hcls|Hcls];
         [discriminate Hcls | by apply elem_of_nil in Hcls]).
  apply list_elem_of_In in Hd. vm_compute in Hd.
  destruct Hd as [Hd|[Hd|[Hd|[Hd|[]]]]]; injection Hd as <- <-; reflexivity.
Defined.

(** ** Adapters on a convolution *)











Lemma conv1d_length_raises c k len e :
  conv1d_length c k len = Raise e → e = RuntimeError.
Proof.
  unfold conv1d_length.
  destruct ((stride c =? 0) || (dilation c =? 0) || (k =? 0)); [by intros [= <-]|].
  destruct (len + 2 * padding c <? dilation c * (k - 1) + 1); [by intros [= <-]|].
  done.
Qed.



Lemma Forall_zeros (n : nat) : Forall (eq 0%Qc) (repeat 0%Qc n).
Proof. apply Forall_forall. intros v Hv%list_elem_of_In. by apply repeat_spec in Hv. Qed.




(** ** Adapters: construction *)


(** ** Adapters: switching off *)



(** ** Adapters: the random draws *)

(** X8. [forward] looks at the random draws only in training mode and
    only when a dropout is configured: in evaluation mode, or with
    neither [dropout] nor [module_dropout], two calls with different
    draws give the same result. *)
Theorem forward_draws_only_when_training (a : LoRAWModule) (rnd rnd' : Randomness)
    (x : Tensor) :
  training a = false ∨ (dropout a = None ∧ module_dropout a = None) →
  forward a rnd x = forward a rnd' x.
Proof.
  intros [Ht|[Hd Hm]]; unfold forward.
  - rewrite Ht. by destruct (module_dropout a), (dropout a).
  - by rewrite Hd, Hm.
Qed.

Lemma forward_draws_only_when_training_witness :
  forward tuned_adapter some_randomness three_ones
  = forward tuned_adapter (mkRandomness 0 (fun _ => true)) three_ones.
Proof. apply forward_draws_only_when_training. left. reflexivity. Defined.

(** ** Injection of [forward] *)

Lemma inject_forward_Ok (a a' : LoRAWModule) (host host' : Host) :
  inject_forward a host = Ok (a', host') →
  original_module a' = None
  ∧ tables host' = tables host ∧ layers host' = layers host.
Proof.
  unfold inject_forward. destruct (original_module a); [|done].
  cbn [attr mbind result_bind]. by intros [= <- <-].
Qed.

Lemma activate_forward_loop (items : list (string * LoRAWModule))
    (self self' : LoRAWNetwork) (host host' : Host) :
  for_each_st
    (fun (item : string * LoRAWModule) (s : LoRAWNetwork * Host) =>
       let '(name, module) := item in
       let '(self, host) := s in
       match inject_forward module host with
       | Ok (module, host) =>
           (Ok tt, (with_lora_modules self (Py.set (lora_modules self) name module),
                    host))
       | Raise e => (Raise e, s)
       end)
    items (self, host) = (Ok tt, (self', host')) →
  tables host' = tables host ∧ layers host' = layers host
  ∧ active self' = active self
  ∧ ((∃ k m rest, lora_modules self = (k, m) :: rest ∧ original_module m = None) →
     ∃ k m rest, lora_modules self' = (k, m) :: rest ∧ original_module m = None).
Proof.
  revert self host. induction items as [|[name module] items IH]; intros self host.
  - by intros [= <- <-].
  - cbn [for_each_st].
    destruct (inject_forward module host) as [[module' host1]|e] eqn:Hinj; [|done].
    destruct (inject_forward_Ok _ _ _ _ Hinj) as (Hnone & Ht & Hl).
    intros (Ht' & Hl' & Ha' & Hfirst)%IH. cbn [with_lora_modules active] in Ha'.
    split; [congruence|]. split; [congruence|]. split; [done|].
    intros (k & m & rest & Hmods & Hm). apply Hfirst.
    cbn [with_lora_modules lora_modules]. rewrite Hmods. cbn [Py.set].
    destruct (String.eqb k name); eauto.
Qed.

(** X9. [activate_forward] works once.  When a first call on a network
    with at least one adapter has returned, the tables and the layers of
    the host graph are as before, the network is marked active, and a
    second call raises [AttributeError] at its first adapter (whose
    [original_module] was deleted) and changes nothing. *)
Theorem activate_forward_once (n n' : LoRAWNetwork) (h h' : Host) :
  lora_modules n ≠ [] →
  LoRAWNetwork_activate_forward (n, h) = (Ok tt, (n', h')) →
  active n' = true
  ∧ tables h' = tables h ∧ layers h' = layers h
  ∧ LoRAWNetwork_activate_forward (n', h') = (Raise AttributeError, (n', h')).
Proof.
  intros Hne. unfold LoRAWNetwork_activate_forward at 1. cbn [fst].
  destruct (lora_modules n) as [|[name module] items] eqn:Hmods; [done|].
  cbn [for_each_st].
  destruct (inject_forward module h) as [[module' h1]|e] eqn:Hinj; [|done].
  destruct (inject_forward_Ok _ _ _ _ Hinj) as (Hnone & Ht & Hl).
  destruct (for_each_st _ items _) as [[[]|e] [n2 h2]] eqn:Hloop; [|done].
  intros [= <- <-].
  apply activate_forward_loop in Hloop as (Ht' & Hl' & _ & Hfirst).
  destruct Hfirst as (k & m & rest & Hmods' & Hm).
  { cbn [with_lora_modules lora_modules]. rewrite Hmods. cbn [Py.set].
    rewrite String.eqb_refl. eauto. }
  split; [done|]. split; [congruence|]. split; [congruence|].
  unfold LoRAWNetwork_activate_forward. cbn [fst with_active lora_modules].
  rewrite Hmods'. cbn [for_each_st]. unfold inject_forward. by rewrite Hm.
Qed.

Lemma activate_forward_once_witness :
  ∃ n' h',
    LoRAWNetwork_activate_forward (tuned_network, target_model tuned_wrapper)
    = (Ok tt, (n', h'))
    ∧ LoRAWNetwork_activate_forward (n', h') = (Raise AttributeError, (n', h')).
Proof.
  eexists _, _. split; [reflexivity|].
  apply (activate_forward_once tuned_network _ (target_model tuned_wrapper)).
  - done.
  - reflexivity.
Defined.
(** * The network *)

(** ** Dicts filled by assignment *)

Lemma keys_set {V} (d : Py.dict V) k (v : V) :
  Py.keys (Py.set d k v)
  = match Py.get d k with
    | Some _ => Py.keys d
    | None => Py.keys d ++ [k]
    end.
Proof.
  unfold Py.keys. induction d as [|[k0 v0] d IH]; simpl; [done|].
  destruct (String.eqb k0 k); simpl; [done|]. rewrite IH.
  by destruct (Py.get d k).
Qed.

Lemma NoDup_keys_set {V} (d : Py.dict V) k (v : V) :
  NoDup (Py.keys d) → NoDup (Py.keys (Py.set d k v)).
Proof.
  intros Hd. rewrite keys_set. destruct (Py.get d k) eqn:Hget; [done|].
  apply NoDup_app. split; [done|]. split; [|apply NoDup_singleton].
  intros k' Hk' ->%list_elem_of_singleton. by apply get_None_keys in Hget.
Qed.

(** ** Construction *)

Lemma LoRAWLinear_init_built name original mult rank alpha drop mdrop rng a :
  LoRAWLinear_init name original mult rank alpha drop mdrop rng = Ok a →
  (0 < rank)%Z ∧ built name original mult rank drop mdrop a.
Proof.
  unfold LoRAWLinear_init, LoRAWModule_init.
  destruct (Z.eqb_spec rank 0) as [->|Hne]; [done|].
  cbn [mbind result_bind]. destruct (obj_layer original) as [l|c] eqn:Hlayer; [|done].
  cbn [mbind result_bind]. unfold nn_Linear_new.
  destruct (Z.ltb_spec rank 0) as [Hneg|Hpos].
  { by rewrite orb_true_r. }
  destruct (_ || false); [done|]. cbn [mbind result_bind].
  destruct (false || _); [done|]. cbn [mbind result_bind].
  intros [= <-]. split; [lia|]. unfold built. rewrite Hlayer.
  repeat (split; [reflexivity|]). eexists _, _.
  repeat (split; [reflexivity|]). apply Forall_zeros.
Qed.

Lemma LoRAWConv1d_init_built name original mult rank alpha drop mdrop rng a :
  LoRAWConv1d_init name original mult rank alpha drop mdrop rng = Ok a →
  (0 < rank)%Z ∧ built name original mult rank drop mdrop a.
Proof.
  unfold LoRAWConv1d_init, LoRAWModule_init.
  destruct (Z.eqb_spec rank 0) as [->|Hne]; [done|].
  cbn [mbind result_bind]. destruct (obj_layer original) as [l|c] eqn:Hlayer; [done|].
  cbn [mbind result_bind]. unfold nn_Conv1d_new.
  destruct (Z.ltb_spec rank 0) as [Hneg|Hpos].
  { by rewrite orb_true_r. }
  destruct (_ || false); [done|]. cbn [mbind result_bind].
  destruct (false || _); [done|]. cbn [mbind result_bind].
  intros [= <-]. split; [lia|]. unfold built. rewrite Hlayer.
  repeat (split; [reflexivity|]). eexists _, _.
  repeat (split; [reflexivity|]). apply Forall_zeros.
Qed.

Lemma construct_built layers name module mult rank alpha drop mdrop rng a :
  construct layers name module mult rank alpha drop mdrop rng = Ok a →
  ∃ layer, layers !! module_id module = Some layer
    ∧ (0 < rank)%Z
    ∧ built name (mkHostLayer (module_id module) layer) mult rank drop mdrop a.
Proof.
  unfold construct. destruct (TargetableModules_lookup _) as [member|]; [|done].
  destruct (layers !! module_id module) as [layer|]; [|done].
  cbn [attr mbind result_bind]. intros H. exists layer. split; [done|].
  destruct member;
    [by apply LoRAWLinear_init_built in H | by apply LoRAWConv1d_init_built in H].
Qed.

Lemma network_init_loop layers mult rank alpha drop mdrop (rng : string → Draws)
    (tm : Py.dict target_info) :
  ∀ mods0 mods,
    for_each
      (fun (mods : Py.dict LoRAWModule) (item : string * target_info) =>
         let '(name, info) := item in
         m ← construct layers name (info_module info) mult rank alpha drop mdrop
               (rng name);
         Ok (Py.set mods name m))
      tm mods0 = Ok mods →
    (NoDup (Py.keys mods0) → NoDup (Py.keys mods))
    ∧ (∀ name, name ∈ Py.keys mods ↔ name ∈ Py.keys mods0 ∨ name ∈ Py.keys tm)
    ∧ (NoDup (Py.keys tm) → (∀ k, k ∈ Py.keys tm → k ∉ Py.keys mods0) →
       Py.keys mods = Py.keys mods0 ++ Py.keys tm)
    ∧ (tm ≠ [] → (0 < rank)%Z)
    ∧ ∀ name a,
        Py.get mods name = Some a →
        Py.get mods0 name = Some a
        ∨ ∃ info layer,
            (name, info) ∈ tm
            ∧ layers !! module_id (info_module info) = Some layer
            ∧ built name (mkHostLayer (module_id (info_module info)) layer)
                mult rank drop mdrop a.
Proof.
  induction tm as [|[k info] tm IH]; intros mods0 mods.
  - intros [= <-]. split; [done|]. split.
    { intros name. split; [by left | intros [?|?%elem_of_nil]; done]. }
    split; [intros _ _; by rewrite app_nil_r|]. split; [done|]. by left.
  - rewrite for_each_cons.
    destruct (construct _ _ _ _ _ _ _ _ _) as [m|e] eqn:Hm; [|done].
    cbn [mbind result_bind].
    apply construct_built in Hm as (layer & Hlayer & Hrank & Hbuilt).
    intros (Hnd & Hkeys & Horder & _ & Hget)%IH.
    split; [intros ?; by apply Hnd, NoDup_keys_set|].
    split.
    { intros name. rewrite Hkeys, <- !get_is_Some_keys, get_set. cbn [Py.get].
      destruct (String.eqb_spec k name) as [->|Hne]; [|done].
      split; [intros _; right; eauto | intros _; left; eauto]. }
    split.
    { cbn [Py.keys map fst]. intros [Hk Htm]%NoDup_cons Hfresh.
      rewrite Horder; [|done|].
      - rewrite keys_set.
        assert (Py.get mods0 k = None) as ->.
        { apply get_None_keys, Hfresh. left. }
        by rewrite <- app_assoc.
      - intros k' Hk'. rewrite <- get_None_keys, get_set.
        destruct (String.eqb_spec k k') as [->|Hne]; [done|].
        apply get_None_keys, Hfresh. by right. }
    split; [done|].
    intros name a Ha. destruct (Hget name a Ha) as [H0|(info' & layer' & Hin & H)].
    + rewrite get_set in H0. destruct (String.eqb_spec k name) as [->|Hne].
      * injection H0 as <-. right. exists info, layer. split; [left | done].
      * by left.
    + right. exists info', layer'. split; [by right | done].
Qed.


(** ** Activation *)

Lemma inject_table (a : LoRAWModule) (parent : Module) (h : Host) (p : nat)
    (key : string) :
  Py.get (table_of (inject a parent h) p) key
  = if decide (p = module_id parent
               ∧ key = Py.last_segment (Py.split "/" (lora_name a)))
    then Some (SlotLoRAW (lora_name a))
    else Py.get (table_of h p) key.
Proof.
  unfold inject, table_of. cbn [tables].
  destruct (decide (p = module_id parent)) as [->|Hp].
  - rewrite lookup_insert_eq. cbn [default from_option id]. rewrite get_set.
    destruct (String.eqb_spec (Py.last_segment (Py.split "/" (lora_name a))) key)
      as [<-|Hk].
    + by rewrite decide_True.
    + rewrite decide_False; [done|]. intros [_ ->]. done.
  - rewrite lookup_insert_ne by done. rewrite decide_False; [done|]. by intros [? _].
Qed.

Lemma activate_loop (tm : Py.dict target_info) (items : Py.dict LoRAWModule) :
  ∀ h r h',
    for_each_st
      (fun (item : string * LoRAWModule) (host : Host) =>
         let '(name, module) := item in
         match Py.item tm name with
         | Ok info => (Ok tt, inject module (info_parent info) host)
         | Raise e => (Raise e, host)
         end)
      items h = (r, h') →
    layers h' = layers h ∧ forward_attr h' = forward_attr h
    ∧ match r with
      | Ok _ => ∀ name, name ∈ Py.keys items → is_Some (Py.get tm name)
      | Raise e => e = KeyError ∧ ∃ name, name ∈ Py.keys items ∧ Py.get tm name = None
      end.
Proof.
  induction items as [|[name a] items IH]; intros h r h'.
  - intros [= <- <-]. split; [done|]. split; [done|]. by intros name ?%elem_of_nil.
  - cbn [for_each_st]. unfold Py.item at 1.
    destruct (Py.get tm name) as [info|] eqn:Hget.
    + intros (Hl & Hf & Hr)%IH. split; [done|]. split; [done|].
      destruct r as [[]|e].
      * intros name' [->|?]%elem_of_cons; [eauto | by apply Hr].
      * destruct Hr as (-> & name' & Hin & Hnone). split; [done|].
        exists name'. split; [by right | done].
    + intros [= <- <-]. split; [done|]. split; [done|]. split; [done|].
      exists name. split; [left | done].
Qed.

(** X11. [LoRAWNetwork.activate] touches only child tables: the layers,
    the [forward] attributes and the adapters are as before.  It returns,
    with the network marked active, exactly when every adapter's name is
    a key of the target map; otherwise it raises [KeyError] and the
    network is not marked. *)
Theorem LoRAWNetwork_activate_outcome (tm : Py.dict target_info) (n : LoRAWNetwork)
    (h : Host) :
  match LoRAWNetwork_activate tm (n, h) with
  | (r, (n', h')) =>
      layers h' = layers h ∧ forward_attr h' = forward_attr h
      ∧ lora_modules n' = lora_modules n
      ∧ match r with
        | Ok _ =>
            n' = with_active n true
            ∧ ∀ name, name ∈ Py.keys (lora_modules n) → is_Some (Py.get tm name)
        | Raise e =>
            e = KeyError ∧ n' = n
            ∧ ∃ name, name ∈ Py.keys (lora_modules n) ∧ Py.get tm name = None
        end
  end.
Proof.
  unfold LoRAWNetwork_activate.
  destruct (for_each_st _ (lora_modules n) h) as [r h'] eqn:Hloop.
  apply activate_loop in Hloop as (Hl & Hf & Hr).
  destruct r as [[]|e]; repeat split; try done; by destruct Hr.
Qed.

Lemma activate_loop_untouched (tm : Py.dict target_info) (p : nat) (key : string)
    (items : Py.dict LoRAWModule) :
  (∀ name a, (name, a) ∈ items → lora_name a = name) →
  (∀ name, name ∈ Py.keys items → slot_of tm name ≠ Some (p, key)) →
  ∀ h r h',
    for_each_st
      (fun (item : string * LoRAWModule) (host : Host) =>
         let '(name, module) := item in
         match Py.item tm name with
         | Ok info => (Ok tt, inject module (info_parent info) host)
         | Raise e => (Raise e, host)
         end)
      items h = (r, h') →
    Py.get (table_of h' p) key = Py.get (table_of h p) key.
Proof.
  induction items as [|[name a] items IH]; intros Hnames Hslot h r h'.
  - by intros [= <- <-].
  - cbn [for_each_st]. unfold Py.item at 1.
    destruct (Py.get tm name) as [info|] eqn:Hget; [|by intros [= <- <-]].
    intros ->%IH.
    + rewrite inject_table. rewrite decide_False; [done|].
      rewrite (Hnames name a) by left. intros [-> ->].
      apply (Hslot name); [left|]. unfold slot_of. by rewrite Hget.
    + intros name' a' Hin. apply Hnames. by right.
    + intros name' Hin. apply Hslot. by right.
Qed.

Lemma activate_loop_placed (tm : Py.dict target_info) (p : nat) (key nm : string)
    (items : Py.dict LoRAWModule) :
  (∀ name a, (name, a) ∈ items → lora_name a = name) →
  (∀ name, name ∈ Py.keys items → slot_of tm name = Some (p, key) → name = nm) →
  ∀ h h',
    for_each_st
      (fun (item : string * LoRAWModule) (host : Host) =>
         let '(name, module) := item in
         match Py.item tm name with
         | Ok info => (Ok tt, inject module (info_parent info) host)
         | Raise e => (Raise e, host)
         end)
      items h = (Ok tt, h') →
    Py.get (table_of h p) key = Some (SlotLoRAW nm)
    ∨ (nm ∈ Py.keys items ∧ slot_of tm nm = Some (p, key)) →
    Py.get (table_of h' p) key = Some (SlotLoRAW nm).
Proof.
  induction items as [|[name a] items IH]; intros Hnames Hslot h h'.
  - intros [= <-] [?|[?%elem_of_nil _]]; done.
  - cbn [for_each_st]. unfold Py.item at 1.
    destruct (Py.get tm name) as [info|] eqn:Hget; [|done].
    intros Hloop Hstart.
    assert (∀ name' a', (name', a') ∈ items → lora_name a' = name') as Hnames'.
    { intros name' a' Hin. apply Hnames. by right. }
    assert (∀ name', name' ∈ Py.keys items → slot_of tm name' = Some (p, key) →
                     name' = nm) as Hslot'.
    { intros name' Hin. apply Hslot. by right. }
    apply (IH Hnames' Hslot' _ _ Hloop).
    rewrite inject_table, (Hnames name a) by left.
    destruct (decide (p = module_id (info_parent info)
                      ∧ key = Py.last_segment (Py.split "/" name))) as [[-> ->]|Hne].
    + left. f_equal. f_equal. apply Hslot; [left|]. unfold slot_of. by rewrite Hget.
    + destruct Hstart as [?|[[->|Hin]%elem_of_cons Hnm]]; [by left | | by right].
      unfold slot_of in Hnm. cbn [fst] in Hnm. rewrite Hget in Hnm. injection Hnm as <- <-.
      by destruct Hne.
Qed.

(** X12. After [LoRAWNetwork.activate] has returned, a child slot that
    exactly one adapter is aimed at (the table of its recorded parent, at
    the last segment of its name) holds that adapter, and a slot no
    adapter is aimed at holds what it held before. *)
Theorem activate_places_adapters (tm : Py.dict target_info) (n n' : LoRAWNetwork)
    (h h' : Host) (p : nat) (key : string) :
  (∀ name a, (name, a) ∈ lora_modules n → lora_name a = name) →
  LoRAWNetwork_activate tm (n, h) = (Ok tt, (n', h')) →
  (∀ name,
     name ∈ Py.keys (lora_modules n) →
     slot_of tm name = Some (p, key) →
     (∀ name', name' ∈ Py.keys (lora_modules n) →
               slot_of tm name' = Some (p, key) → name' = name) →
     Py.get (table_of h' p) key = Some (SlotLoRAW name))
  ∧ ((∀ name, name ∈ Py.keys (lora_modules n) → slot_of tm name ≠ Some (p, key)) →
     Py.get (table_of h' p) key = Py.get (table_of h p) key).
Proof.
  intros Hnames. unfold LoRAWNetwork_activate.
  destruct (for_each_st _ (lora_modules n) h) as [[[]|e] h1] eqn:Hloop; [|done].
  intros [= <- <-]. split.
  - intros name Hin Hslot Hone.
    apply (activate_loop_placed tm p key name _ Hnames Hone _ _ Hloop). by right.
  - intros Hnone. by apply (activate_loop_untouched tm p key _ Hnames Hnone _ _ _ Hloop).
Qed.

Lemma activate_places_adapters_witness :
  Py.get (table_of (snd (snd (LoRAWNetwork_activate (target_map tuned_wrapper)
                                (tuned_network, target_model tuned_wrapper))))
            1) "to_q"
  = Some (SlotLoRAW "blk/to_q").
Proof.
  destruct (LoRAWNetwork_activate _ _) as [r [n' h']] eqn:H.
  assert (r = Ok tt) as -> by (by vm_compute in H; injection H as <- _).
  cbn [snd].
  assert (∀ name a, (name, a) ∈ lora_modules tuned_network → lora_name a = name)
    as Hnames.
  { intros name a Hin. apply list_elem_of_singleton in Hin. by injection Hin as -> ->. }
  apply (proj1 (activate_places_adapters (target_map tuned_wrapper) tuned_network n'
                  (target_model tuned_wrapper) h' 1 "to_q" Hnames H) "blk/to_q").
  - left.
  - reflexivity.
  - intros name' Hin _. by apply list_elem_of_singleton in Hin.
Defined.
(** * The wrapper *)

(** ** A wrapper as constructed *)

Lemma NoDup_keys_assignments (ws : list (string * target_info))
    (d : Py.dict target_info) :
  NoDup (Py.keys d) → NoDup (Py.keys (fold_left assign ws d)).
Proof.
  revert d. induction ws as [|w ws IH]; intros d Hd; [done|].
  cbn [fold_left]. apply IH. by apply NoDup_keys_set.
Qed.

Lemma scan_model_NoDup model tb wl bl mm :
  scan_model model tb wl bl = Ok mm → NoDup (Py.keys mm).
Proof.
  intros (ws & -> & _)%scan_model_assignments.
  apply NoDup_keys_assignments, NoDup_nil_2.
Qed.

Lemma LoRAWWrapper_init_Ok model layers mt tb wl mult rank alpha drop mdrop rng w :
  LoRAWWrapper_init model layers mt tb wl mult rank alpha drop mdrop rng = Ok w →
  ∃ tm n,
    scan_model model tb wl None = Ok tm
    ∧ LoRAWNetwork_init tm layers mult rank alpha drop mdrop rng = Ok n
    ∧ w = mkWrapper (host_of model layers) mt tb wl false false tm n None.
Proof.
  unfold LoRAWWrapper_init.
  destruct (scan_model model tb wl None) as [tm|e] eqn:Hscan; [|done].
  cbn [mbind result_bind].
  destruct (LoRAWNetwork_init _ _ _ _ _ _ _ _) as [n|e] eqn:Hnet; [|done].
  cbn [mbind result_bind].
  destruct (for_each _ (lora_modules n) tt) as [[]|e]; [|done].
  cbn [mbind result_bind]. intros [= <-]. by exists tm, n.
Qed.

Lemma LoRAWNetwork_init_built_from tm layers mult rank alpha drop mdrop rng n :
  LoRAWNetwork_init tm layers mult rank alpha drop mdrop rng = Ok n →
  active n = false ∧ built_from tm layers mult rank drop mdrop (lora_modules n).
Proof.
  unfold LoRAWNetwork_init.
  destruct (for_each _ _ _) as [mods|e] eqn:Hloop; [|done].
  cbn [mbind result_bind]. intros [= <-]. cbn [active lora_modules].
  apply network_init_loop in Hloop as (Hnd & Hkeys & Horder & Hrank & Hget).
  split; [done|]. split; [apply Hnd, NoDup_nil_2|].
  split.
  { intros name. rewrite Hkeys. split; [intros [?%elem_of_nil|?]; done | by right]. }
  split.
  { intros Htm. apply Horder; [done|]. intros k _ ?%elem_of_nil. done. }
  intros name a Ha. by destruct (Hget name a Ha) as [?|?].
Qed.

(** X13. A wrapper as constructed can be activated: [activate] returns,
    marks the wrapper and its network active, and leaves the adapters
    (and so the parameters) as they were; a second [activate] fails its
    assertion and changes nothing. *)
Theorem fresh_wrapper_activates model layers mt tb wl mult rank alpha drop mdrop rng w :
  LoRAWWrapper_init model layers mt tb wl mult rank alpha drop mdrop rng = Ok w →
  ∃ w',
    activate w = (Ok tt, w')
    ∧ is_active w' = true
    ∧ net w' = with_active (net w) true
    ∧ named_parameters w' = named_parameters w
    ∧ activate w' = (Raise AssertionError, w').
Proof.
  intros (tm & n & Hscan & Hnet & ->)%LoRAWWrapper_init_Ok.
  apply LoRAWNetwork_init_built_from in Hnet as (_ & _ & Hkeys & _).
  unfold activate at 1. cbn [is_active target_map net target_model].
  unfold LoRAWNetwork_activate.
  destruct (for_each_st _ (lora_modules n) (host_of model layers)) as [r h'] eqn:Hloop.
  apply activate_loop in Hloop as (_ & _ & Hr).
  destruct r as [[]|e].
  - eexists. split; [reflexivity|]. by repeat split.
  - destruct Hr as (_ & name & Hin & Hnone).
    apply Hkeys, get_is_Some_keys in Hin. rewrite Hnone in Hin. by destruct Hin.
Qed.

Lemma fresh_wrapper_activates_witness :
  ∃ w w',
    LoRAWWrapper_init attention_model {[ 2 := obj_layer linear_3_2;
                                         3 := obj_layer linear_3_2 ]}
      None ["Attention"] None 1 2 (Some 1%Qc) None None (fun _ => counting) = Ok w
    ∧ activate w = (Ok tt, w')
    ∧ activate w' = (Raise AssertionError, w').
Proof.
  destruct (LoRAWWrapper_init _ _ _ _ _ _ _ _ _ _ _) as [w|e] eqn:H;
    [|by vm_compute in H].
  destruct (fresh_wrapper_activates _ _ _ _ _ _ _ _ _ _ _ _ H)
    as (w' & Hact & _ & _ & _ & Hagain).
  by exists w, w'.
Defined.
Lemma string_app_assoc (a b c : string) : (a +:+ b) +:+ c = a +:+ (b +:+ c).
Proof.
  induction a as [|ch a IH]; [done|].
  change (String ch ((a +:+ b) +:+ c) = String ch (a +:+ (b +:+ c))). by f_equal.
Qed.

Lemma NoDup_keys_get {V} (d : Py.dict V) k (v : V) :
  NoDup (Py.keys d) → (k, v) ∈ d → Py.get d k = Some v.
Proof.
  induction d as [|[k0 v0] d IH]; [by intros _ ?%elem_of_nil|].
  cbn [Py.keys map fst]. intros [Hk0 Hd]%NoDup_cons [[= -> ->]|Hin]%elem_of_cons.
  - cbn [Py.get]. by rewrite String.eqb_refl.
  - cbn [Py.get]. destruct (String.eqb_spec k0 k) as [->|Hne]; [|by apply IH].
    destruct Hk0. apply get_is_Some_keys. by apply (elem_of_get_is_Some _ _ v).
Qed.

Lemma built_parameters name original mult rank drop mdrop a :
  built name original mult rank drop mdrop a →
  ∃ p, module_parameters (name, a) = adapter_entries (name, p) ∧ initial_weights p.
Proof.
  intros (_ & _ & _ & _ & _ & _ & _ & _ & d & u & Hd & Hu & Hbd & Hbu & Hgd & Hgu & Hz).
  exists (Layer_weight d, Layer_weight u). split; [|done].
  rewrite module_parameters_eq, Hd, Hu. unfold Layer_parameters, adapter_entries.
  rewrite Hbd, Hbu. cbn [fst snd app]. by rewrite !string_app_assoc.
Qed.

Lemma built_from_parameters (tm : Py.dict target_info) (layers : gmap nat Layer)
    mult rank drop mdrop (mods : Py.dict LoRAWModule) :
  NoDup (Py.keys mods) →
  (∀ name a, Py.get mods name = Some a →
     ∃ info layer,
       (name, info) ∈ tm
       ∧ layers !! module_id (info_module info) = Some layer
       ∧ built name (mkHostLayer (module_id (info_module info)) layer)
           mult rank drop mdrop a) →
  ∃ ws, map fst ws = Py.keys mods
        ∧ flat_map module_parameters mods = flat_map adapter_entries ws
        ∧ Forall initial_weights (map snd ws).
Proof.
  induction mods as [|[name a] mods IH]; intros Hnd Hbuilt.
  - by exists [].
  - cbn [Py.keys map fst] in Hnd. apply NoDup_cons in Hnd as [Hname Hnd].
    destruct (Hbuilt name a) as (info & layer & _ & _ & Hb).
    { cbn [Py.get]. by rewrite String.eqb_refl. }
    apply built_parameters in Hb as (p & Hp & Hinit).
    destruct (IH Hnd) as (ws & Hkeys & Hflat & Hall).
    { intros name' a' Hget. apply Hbuilt. cbn [Py.get].
      destruct (String.eqb_spec name name') as [<-|Hne]; [|done].
      destruct Hname. apply get_is_Some_keys. eauto. }
    exists ((name, p) :: ws). cbn [map fst snd flat_map Py.keys].
    split; [by rewrite Hkeys|]. split; [by rewrite Hp, Hflat|]. by constructor.
Qed.

(** X14. The parameters of a wrapper as constructed, which are what
    [save_weights] writes: for every key [id] of the target map, in the
    order of the keys, [id/lora_down.weight] and then [id/lora_up.weight],
    and nothing else; every weight takes gradients and every up weight is
    all zeros. *)
Theorem fresh_wrapper_parameters model layers mt tb wl mult rank alpha drop mdrop rng w :
  LoRAWWrapper_init model layers mt tb wl mult rank alpha drop mdrop rng = Ok w →
  ∃ ws, map fst ws = Py.keys (target_map w)
        ∧ named_parameters w = flat_map adapter_entries ws
        ∧ Forall initial_weights (map snd ws).
Proof.
  intros (tm & n & Hscan & Hnet & ->)%LoRAWWrapper_init_Ok.
  apply scan_model_NoDup in Hscan.
  apply LoRAWNetwork_init_built_from in Hnet as (_ & Hnd & _ & Horder & Hbuilt).
  rewrite named_parameters_modules. cbn [net target_map].
  rewrite <- (Horder Hscan). by apply (built_from_parameters tm layers mult rank drop mdrop).
Qed.

Lemma fresh_wrapper_parameters_witness :
  ∃ w ws,
    LoRAWWrapper_init attention_model {[ 2 := obj_layer linear_3_2;
                                         3 := obj_layer linear_3_2 ]}
      None ["Attention"] None 1 2 (Some 1%Qc) None None (fun _ => counting) = Ok w
    ∧ map fst ws = ["blk/to_q"; "blk/to_out"]
    ∧ named_parameters w = flat_map adapter_entries ws
    ∧ Forall initial_weights (map snd ws).
Proof.
  destruct (LoRAWWrapper_init _ _ _ _ _ _ _ _ _ _ _) as [w|e] eqn:H;
    [|by vm_compute in H].
  destruct (fresh_wrapper_parameters _ _ _ _ _ _ _ _ _ _ _ _ H) as (ws & Hk & Hp & Hi).
  exists w, ws. split; [done|]. split; [|done].
  rewrite Hk. vm_compute in H. by injection H as <-.
Defined.
(** ** Preparing for training *)

Lemma Layer_parameters_map (f : nn_Parameter → nn_Parameter) (key : string)
    (m : Layer) :
  Layer_parameters (key, Layer_map_parameters f m)
  = map (fun kp => (fst kp, f (snd kp))) (Layer_parameters (key, m)).
Proof.
  unfold Layer_parameters. destruct m as [l|c]; cbn [Layer_map_parameters Layer_weight
    Layer_bias weight bias conv_weight conv_bias].
  - by destruct (bias l).
  - by destruct (conv_bias c).
Qed.

Lemma module_parameters_map (f : nn_Parameter → nn_Parameter) (name : string)
    (a : LoRAWModule) :
  module_parameters (name, map_projections (Layer_map_parameters f) a)
  = map (fun kp => (fst kp, f (snd kp))) (module_parameters (name, a)).
Proof.
  rewrite !module_parameters_eq. cbn [map_projections lora_down lora_up].
  rewrite map_app.
  destruct (lora_down a) as [d|], (lora_up a) as [u|];
    cbn [fmap option_fmap option_map]; by rewrite ?Layer_parameters_map.
Qed.

Lemma flat_map_parameters_map (f : nn_Parameter → nn_Parameter)
    (mods : Py.dict LoRAWModule) :
  flat_map module_parameters
    (map (fun item => (fst item, map_projections (Layer_map_parameters f) (snd item)))
         mods)
  = map (fun kp => (fst kp, f (snd kp))) (flat_map module_parameters mods).
Proof.
  induction mods as [|[name a] mods IH]; [done|].
  cbn [map flat_map fst snd]. by rewrite module_parameters_map, IH, map_app.
Qed.

Lemma Layer_forward_map (f : nn_Parameter → nn_Parameter) (m : Layer) (x : Tensor) :
  (∀ p, value (f p) = value p) →
  Layer_forward (Layer_map_parameters f m) x = Layer_forward m x.
Proof.
  intros Hf. destruct m as [l|c]; cbn [Layer_map_parameters Layer_forward].
  - unfold Linear_forward. cbn [weight bias]. rewrite Hf.
    destruct (bias l) as [b|]; cbn [fmap option_fmap option_map]; by rewrite ?Hf.
  - unfold Conv1d_forward, conv1d_sample, conv1d_length.
    cbn [conv_weight conv_bias stride padding dilation]. rewrite Hf.
    destruct (conv_bias c) as [b|]; cbn [fmap option_fmap option_map]; by rewrite ?Hf.
Qed.

Lemma prepare_for_training_state {Ema} (EMA_MODEL : Py.dict string)
    (trim_ema : Ema → Ema) (self : LoRAWWrapper) (tw : @Trainer Ema) (lr : option Qc)
    r self' tw' :
  is_active self = true →
  prepare_for_training EMA_MODEL trim_ema self tw lr = (r, (self', tw')) →
  ∃ trainable attrs,
    self' = mkWrapper
              (mkHost (tables (target_model self))
                 (Layer_map_parameters (set_requires_grad false)
                    <$> layers (target_model self))
                 (forward_attr (target_model self)))
              (model_type self) (target_blocks self) (component_whitelist self)
              (is_active self) trainable (target_map self)
              (mkNetwork (active (net self)) (net_multiplier (net self))
                 (net_lora_dim (net self)) (net_alpha (net self))
                 (net_dropout (net self)) (net_module_dropout (net self))
                 (map (fun item =>
                         (fst item,
                          map_projections (Layer_map_parameters (set_requires_grad true))
                            (snd item)))
                      (lora_modules (net self)))
                 (trainer_device tw))
              (Some (default (trainer_lr tw) lr))
    ∧ tw' = mkTrainer (trainer_device tw) (trainer_lr tw) loraw_configure_optimizers
              attrs
    ∧ match r with
      | Ok _ =>
          trainable = true
          ∧ match model_type self ≫= Py.get EMA_MODEL with
            | Some attribute =>
                ∃ ema, Py.get (trainer_attrs tw) attribute = Some ema
                       ∧ attrs = Py.set (trainer_attrs tw) attribute (trim_ema ema)
            | None => attrs = trainer_attrs tw
            end
      | Raise e =>
          e = AttributeError ∧ trainable = is_trainable self
          ∧ attrs = trainer_attrs tw
          ∧ ∃ attribute, model_type self ≫= Py.get EMA_MODEL = Some attribute
                         ∧ Py.get (trainer_attrs tw) attribute = None
      end.
Proof.
  intros Hactive. unfold prepare_for_training. rewrite Hactive. cbn [negb].
  assert (match lr with Some v => v | None => trainer_lr tw end
          = default (trainer_lr tw) lr) as -> by by destruct lr.
  destruct (model_type self ≫= Py.get EMA_MODEL) as [attribute|].
  - cbn [trainer_attrs]. destruct (Py.get (trainer_attrs tw) attribute) as [ema|] eqn:He.
    + intros [= <- <- <-]. eexists _, _. split; [reflexivity|]. split; [reflexivity|].
      split; [done|]. by exists ema.
    + intros [= <- <- <-]. eexists _, _. split; [reflexivity|]. split; [reflexivity|].
      split; [done|]. split; [done|]. split; [done|]. by exists attribute.
  - intros [= <- <- <-]. eexists _, _. split; [reflexivity|]. split; [reflexivity|].
    by split.
Qed.
(** X15. [prepare_for_training] on an active wrapper, whether it returns
    or raises: every layer of the target model has its weight and bias
    frozen and computes what it computed; every adapter parameter takes
    gradients and keeps its name, dtype and elements, so the
    [state_dict()] is unchanged. *)
Theorem prepare_for_training_freezes {Ema} (EMA_MODEL : Py.dict string)
    (trim_ema : Ema → Ema) (self : LoRAWWrapper) (tw : @Trainer Ema) (lr : option Qc)
    r self' tw' :
  is_active self = true →
  prepare_for_training EMA_MODEL trim_ema self tw lr = (r, (self', tw')) →
  (∀ id l',
     layers (target_model self') !! id = Some l' →
     ∃ l, layers (target_model self) !! id = Some l
          ∧ requires_grad (Layer_weight l') = false
          ∧ (∀ b, Layer_bias l' = Some b → requires_grad b = false)
          ∧ ∀ x, Layer_forward l' x = Layer_forward l x)
  ∧ named_parameters self'
    = map (fun kp => (fst kp, set_requires_grad true (snd kp))) (named_parameters self)
  ∧ state_dict self' = state_dict self.
Proof.
  intros Hactive H.
  destruct (prepare_for_training_state _ _ _ _ _ _ _ _ Hactive H)
    as (trainable & attrs & -> & _ & _).
  assert (named_parameters
            (mkWrapper
               (mkHost (tables (target_model self))
                  (Layer_map_parameters (set_requires_grad false)
                     <$> layers (target_model self))
                  (forward_attr (target_model self)))
               (model_type self) (target_blocks self) (component_whitelist self)
               (is_active self) trainable (target_map self)
               (mkNetwork (active (net self)) (net_multiplier (net self))
                  (net_lora_dim (net self)) (net_alpha (net self))
                  (net_dropout (net self)) (net_module_dropout (net self))
                  (map (fun item =>
                          (fst item,
                           map_projections
                             (Layer_map_parameters (set_requires_grad true))
                             (snd item)))
                       (lora_modules (net self)))
                  (trainer_device tw))
               (Some (default (trainer_lr tw) lr)))
          = map (fun kp => (fst kp, set_requires_grad true (snd kp)))
                (named_parameters self)) as Hnp.
  { rewrite !named_parameters_modules. cbn [net lora_modules].
    apply flat_map_parameters_map. }
  split; [|split; [done|]].
  - cbn [target_model layers]. intros id l'. rewrite lookup_fmap.
    destruct (layers (target_model self) !! id) as [l|]; [|done].
    cbn [fmap option_fmap option_map]. intros [= <-]. exists l. split; [done|].
    split; [by destruct l|]. split.
    + destruct l as [l|c]; cbn [Layer_map_parameters Layer_bias bias conv_bias].
      * destruct (bias l); [|done]. by intros b [= <-].
      * destruct (conv_bias c); [|done]. by intros b [= <-].
    + intros x. by apply Layer_forward_map.
  - unfold state_dict. rewrite Hnp, map_map. by apply map_ext.
Qed.

Lemma prepare_for_training_freezes_witness :
  state_dict (fst (snd (prepare_for_training no_ema id (snd (activate tuned_wrapper))
                          some_trainer None)))
  = state_dict (snd (activate tuned_wrapper)).
Proof.
  destruct (prepare_for_training _ _ _ _ _) as [r [self' tw']] eqn:H. cbn [fst snd].
  by destruct (prepare_for_training_freezes no_ema id (snd (activate tuned_wrapper))
                 some_trainer None r self' tw' eq_refl H) as (_ & _ & Hsd).
Defined.


(** ** Saving, loading and merging *)

Lemma filter_none {A} (P : A → Prop) `{∀ x, Decision (P x)} (l : list A) :
  (∀ x, x ∈ l → ¬ P x) → filter P l = [].
Proof.
  induction l as [|x l IH]; intros Hl; [done|].
  rewrite filter_cons_False by (apply Hl; left). apply IH.
  intros y Hy. apply Hl. by right.
Qed.

(** X17. Saving then loading.  When the wrapper that loads has the keys
    of the wrapper that saved, with parameters of the same shapes,
    [load_weights] of the file that [save_weights] wrote returns with no
    missing and no unexpected key, and every parameter has taken the
    elements of the saved one of its key, keeping its own dtype and
    gradient flag. *)
Theorem save_then_load (self saved : LoRAWWrapper) (path : string) (d : DType)
    (fs : Files) :
  (∀ key, key ∈ Py.keys (named_parameters self)
          ↔ key ∈ Py.keys (named_parameters saved)) →
  (∀ key p q,
     (key, p) ∈ named_parameters self →
     Py.get (named_parameters saved) key = Some q →
     shape (value q) = shape (value p)) →
  ∃ self',
    load_weights self path (save_weights saved path d fs)
    = (Ok (mkIncompatibleKeys [] []), self')
    ∧ ∀ key p,
        Py.get (named_parameters self) key = Some p →
        ∃ q, Py.get (named_parameters saved) key = Some q
             ∧ Py.get (named_parameters self') key = Some (set_value (value q) p).
Proof.
  intros Hkeys Hshape. unfold load_weights, save_weights, torch_load.
  rewrite lookup_insert_eq. unfold load_state_dict.
  destruct (load_keys (state_dict saved) (named_parameters self) self [])
    as (self' & Hfold & Hnp).
  { intros key p input Hin. rewrite state_dict_get.
    destruct (Py.get (named_parameters saved) key) as [q|] eqn:Hq; [|done].
    intros [= <-]. by apply (Hshape key p q). }
  rewrite Hfold. cbn [app andb negb].
  rewrite !filter_none.
  - exists self'. split; [done|]. intros key p Hp.
    assert (is_Some (Py.get (named_parameters saved) key)) as [q Hq].
    { apply get_is_Some_keys, Hkeys, get_is_Some_keys. eauto. }
    exists q. split; [done|].
    rewrite Hnp, get_loaded, state_dict_get, Hq, Hp. cbn [fmap option_fmap option_map].
    rewrite bool_decide_eq_true_2; [done|]. apply get_is_Some_keys. eauto.
  - intros key Hin Hnone. apply get_None_keys in Hnone. apply Hnone, Hkeys.
    unfold state_dict, Py.keys in Hin. rewrite map_map in Hin. by cbn [fst] in Hin.
  - intros key Hin Hnone. apply get_None_keys in Hnone. apply Hnone.
    unfold state_dict, Py.keys. rewrite map_map. cbn [fst]. by apply Hkeys.
Qed.

Lemma save_then_load_witness :
  ∃ self',
    load_weights tuned_wrapper "adapter.pt"
      (save_weights retuned_wrapper "adapter.pt" float16 ∅)
    = (Ok (mkIncompatibleKeys [] []), self')
    ∧ ∀ key p,
        Py.get (named_parameters tuned_wrapper) key = Some p →
        ∃ q, Py.get (named_parameters retuned_wrapper) key = Some q
             ∧ Py.get (named_parameters self') key = Some (set_value (value q) p).
Proof.
  apply save_then_load.
  - intros key. reflexivity.
  - intros key p q Hin Hget.
    apply elem_of_cons in Hin as [Hin|Hin].
    + injection Hin as -> ->. by injection Hget as <-.
    + apply list_elem_of_singleton in Hin. injection Hin as -> ->.
      by injection Hget as <-.
Defined.






(** ** Loading a file that does not fit *)

Lemma load_keys_any weights (own : Py.dict nn_Parameter) :
  NoDup (Py.keys own) →
  ∀ self missing mismatch,
    (∀ key p, (key, p) ∈ own → Py.get (named_parameters self) key = Some p) →
    ∃ self' missing' mismatch',
      fold_left (fun acc o => load_key weights o acc) own (self, missing, mismatch)
      = (self', missing', mismatch')
      ∧ (mismatch' = true
         ↔ mismatch = true
           ∨ ∃ key p input,
               (key, p) ∈ own ∧ Py.get weights key = Some input
               ∧ shape (stored_value input) ≠ shape (value p))
      ∧ ∀ key,
          Py.get (named_parameters self') key
          = match Py.get own key with
            | Some p => Some (fitted weights key p)
            | None => Py.get (named_parameters self) key
            end.
Proof.
  induction own as [|[k p] own IH]; intros Hnd self missing mismatch Hown.
  - exists self, missing, mismatch. split; [done|]. split; [|done].
    split; [by left|]. intros [?|(? & ? & ? & []%elem_of_nil & _)]. done.
  - cbn [Py.keys map fst] in Hnd. apply NoDup_cons in Hnd as [Hk Hnd].
    apply get_None_keys in Hk.
    pose proof (Hown k p ltac:(left)) as Hp.
    cbn [fold_left]. unfold load_key at 2.
    destruct (Py.get weights k) as [input|] eqn:Hin.
    + destruct (decide (shape (stored_value input) = shape (value p))) as [Hfit|Hfit].
      * destruct (IH Hnd (update_parameter k (set_value (stored_value input)) self)
                     missing mismatch)
          as (self' & missing' & mismatch' & Hfold & Hflag & Hget).
        { intros key q Hq. rewrite named_parameters_update, get_alter.
          destruct (String.eqb_spec k key) as [<-|Hne]; [|apply Hown; by right].
          apply elem_of_get_is_Some in Hq. rewrite Hk in Hq. by destruct Hq. }
        exists self', missing', mismatch'. split; [done|]. split.
        { rewrite Hflag. split; intros [?|(key & q & i & Hq & Hi & Hs)]; try by left.
          - right. exists key, q, i. split; [by right | done].
          - right. exists key, q, i. split; [|done].
            apply elem_of_cons in Hq as [[= -> ->]|?]; [|done].
            rewrite Hin in Hi. injection Hi as <-. done. }
        intros key. rewrite Hget. cbn [Py.get].
        destruct (String.eqb_spec k key) as [<-|Hne].
        -- rewrite Hk, named_parameters_update, get_alter, String.eqb_refl, Hp.
           unfold fitted. by rewrite Hin, decide_True.
        -- destruct (Py.get own key); [done|].
           rewrite named_parameters_update, get_alter.
           by destruct (String.eqb_spec k key).
      * destruct (IH Hnd self missing true)
          as (self' & missing' & mismatch' & Hfold & Hflag & Hget).
        { intros key q Hq. apply Hown. by right. }
        exists self', missing', mismatch'. split; [done|]. split.
        { rewrite Hflag. split; [|by left]. intros _. right.
          exists k, p, input. split; [left | done]. }
        intros key. rewrite Hget. cbn [Py.get].
        destruct (String.eqb_spec k key) as [<-|Hne]; [|done].
        rewrite Hk, Hp. unfold fitted. by rewrite Hin, decide_False.
    + destruct (IH Hnd self (missing ++ [k]) mismatch)
        as (self' & missing' & mismatch' & Hfold & Hflag & Hget).
      { intros key q Hq. apply Hown. by right. }
      exists self', missing', mismatch'. split; [done|]. split.
      { rewrite Hflag. split; intros [?|(key & q & i & Hq & Hi & Hs)]; try by left.
        - right. exists key, q, i. split; [by right | done].
        - right. exists key, q, i. split; [|done].
          apply elem_of_cons in Hq as [[= -> ->]|?]; [|done]. congruence. }
      intros key. rewrite Hget. cbn [Py.get].
      destruct (String.eqb_spec k key) as [<-|Hne]; [|done].
      rewrite Hk, Hp. unfold fitted. by rewrite Hin.
Qed.

(** X20. Loading is not all or nothing.  When some tensor of the file
    has another shape than the parameter of its key, [load_weights]
    raises [RuntimeError], although it loads with [strict=False]; by then
    every parameter whose key is in the file with the parameter's shape
    has taken the file's elements, and every other parameter has kept
    its own. *)
Theorem load_weights_mismatch (self : LoRAWWrapper) (path : string) (fs : Files)
    (weights : Py.dict Stored) :
  torch_load fs path = Ok weights →
  NoDup (Py.keys (named_parameters self)) →
  (∃ key p input,
     (key, p) ∈ named_parameters self ∧ Py.get weights key = Some input
     ∧ shape (stored_value input) ≠ shape (value p)) →
  ∃ self',
    load_weights self path fs = (Raise RuntimeError, self')
    ∧ ∀ key p,
        Py.get (named_parameters self) key = Some p →
        Py.get (named_parameters self') key = Some (fitted weights key p).
Proof.
  intros Hfile Hnd Hbad. unfold load_weights. rewrite Hfile. unfold load_state_dict.
  destruct (load_keys_any weights (named_parameters self) Hnd self [] false)
    as (self' & missing' & mismatch' & Hfold & Hflag & Hget).
  { intros key p. by apply NoDup_keys_get. }
  rewrite Hfold. assert (mismatch' = true) as -> by (apply Hflag; by right).
  exists self'. split; [done|]. intros key p Hp. by rewrite Hget, Hp.
Qed.

Lemma load_weights_mismatch_witness :
  ∃ self',
    load_weights tuned_wrapper "adapter.pt" {[ "adapter.pt" := mismatched_file ]}
    = (Raise RuntimeError, self')
    ∧ ∀ key p,
        Py.get (named_parameters tuned_wrapper) key = Some p →
        Py.get (named_parameters self') key = Some (fitted mismatched_file key p).
Proof.
  apply load_weights_mismatch.
  - reflexivity.
  - change (NoDup ["blk/to_q/lora_down.weight"; "blk/to_q/lora_up.weight"]).
    apply NoDup_cons. split; [|apply NoDup_singleton].
    by intros ?%list_elem_of_singleton.
  - eexists "blk/to_q/lora_up.weight", _, _. split; [right; left|].
    split; [reflexivity|]. done.
Defined.
(** ** Construction of the wrapper, by the rank *)





(** * Creation from a config *)

Lemma construct_raises layers name module mult rank alpha drop mdrop rng e :
  construct layers name module mult rank alpha drop mdrop rng = Raise e →
  e ≠ AssertionError.
Proof.
  unfold construct. destruct (TargetableModules_lookup _) as [member|]; [|by intros [= <-]].
  destruct (layers !! module_id module) as [layer|]; [|by intros [= <-]].
  cbn [attr mbind result_bind].
  destruct member; unfold LoRAWLinear_init, LoRAWConv1d_init, LoRAWModule_init;
    (destruct (rank =? 0)%Z; [by intros [= <-]|]);
    cbn [mbind result_bind obj_layer];
    destruct layer as [l|c]; cbn [mbind result_bind]; try (by intros [= <-]).
  - destruct (nn_Linear_new (Z.of_nat _) rank rng) as [down|e1] eqn:Hd.
    2:{ unfold nn_Linear_new in Hd. destruct (_ || _); [|done].
        injection Hd as <-. by intros [= <-]. }
    cbn [mbind result_bind].
    destruct (nn_Linear_new rank _ rng) as [up|e2] eqn:Hu; [done|].
    unfold nn_Linear_new in Hu. destruct (_ || _); [|done].
    injection Hu as <-. by intros [= <-].
  - destruct (nn_Conv1d_new (Z.of_nat _) rank _ _ _ rng) as [down|e1] eqn:Hd.
    2:{ unfold nn_Conv1d_new in Hd. destruct (_ || _); [|done].
        injection Hd as <-. by intros [= <-]. }
    cbn [mbind result_bind].
    destruct (nn_Conv1d_new rank _ _ _ _ rng) as [up|e2] eqn:Hu; [done|].
    unfold nn_Conv1d_new in Hu. destruct (_ || _); [|done].
    injection Hu as <-. by intros [= <-].
Qed.

Lemma LoRAWWrapper_init_raises model layers mt tb wl mult rank alpha drop mdrop rng e :
  LoRAWWrapper_init model layers mt tb wl mult rank alpha drop mdrop rng = Raise e →
  e ≠ AssertionError.
Proof.
  unfold LoRAWWrapper_init.
  destruct (scan_model model tb wl None) as [tm|e0] eqn:Hscan.
  2:{ apply scan_model_raises in Hscan as ->. by intros [= <-]. }
  cbn [mbind result_bind].
  destruct (LoRAWNetwork_init _ _ _ _ _ _ _ _) as [n|e0] eqn:Hnet.
  2:{ intros [= <-]. unfold LoRAWNetwork_init in Hnet.
      destruct (for_each _ _ _) as [mods|e1] eqn:Hloop; [done|].
      injection Hnet as <-. revert Hloop.
      apply (for_each_raises _ (fun e => e ≠ AssertionError)).
      intros mods [name info] e2.
      destruct (construct _ _ _ _ _ _ _ _ _) as [m|e3] eqn:Hm; [done|].
      intros [= <-]. by apply construct_raises in Hm. }
  cbn [mbind result_bind].
  destruct (for_each _ (lora_modules n) tt) as [[]|e0] eqn:Hloop; [done|].
  intros [= <-]. revert Hloop.
  apply (for_each_raises _ (fun e => e ≠ AssertionError)).
  intros [] [name a] e1. cbn [snd].
  destruct (lora_down a); cbn [attr mbind result_bind]; [|by intros [= <-]].
  destruct (lora_up a); cbn [attr mbind result_bind]; [done | by intros [= <-]].
Qed.

(** X22. What [create_loraw_from_config] requires.  Without the key
    ["loraw"] or the key ["model_type"] it raises [KeyError].  With both,
    it fails an assertion exactly when one of [target_blocks],
    [component_whitelist], [multiplier], [rank] and [alpha] is missing (or
    [None]), whatever the model; [dropout] and [module_dropout] may be
    left out. *)
Theorem create_loraw_from_config_requires (cfg : config) (model : Module)
    (layers : gmap nat Layer) (rng : string → Draws) :
  match cfg_loraw cfg, cfg_model_type cfg with
  | Some c, Some _ =>
      create_loraw_from_config cfg model layers rng = Raise AssertionError
      ↔ cfg_target_blocks c = None ∨ cfg_component_whitelist c = None
        ∨ cfg_multiplier c = None ∨ cfg_rank c = None ∨ cfg_alpha c = None
  | _, _ => create_loraw_from_config cfg model layers rng = Raise KeyError
  end.
Proof.
  unfold create_loraw_from_config.
  destruct (cfg_loraw cfg) as [c|]; [|done].
  destruct (cfg_model_type cfg) as [mt|]; [|done].
  cbn [subscript mbind result_bind].
  destruct (cfg_target_blocks c) as [tb|]; [|by split; [left|]].
  destruct (cfg_component_whitelist c) as [wl|]; [|by split; [right; left|]].
  destruct (cfg_multiplier c) as [mult|]; [|by split; [right; right; left|]].
  destruct (cfg_rank c) as [rank|]; [|by split; [right; right; right; left|]].
  destruct (cfg_alpha c) as [alpha|]; [|by split; [right; right; right; right|]].
  cbn [required mbind result_bind]. split.
  - intros H. by apply LoRAWWrapper_init_raises in H.
  - intros [?|[?|[?|[?|?]]]]; done.
Qed.
Lemma network_init_constructed layers mult rank alpha drop mdrop
    (rng : string → Draws) (tm : Py.dict target_info) :
  ∀ mods0 mods,
    for_each
      (fun (mods : Py.dict LoRAWModule) (item : string * target_info) =>
         let '(name, info) := item in
         m ← construct layers name (info_module info) mult rank alpha drop mdrop
               (rng name);
         Ok (Py.set mods name m))
      tm mods0 = Ok mods →
    ∀ name a,
      Py.get mods name = Some a →
      Py.get mods0 name = Some a
      ∨ ∃ info, construct layers name (info_module info) mult rank alpha drop mdrop
                  (rng name) = Ok a.
Proof.
  induction tm as [|[k info] tm IH]; intros mods0 mods.
  - intros [= <-] name a Ha. by left.
  - rewrite for_each_cons.
    destruct (construct _ _ _ _ _ _ _ _ _) as [m|e] eqn:Hm; [|done].
    cbn [mbind result_bind]. intros Hloop name a Ha.
    destruct (IH _ _ Hloop name a Ha) as [H0|?]; [|by right].
    rewrite get_set in H0. destruct (String.eqb_spec k name) as [->|Hne]; [|by left].
    injection H0 as <-. right. by exists info.
Qed.

Lemma created_adapters cfg model layers rng w c name a :
  create_loraw_from_config cfg model layers rng = Ok w →
  cfg_loraw cfg = Some c →
  Py.get (lora_modules (net w)) name = Some a →
  ∃ module mult rank alpha,
    cfg_alpha c = Some alpha
    ∧ construct layers name module mult rank (Some alpha)
        (unless_zero (cfg_dropout c)) (unless_zero (cfg_module_dropout c))
        (rng name) = Ok a.
Proof.
  unfold create_loraw_from_config. intros H Hc. rewrite Hc in H. revert H.
  destruct (cfg_model_type cfg) as [mt|]; [|done].
  cbn [subscript mbind result_bind].
  destruct (cfg_target_blocks c) as [tb|]; [|done].
  destruct (cfg_component_whitelist c) as [wl|]; [|done].
  destruct (cfg_multiplier c) as [mult|]; [|done].
  destruct (cfg_rank c) as [rank|]; [|done].
  destruct (cfg_alpha c) as [alpha|]; [|done].
  cbn [required mbind result_bind].
  intros (tm & n & _ & Hnet & ->)%LoRAWWrapper_init_Ok. cbn [net].
  unfold LoRAWNetwork_init in Hnet.
  destruct (for_each _ _ _) as [mods|e] eqn:Hloop; [|done].
  injection Hnet as <-. cbn [lora_modules]. intros Ha.
  destruct (network_init_constructed _ _ _ _ _ _ _ _ _ _ Hloop name a Ha)
    as [?|[info Hm]]; [done|].
  by exists (info_module info), mult, rank, alpha.
Qed.

Lemma construct_scale layers name module mult rank alpha drop mdrop rng a :
  construct layers name module mult rank alpha drop mdrop rng = Ok a →
  rank ≠ 0%Z
  ∧ scale a
    = (match alpha with
       | None => Z2Qc rank
       | Some al => if Qc_eq_bool al 0 then Z2Qc rank else al
       end / Z2Qc rank)%Qc.
Proof.
  unfold construct. destruct (TargetableModules_lookup _) as [member|]; [|done].
  destruct (layers !! module_id module) as [layer|]; [|done].
  cbn [attr mbind result_bind]. intros H.
  assert (∃ init, (init = LoRAWLinear_init ∨ init = LoRAWConv1d_init)
                  ∧ init name (mkHostLayer (module_id module) layer) mult rank alpha
                      drop mdrop rng = Ok a) as (init & Hinit & Ha).
  { destruct member; eauto. }
  destruct (subclass_init_scale init _ _ _ _ _ _ _ _ _ Hinit Ha) as (base & Hbase & ->).
  unfold LoRAWModule_init in Hbase.
  destruct (Z.eqb_spec rank 0) as [|Hne]; [done|]. by injection Hbase as <-.
Qed.

(** X23. Zeros in the config.  In a wrapper that
    [create_loraw_from_config] has returned, a [dropout] of 0 is no
    dropout and a [module_dropout] of 0 is no module dropout, as if the
    key were left out; and with an [alpha] of 0 every adapter has the
    scale 1.  With both dropouts zero or left out, [forward] of every
    adapter gives the same result in training and in evaluation mode,
    whatever the random draws. *)
Theorem create_loraw_from_config_zeros cfg model layers rng w c name a :
  create_loraw_from_config cfg model layers rng = Ok w →
  cfg_loraw cfg = Some c →
  Py.get (lora_modules (net w)) name = Some a →
  (cfg_dropout c = None ∨ cfg_dropout c = Some 0%Qc → dropout a = None)
  ∧ (cfg_module_dropout c = None ∨ cfg_module_dropout c = Some 0%Qc →
     module_dropout a = None)
  ∧ (cfg_alpha c = Some 0%Qc → scale a = 1%Qc)
  ∧ (cfg_dropout c = None ∨ cfg_dropout c = Some 0%Qc →
     cfg_module_dropout c = None ∨ cfg_module_dropout c = Some 0%Qc →
     ∀ mode rnd rnd' x, forward (set_training mode a) rnd x = forward a rnd' x).
Proof.
  intros Hw Hc Ha.
  destruct (created_adapters _ _ _ _ _ _ _ _ Hw Hc Ha)
    as (module & mult & rank & alpha & Halpha & Hm).
  destruct (construct_scale _ _ _ _ _ _ _ _ _ _ Hm) as (Hrank & Hscale).
  destruct (construct_built _ _ _ _ _ _ _ _ _ _ Hm)
    as (layer & _ & _ & _ & _ & _ & _ & _ & Hdrop & Hmdrop & _).
  assert (cfg_dropout c = None ∨ cfg_dropout c = Some 0%Qc → dropout a = None) as Hd.
  { rewrite Hdrop. by intros [->| ->]. }
  assert (cfg_module_dropout c = None ∨ cfg_module_dropout c = Some 0%Qc →
          module_dropout a = None) as Hmd.
  { rewrite Hmdrop. by intros [->| ->]. }
  split; [done|]. split; [done|]. split.
  - rewrite Halpha. intros [= ->]. rewrite Hscale.
    replace (Qc_eq_bool 0 0) with true by reflexivity.
    pose proof (Z2Qc_nonzero _ Hrank). by field.
  - intros H1 H2 mode rnd rnd' x. unfold forward.
    cbn [set_training module_dropout dropout training lora_down lora_up
         original_forward scale multiplier].
    by rewrite (Hd H1), (Hmd H2).
Qed.

Lemma create_loraw_from_config_zeros_witness :
  ∃ w a,
    create_loraw_from_config attention_config attention_model attention_layers
      (fun _ => counting) = Ok w
    ∧ Py.get (lora_modules (net w)) "blk/to_q" = Some a
    ∧ dropout a = None ∧ scale a = 1%Qc.
Proof.
  destruct (create_loraw_from_config _ _ _ _) as [w|e] eqn:H; [|by vm_compute in H].
  destruct (Py.get (lora_modules (net w)) "blk/to_q") as [a|] eqn:Ha.
  2:{ vm_compute in H. injection H as <-. by vm_compute in Ha. }
  destruct (create_loraw_from_config_zeros attention_config attention_model
              attention_layers (fun _ => counting) w _ "blk/to_q" a H eq_refl Ha)
    as (Hd & _ & Hs & _).
  exists w, a. split; [done|]. split; [done|]. split; [apply Hd; by right | by apply Hs].
Defined.

(** X24. An empty whitelist closes the config.  [component_whitelist] is
    required, and with the empty list no block is selected: for every
    model, and even with rank 0, [create_loraw_from_config] returns a
    wrapper with an empty target map, no adapter and no parameter. *)
Theorem create_loraw_from_config_empty_whitelist cfg model layers rng c mt :
  cfg_loraw cfg = Some c →
  cfg_model_type cfg = Some mt →
  cfg_component_whitelist c = Some [] →
  is_Some (cfg_target_blocks c) → is_Some (cfg_multiplier c) →
  is_Some (cfg_rank c) → is_Some (cfg_alpha c) →
  ∃ w, create_loraw_from_config cfg model layers rng = Ok w
       ∧ target_map w = [] ∧ lora_modules (net w) = [] ∧ named_parameters w = []
       ∧ is_active w = false.
Proof.
  intros Hc Hmt Hwl [tb Htb] [mult Hmult] [rank Hrank] [alpha Halpha].
  unfold create_loraw_from_config.
  rewrite Hc, Hmt. cbn [subscript mbind result_bind].
  rewrite Htb, Hwl, Hmult, Hrank, Halpha. cbn [required mbind result_bind].
  unfold LoRAWWrapper_init.
  assert (scan_model model tb (Some []) None = Ok []) as ->.
  { unfold scan_model. apply for_each_unselected. intros [an am] _.
    unfold block_selected. simpl.
    rewrite (bool_decide_eq_true_2 (ancestor_set an ## ∅)) by apply disjoint_empty_r.
    simpl. by rewrite andb_false_r. }
  cbn [mbind result_bind]. eexists. split; [reflexivity|]. done.
Qed.

Lemma create_loraw_from_config_empty_whitelist_witness :
  ∃ w, create_loraw_from_config closed_config attention_model attention_layers
         (fun _ => counting) = Ok w
       ∧ target_map w = [] ∧ lora_modules (net w) = [] ∧ named_parameters w = []
       ∧ is_active w = false.
Proof.
  apply (create_loraw_from_config_empty_whitelist closed_config attention_model
           attention_layers (fun _ => counting) _ None eq_refl eq_refl eq_refl);
    by eexists.
Defined.
(** * From the scan to the activated graph *)

(** ** Ids as paths *)

Lemma replace_app old new s1 s2 :
  Py.replace old new (s1 +:+ s2) = Py.replace old new s1 +:+ Py.replace old new s2.
Proof.
  induction s1 as [|c s1 IH]; [done|].
  change (String (if Ascii.eqb c old then new else c) (Py.replace old new (s1 +:+ s2))
          = String (if Ascii.eqb c old then new else c)
              (Py.replace old new s1 +:+ Py.replace old new s2)).
  by rewrite IH.
Qed.

Lemma replace_without old new s :
  str_contains old s = false → Py.replace old new s = s.
Proof.
  induction s as [|c s IH]; simpl; [done|].
  intros [Hc Hs]%orb_false_iff. by rewrite Hc, IH.
Qed.

Lemma split_nonempty sep s : Py.split sep s ≠ [].
Proof.
  destruct s as [|c s]; simpl; [done|].
  destruct (Ascii.eqb c sep); [done|]. by destruct (Py.split sep s).
Qed.

Lemma split_app_sep sep s1 s2 :
  Py.split sep (s1 +:+ String sep s2) = Py.split sep s1 ++ Py.split sep s2.
Proof.
  induction s1 as [|c s1 IH].
  - change (Py.split sep (String sep s2) = [EmptyString] ++ Py.split sep s2).
    simpl. by rewrite Ascii.eqb_refl.
  - change (Py.split sep (String c (s1 +:+ String sep s2))
            = Py.split sep (String c s1) ++ Py.split sep s2).
    simpl. destruct (Ascii.eqb c sep); [by rewrite IH|].
    rewrite IH. pose proof (split_nonempty sep s1).
    by destruct (Py.split sep s1).
Qed.

Lemma last_segment_qualified_id an dn :
  str_contains "." dn = false → str_contains "/" dn = false →
  Py.last_segment (Py.split "/" (qualified_id an dn)) = dn.
Proof.
  intros Hdot Hslash. unfold qualified_id, Py.last_segment.
  rewrite replace_app.
  change ("." +:+ dn) with (String "." dn).
  change (Py.replace "." "/" (String "." dn)) with (String "/" (Py.replace "." "/" dn)).
  rewrite (replace_without "." "/" dn) by done. rewrite split_app_sep.
  rewrite (split_without_separator "/" dn) by done. apply last_last.
Qed.
(** ** The target map of plain targets *)

Lemma map_flat_map {A B C} (g : B → C) (f : A → list B) (l : list A) :
  map g (flat_map f l) = flat_map (fun a => map g (f a)) l.
Proof.
  induction l as [|a l IH]; [done|]. cbn [flat_map]. by rewrite map_app, IH.
Qed.

Lemma elem_of_targets tb wl bl model a d :
  (a, d) ∈ targets tb wl bl model
  ↔ a ∈ named_modules model
    ∧ block_selected tb wl bl (fst a) (snd a) = true
    ∧ d ∈ named_modules (snd a)
    ∧ targetable (snd d) = true.
Proof.
  unfold targets. rewrite list_elem_of_In, in_flat_map. split.
  - intros (a' & Ha & Hin). destruct (block_selected _ _ _ _ _) eqn:Hsel; [|done].
    apply in_map_iff in Hin as (d' & [= -> ->] & Hd).
    apply list_elem_of_In, list_elem_of_filter in Hd as [Ht Hd].
    by rewrite list_elem_of_In.
  - intros (Ha & Hsel & Hd & Ht). exists a. split; [by apply list_elem_of_In|].
    rewrite Hsel. apply in_map, list_elem_of_In, list_elem_of_filter. by split.
Qed.

Lemma scan_model_plain tb wl bl model :
  (∀ t, t ∈ targets (list_to_set tb) (list_to_set <$> wl) (list_to_set <$> bl) model →
        str_contains "." (fst (snd t)) = false) →
  scan_model model tb wl bl
  = Ok (fold_left assign
          (map (fun t => (target_id t, mkInfo (snd (snd t)) (snd (fst t))))
               (targets (list_to_set tb) (list_to_set <$> wl) (list_to_set <$> bl)
                  model))
          []).
Proof.
  intros Hplain. unfold scan_model. rewrite outer_loop_dotless.
  - f_equal. f_equal. unfold targets. rewrite map_flat_map.
    apply flat_map_ext. intros a. destruct (block_selected _ _ _ _ _); [|done].
    by rewrite map_map.
  - intros a d Ha Hsel Hd Ht. apply (Hplain (a, d)). by apply elem_of_targets.
Qed.

Lemma get_assigned {V} (ws : list (string * V)) (d : Py.dict V) k v :
  NoDup (map fst ws) → (k, v) ∈ ws →
  Py.get (fold_left (fun m w => Py.set m (fst w) (snd w)) ws d) k = Some v.
Proof.
  intros Hnd Hin. rewrite get_assignments.
  rewrite (NoDup_keys_get (rev ws) k v); [done | |].
  - unfold Py.keys. rewrite map_rev. by apply NoDup_ListNoDup, NoDup_rev, NoDup_ListNoDup.
  - by apply elem_of_rev.
Qed.

Lemma keys_assigned {V} (ws : list (string * V)) k :
  is_Some (Py.get (fold_left (fun m w => Py.set m (fst w) (snd w)) ws []) k) →
  k ∈ map fst ws.
Proof.
  rewrite get_assignments. cbn [Py.get].
  destruct (Py.get (rev ws) k) as [v|] eqn:Hget; [|by intros [? ?]].
  intros _. apply get_Some_elem_of in Hget. apply (proj1 (elem_of_rev _ _)) in Hget.
  apply list_elem_of_In. apply in_map_iff. exists (k, v).
  split; [done | by apply list_elem_of_In].
Qed.
(** ** Activation end to end *)

Lemma plain_target_map tb wl model tm :
  plain_targets (targets (list_to_set tb) (list_to_set <$> wl) None model) →
  scan_model model tb wl None = Ok tm →
  (∀ t, t ∈ targets (list_to_set tb) (list_to_set <$> wl) None model →
        slot_of tm (target_id t) = Some (module_id (snd (fst t)), fst (snd t)))
  ∧ (∀ name, name ∈ Py.keys tm →
             ∃ t, t ∈ targets (list_to_set tb) (list_to_set <$> wl) None model
                  ∧ name = target_id t).
Proof.
  intros (Hplain & Hnd & Hid) Hscan.
  rewrite (scan_model_plain tb wl None model) in Hscan
    by (intros t Ht; by destruct (Hplain t Ht)).
  injection Hscan as <-. cbn [fmap option_fmap option_map]. split.
  - intros t Ht. unfold slot_of, assign.
    rewrite (get_assigned _ _ (target_id t) (mkInfo (snd (snd t)) (snd (fst t)))).
    + cbn [fmap option_fmap option_map info_parent]. f_equal. f_equal.
      destruct (Hplain t Ht). by apply last_segment_qualified_id.
    + by rewrite map_map.
    + apply list_elem_of_In, in_map_iff. exists t. split; [done | by apply list_elem_of_In].
  - intros name Hname. apply get_is_Some_keys in Hname.
    apply keys_assigned in Hname. rewrite map_map in Hname. cbn [fst] in Hname.
    apply list_elem_of_In, in_map_iff in Hname as (t & <- & Ht).
    exists t. split; [by apply list_elem_of_In | done].
Qed.

(** X25. From the scan to the activated graph.  When the targets are
    children of their blocks with plain names, no two get the same id and
    no block object is met under two names, then [activate] on the
    wrapper as constructed returns, and afterwards every target's slot
    (its block's child table at the target's name) holds the adapter
    stored under the target's id, while every slot that is not a
    target's holds what it held. *)
Theorem activation_replaces_targets model layers mt tb wl mult rank alpha drop mdrop
    rng w :
  plain_targets (targets (list_to_set tb) (list_to_set <$> wl) None model) →
  LoRAWWrapper_init model layers mt tb wl mult rank alpha drop mdrop rng = Ok w →
  ∃ w',
    activate w = (Ok tt, w')
    ∧ (∀ t, t ∈ targets (list_to_set tb) (list_to_set <$> wl) None model →
            Py.get (table_of (target_model w') (module_id (snd (fst t)))) (fst (snd t))
            = Some (SlotLoRAW (target_id t))
            ∧ is_Some (Py.get (lora_modules (net w')) (target_id t)))
    ∧ (∀ p key,
         (∀ t, t ∈ targets (list_to_set tb) (list_to_set <$> wl) None model →
               (module_id (snd (fst t)), fst (snd t)) ≠ (p, key)) →
         Py.get (table_of (target_model w') p) key
         = Py.get (table_of (target_model w) p) key).
Proof.
  intros Hplain (tm & n & Hscan & Hnet & ->)%LoRAWWrapper_init_Ok.
  destruct (plain_target_map tb wl model tm Hplain Hscan) as (Hslot & Hkeys).
  destruct Hplain as (Hplain & Hnd & Hid).
  apply LoRAWNetwork_init_built_from in Hnet as (_ & Hndn & Hkn & _ & Hbuilt).
  assert (∀ name a, (name, a) ∈ lora_modules n → lora_name a = name) as Hnames.
  { intros name a Hin. apply (NoDup_keys_get _ _ _ Hndn) in Hin.
    by destruct (Hbuilt name a Hin) as (info & layer & _ & _ & ? & _). }
  unfold activate. cbn [is_active target_map net target_model].
  unfold LoRAWNetwork_activate.
  destruct (for_each_st _ (lora_modules n) (host_of model layers)) as [r h'] eqn:Hloop.
  pose proof (activate_loop _ _ _ _ _ Hloop) as (_ & _ & Hr).
  destruct r as [[]|e].
  2:{ destruct Hr as (_ & name & Hin & Hnone).
      apply Hkn, get_is_Some_keys in Hin. rewrite Hnone in Hin. by destruct Hin. }
  eexists. split; [reflexivity|]. cbn [target_model net with_active lora_modules].
  split.
  - intros t Ht. split.
    + apply (activate_loop_placed tm _ _ (target_id t) _ Hnames) with (2 := Hloop).
      * intros name Hname%Hkn Hs. destruct (Hkeys name Hname) as (t' & Ht' & ->).
        rewrite (Hslot t' Ht') in Hs. injection Hs as Hp Hk.
        unfold target_id. by rewrite (Hid t' t Ht' Ht Hp), Hk.
      * right. split; [|by apply Hslot].
        apply Hkn, get_is_Some_keys.
        pose proof (Hslot t Ht) as Hs. unfold slot_of in Hs.
        destruct (Py.get tm (target_id t)); [eauto | done].
    + apply get_is_Some_keys, Hkn, get_is_Some_keys.
      pose proof (Hslot t Ht) as Hs. unfold slot_of in Hs.
      destruct (Py.get tm (target_id t)); [eauto | done].
  - intros p key Hother.
    apply (activate_loop_untouched tm p key _ Hnames) with (2 := Hloop).
    intros name Hname%Hkn Hs. destruct (Hkeys name Hname) as (t & Ht & ->).
    rewrite (Hslot t Ht) in Hs. injection Hs as <- <-. by apply (Hother t Ht).
Qed.

Lemma activation_replaces_targets_witness :
  ∃ w w',
    LoRAWWrapper_init attention_model attention_layers None ["Attention"] None 1 2
      (Some 1%Qc) None None (fun _ => counting) = Ok w
    ∧ activate w = (Ok tt, w')
    ∧ Py.get (table_of (target_model w') 1) "to_q" = Some (SlotLoRAW "blk/to_q").
Proof.
  assert (targets (list_to_set ["Attention"]) (list_to_set <$> None) None
            attention_model
          = [(("blk", attention_block), ("to_q", linear_module 2));
             (("blk", attention_block), ("to_out", linear_module 3))]) as Hts.
  { by vm_compute. }
  assert (plain_targets (targets (list_to_set ["Attention"]) (list_to_set <$> None)
                           None attention_model)) as Hplain.
  { rewrite Hts. split; [|split].
    - intros t [->|[->|[]%elem_of_nil]%elem_of_cons]%elem_of_cons; by vm_compute.
    - change (NoDup ["blk/to_q"; "blk/to_out"]).
      apply NoDup_cons. split; [|apply NoDup_singleton].
      by intros ?%list_elem_of_singleton.
    - intros t t' [->|[->|[]%elem_of_nil]%elem_of_cons]%elem_of_cons
        [->|[->|[]%elem_of_nil]%elem_of_cons]%elem_of_cons _; reflexivity. }
  destruct (LoRAWWrapper_init _ _ _ _ _ _ _ _ _ _ _) as [w|e] eqn:H;
    [|by vm_compute in H].
  destruct (activation_replaces_targets attention_model attention_layers None
              ["Attention"] None 1 2 (Some 1%Qc) None None (fun _ => counting) w
              Hplain H) as (w' & Hact & Hslots & _).
  exists w, w'. split; [done|]. split; [done|].
  apply (Hslots (("blk", attention_block), ("to_q", linear_module 2))).
  rewrite Hts. left.
Defined.
